(** * The PiCaS actor run loop (picas/actors.py, picas/util.py)

    A shallow embedding of [AbstractRunActor] and [RunActor]: the per-task
    cycle [_run], the two [run] loops, the signal [handler], the constructor
    and [Timer].  The document store, the task iterator, the user's
    overrides, the subprocess handle and the wall clock are external to
    these classes; they are operations of an abstract world (class [World])
    whose answers the code reacts to.  Every call that leaves the actor is
    recorded in a trace, so that statements about which calls happen, in
    which order and with which arguments are statements about that trace.

    What the embedding takes from outside the two source files:
    - a task object is truthy, has an id and a revision, and its
      [error] method fills its error slot; what that method leaves in
      the lock and done fields is an answer of the world
      (picas/documents.py);
    - [db.save] answers with success or an exception and leaves the task
      object it was given as it is; [db.get] answers with a document or an
      exception (picas/clients.py, couchdb);
    - of the calls on the subprocess only [communicate(timeout=30)] raises,
      and only [TimeoutExpired];
    - signal handlers run in the main thread, and [exit(0)] raises
      [SystemExit] there (Python).  The signals the embedding delivers
      arrive while the worker is inside [process_task] or waits in the
      iterator for the next task; both points lie inside the loop of [run],
      after the handlers have been installed. *)

From Stdlib Require Import ZArith List String Bool Lia.
From Stdlib Require Import Floats DecimalString.
Import ListNotations.
Local Open Scope string_scope.
Local Open Scope Z_scope.

(* A decimal literal such as 8.0001 stands for the nearest double, as it
   does in Python. *)
#[local] Set Warnings "-inexact-float".

(** ** Python exceptions *)

(** The exception classes the code names, and the two families they belong
    to: subclasses of [Exception] (what [except Exception] catches) and the
    other subclasses of [BaseException]. *)
Inductive ExnClass : Type :=
| ResourceConflict                      (* couchdb.http.ResourceConflict *)
| TimeoutExpired                        (* subprocess.TimeoutExpired *)
| ValueError
| NotImplementedError
| AttributeError
| OtherException (name : string)        (* any other subclass of Exception *)
| SystemExit
| KeyboardInterrupt
| OtherBaseException (name : string).   (* outside Exception *)

Definition is_Exception (c : ExnClass) : bool :=
  match c with
  | SystemExit | KeyboardInterrupt | OtherBaseException _ => false
  | _ => true
  end.

Definition is_ResourceConflict (c : ExnClass) : bool :=
  match c with
  | ResourceConflict => true
  | _ => false
  end.

Definition class_name (c : ExnClass) : string :=
  match c with
  | ResourceConflict => "couchdb.http.ResourceConflict"
  | TimeoutExpired => "subprocess.TimeoutExpired"
  | ValueError => "ValueError"
  | NotImplementedError => "NotImplementedError"
  | AttributeError => "AttributeError"
  | OtherException n => n
  | SystemExit => "SystemExit"
  | KeyboardInterrupt => "KeyboardInterrupt"
  | OtherBaseException n => n
  end.

(** An exception instance: [type(ex)] and [str(ex)]. *)
Record PyExn : Type := { exn_class : ExnClass; exn_str : string }.

(** What a call into a collaborator gives back: a value or a raised
    exception. *)
Inductive result (A : Type) : Type :=
| Ok (a : A)
| Raise (e : PyExn).
Arguments Ok {A} a.
Arguments Raise {A} e.

(** ** Tasks *)

Record ErrorAnnotation : Type :=
  { err_message : string; err_exception : PyExn }.

(** A task document: its id, its revision token ['_rev'], the ['lock'] and
    ['done'] fields, the remaining fields, and the error slot. *)
Record Task : Type :=
  { task_id : string;
    task_rev : string;
    task_lock : Z;
    task_done : Z;
    task_payload : list (string * string);
    task_error : option ErrorAnnotation }.

(** [task['_rev'] = r] *)
Definition set_rev (r : string) (t : Task) : Task :=
  {| task_id := task_id t; task_rev := r; task_lock := task_lock t;
     task_done := task_done t; task_payload := task_payload t;
     task_error := task_error t |}.

(** [task['lock'] = v] *)
Definition set_lock (v : Z) (t : Task) : Task :=
  {| task_id := task_id t; task_rev := task_rev t; task_lock := v;
     task_done := task_done t; task_payload := task_payload t;
     task_error := task_error t |}.

(** [task['done'] = v] *)
Definition set_done (v : Z) (t : Task) : Task :=
  {| task_id := task_id t; task_rev := task_rev t; task_lock := task_lock t;
     task_done := v; task_payload := task_payload t;
     task_error := task_error t |}.

(** ** Handles of the collaborators *)

Definition Kwargs : Type := list (string * string).

Record Database : Type := { db_name : string }.

Record Popen : Type := { pid : Z }.

Record StopFunction : Type := { sf_name : string }.

Inductive Signal : Type := SIGTERM | SIGINT.

Definition signum (s : Signal) : string :=
  match s with
  | SIGTERM => "15"
  | SIGINT => "2"
  end.

Inductive IteratorClass : Type :=
| TaskViewIterator
| EndlessViewIterator
| OtherIterator.

Record Iterator : Type :=
  { it_class : IteratorClass;
    it_view : string;
    it_view_params : Kwargs;
    stop_callback : option StopFunction;
    stop_callback_args : Kwargs }.

(** ** picas/util.py: Timer *)

Record Timer : Type := { t : float }.

(** ** The actor object *)

Record Actor : Type :=
  { db : Database;
    iterator : Iterator;
    token_reset_values : option (Z * Z);
    current_task : option Task;
    subprocess : option Popen;
    tasks_processed : Z;
    time : option Timer }.

(** ** The world outside the actor *)

(** How a call of the user's [process_task] ends: it returns, it raises, or
    a termination signal is delivered while it runs.  In each case the task
    object and [self.subprocess] are left as the user's code had them at
    that moment. *)
Inductive ProcEnd : Type :=
| PReturn
| PRaise (e : PyExn)
| PSignal (s : Signal).

Record ProcOutcome : Type :=
  { po_task : Task; po_subprocess : option Popen; po_end : ProcEnd }.

(** One step of the iteration protocol: a task, the end of the sequence, an
    exception, or a termination signal delivered while the iterator waits
    for the next task. *)
Inductive IterOutcome : Type :=
| Yield (task : Task)
| StopIteration
| IterRaise (e : PyExn)
| IterSignal (s : Signal).

Class World (W : Type) : Type :=
  { (* the document store client: self.db.save(task), self.db.get(id) *)
    db_save : Database -> Task -> W -> result unit * W;
    db_get : Database -> string -> W -> result Task * W;
    (* next(self.iterator) *)
    iter_next : Iterator -> W -> IterOutcome * W;
    (* the methods a client overrides *)
    process_task : Task -> W -> ProcOutcome * W;
    prepare_env : W -> result unit * W;
    prepare_run : W -> result unit * W;
    cleanup_run : W -> result unit * W;
    cleanup_env : W -> result unit * W;
    (* the stop_function of RunActor.run, called with its keyword arguments *)
    call_stop_function : StopFunction -> Kwargs -> W -> result bool * W;
    (* time.time() *)
    time_time : W -> float * W;
    (* subprocess.Popen: poll(), terminate(), communicate(timeout=n) with
       false for TimeoutExpired, kill(), communicate() *)
    Popen_poll : Popen -> W -> option Z * W;
    Popen_terminate : Popen -> W -> W;
    Popen_communicate_timeout : Popen -> Z -> W -> bool * W;
    Popen_kill : Popen -> W -> W;
    Popen_communicate : Popen -> W -> W;
    (* Task.error(msg, exception=ex): the lock and done values the call
       leaves in the task *)
    Task_error_lock_done : Task -> Z * Z }.

(** Modelled from the spec: [Task.error(msg, exception=ex)] lives in
    picas/documents.py, which is not part of the sources at hand.  The spec
    gives the task "a mutable error-annotation slot" and has the run loop
    attach "an error-kind tag plus message" through "the task's
    error-annotation API": the call fills the slot with the message and the
    exception.  The spec lets the [done] field encode an error state and
    names [lock], [done] and the error slot as the fields that are
    written, so what the call leaves in [lock] and [done] is up to the
    document class: it is an answer of the world.  The id, the revision
    token and the payload are as before. *)
Definition Task_error {W : Type} `{World W} (t : Task) (msg : string)
    (ex : PyExn) : Task :=
  {| task_id := task_id t; task_rev := task_rev t;
     task_lock := fst (Task_error_lock_done t);
     task_done := snd (Task_error_lock_done t);
     task_payload := task_payload t;
     task_error := Some {| err_message := msg; err_exception := ex |} |}.

(** ** Calls recorded in the trace *)

Inductive Event : Type :=
| EvSignalHandler (s : Signal)          (* signal.signal(s, self.handler) *)
| EvSignal (s : Signal)                 (* s is delivered: the handler is entered *)
| EvPrepareEnv
| EvCleanupEnv
| EvPrepareRun
| EvCleanupRun
| EvNext
| EvProcess (task : Task)
| EvSave (task : Task) (r : result unit)
| EvGet (id : string)
| EvStopFunction (f : StopFunction) (args : Kwargs)
| EvPoll (p : Popen)
| EvTerminate (p : Popen)
| EvCommunicate (p : Popen) (timeout : option Z)
| EvKill (p : Popen)
| EvExit (code : Z).

Definition is_cleanup_env (e : Event) : bool :=
  match e with EvCleanupEnv => true | _ => false end.

Definition is_save (e : Event) : bool :=
  match e with EvSave _ _ => true | _ => false end.

Definition is_process (e : Event) : bool :=
  match e with EvProcess _ => true | _ => false end.

Definition is_exit (e : Event) : bool :=
  match e with EvExit _ => true | _ => false end.

Definition is_signal (e : Event) : bool :=
  match e with EvSignal _ => true | _ => false end.

Definition count (p : Event -> bool) (tr : list Event) : nat :=
  List.length (filter p tr).

(** ** State and the monad of the embedding *)

(** How a piece of code ends: with a value, with a raised exception, or not
    at all within the number of loop iterations allowed. *)
Inductive outcome (A : Type) : Type :=
| Ret (a : A)
| Exc (e : PyExn)
| Diverge.
Arguments Ret {A} a.
Arguments Exc {A} e.
Arguments Diverge {A}.

Section Monad.
Context {W : Type}.

Record State : Type :=
  { actor : Actor;
    world : W;
    trace : list Event;          (* calls, oldest first *)
    logged : list string }.      (* log.info messages, oldest first *)

Definition M (A : Type) : Type := State -> outcome A * State.

Definition ret {A} (a : A) : M A := fun st => (Ret a, st).

Definition bind {A B} (m : M A) (k : A -> M B) : M B :=
  fun st =>
    match m st with
    | (Ret a, st') => k a st'
    | (Exc e, st') => (Exc e, st')
    | (Diverge, st') => (Diverge, st')
    end.

Definition raise {A} (e : PyExn) : M A := fun st => (Exc e, st).

Definition diverge {A} : M A := fun st => (Diverge, st).

(** [try: body except <classes>: handler]: [catches] selects the classes
    named by the [except] clause; the handler itself is not protected. *)
Definition try_except {A} (body : M A) (catches : ExnClass -> bool)
    (handler : PyExn -> M A) : M A :=
  fun st =>
    match body st with
    | (Exc e, st') =>
        if catches (exn_class e) then handler e st' else (Exc e, st')
    | r => r
    end.

(** [try: body finally: final]: [final] runs however [body] ends; an
    exception of [final] replaces the one under way. *)
Definition try_finally {A} (body : M A) (final : M unit) : M A :=
  fun st =>
    match body st with
    | (Diverge, st') => (Diverge, st')
    | (r, st') =>
        match final st' with
        | (Ret _, st'') => (r, st'')
        | (Exc e, st'') => (Exc e, st'')
        | (Diverge, st'') => (Diverge, st'')
        end
    end.

Definition set_actor (a : Actor) (st : State) : State :=
  {| actor := a; world := world st; trace := trace st;
     logged := logged st |}.

Definition set_world (w : W) (st : State) : State :=
  {| actor := actor st; world := w; trace := trace st;
     logged := logged st |}.

Definition add_event (ev : Event) (st : State) : State :=
  {| actor := actor st; world := world st; trace := trace st ++ [ev];
     logged := logged st |}.

Definition add_log (msg : string) (st : State) : State :=
  {| actor := actor st; world := world st; trace := trace st;
     logged := logged st ++ [msg] |}.

Definition get_actor : M Actor := fun st => (Ret (actor st), st).

Definition modify_actor (f : Actor -> Actor) : M unit :=
  fun st => (Ret tt, set_actor (f (actor st)) st).

Definition emit (ev : Event) : M unit :=
  fun st => (Ret tt, add_event ev st).

(** [log.info(msg)] *)
Definition log_info (msg : string) : M unit :=
  fun st => (Ret tt, add_log msg st).

(** A call into the world that cannot raise. *)
Definition ext {A} (op : W -> A * W) : M A :=
  fun st => let (a, w) := op (world st) in (Ret a, set_world w st).

(** A call into the world that returns or raises. *)
Definition ext_result {A} (op : W -> result A * W) : M A :=
  fun st =>
    match op (world st) with
    | (Ok a, w) => (Ret a, set_world w st)
    | (Raise e, w) => (Exc e, set_world w st)
    end.
End Monad.
Arguments State W : clear implicits.
Arguments M W A : clear implicits.

Declare Scope actor_scope.
Delimit Scope actor_scope with actor.
Notation "x <- c1 ;; c2" := (bind c1 (fun x => c2))
  (at level 61, c1 at next level, right associativity) : actor_scope.
Notation "c1 ;; c2" := (bind c1 (fun _ => c2))
  (at level 61, right associativity) : actor_scope.
Local Open Scope actor_scope.

(** ** Field updates of the actor *)

Definition set_current_task (v : option Task) (a : Actor) : Actor :=
  {| db := db a; iterator := iterator a;
     token_reset_values := token_reset_values a; current_task := v;
     subprocess := subprocess a; tasks_processed := tasks_processed a;
     time := time a |}.

Definition set_subprocess (v : option Popen) (a : Actor) : Actor :=
  {| db := db a; iterator := iterator a;
     token_reset_values := token_reset_values a;
     current_task := current_task a; subprocess := v;
     tasks_processed := tasks_processed a; time := time a |}.

Definition set_tasks_processed (v : Z) (a : Actor) : Actor :=
  {| db := db a; iterator := iterator a;
     token_reset_values := token_reset_values a;
     current_task := current_task a; subprocess := subprocess a;
     tasks_processed := v; time := time a |}.

Definition set_time (v : option Timer) (a : Actor) : Actor :=
  {| db := db a; iterator := iterator a;
     token_reset_values := token_reset_values a;
     current_task := current_task a; subprocess := subprocess a;
     tasks_processed := tasks_processed a; time := v |}.

Definition set_iterator (v : Iterator) (a : Actor) : Actor :=
  {| db := db a; iterator := v;
     token_reset_values := token_reset_values a;
     current_task := current_task a; subprocess := subprocess a;
     tasks_processed := tasks_processed a; time := time a |}.

(** ** Calls into the world, as the actor makes them *)

Section Calls.
Context {W : Type} `{World W}.

(** [self.db.save(task)] *)
Definition call_db_save (task : Task) : M W unit :=
  fun st =>
    let (r, w) := db_save (db (actor st)) task (world st) in
    let st' := add_event (EvSave task r) (set_world w st) in
    match r with
    | Ok _ => (Ret tt, st')
    | Raise e => (Exc e, st')
    end.

(** [self.db.get(id)] *)
Definition call_db_get (id : string) : M W Task :=
  fun st =>
    ext_result (db_get (db (actor st)) id) (add_event (EvGet id) st).

(** A hook of the actor: [prepare_env], [prepare_run], [cleanup_run]
    or [cleanup_env]. *)
Definition call_hook (ev : Event) (hook : W -> result unit * W)
  : M W unit :=
  emit ev ;; ext_result hook.

(** [exit(code)]: raises [SystemExit]. *)
Definition exit (code : Z) : M W unit :=
  emit (EvExit code) ;;
  raise {| exn_class := SystemExit;
           exn_str := NilZero.string_of_int (Z.to_int code) |}.

(** [Timer()]: [self.t = time.time()] *)
Definition Timer_new : M W Timer :=
  now <- ext time_time ;;
  ret {| t := now |}.

(** [Timer.elapsed]: [time.time() - self.t] *)
Definition elapsed (tm : Timer) : M W float :=
  now <- ext time_time ;;
  ret (now - t tm)%float.
End Calls.

(** ** class AbstractRunActor *)

Module AbstractRunActor.
Section WithWorld.
Context {W : Type} `{World W}.

Definition default_view : string := "todo".
Definition default_token_reset_values : option (Z * Z) := Some (0, 0).

(** [__init__(self, db, iterator=None, view='todo',
    token_reset_values=[0, 0], **view_params)].  A [db] that is [None]
    raises before any attribute is assigned; otherwise the result is the
    object with its attributes ([self.time] is first assigned by
    [run]). *)
Definition __init__ (db : option Database) (iterator : option Iterator)
    (view : string) (token_reset_values : option (Z * Z))
    (view_params : Kwargs) : result Actor :=
  match db with
  | None =>
      Raise {| exn_class := ValueError;
               exn_str := "Database must be initialized" |}
  | Some d =>
      Ok {| db := d;
            iterator :=
              match iterator with
              | None =>
                  (* TaskViewIterator(self.db, view, **view_params) *)
                  {| it_class := TaskViewIterator; it_view := view;
                     it_view_params := view_params;
                     stop_callback := None; stop_callback_args := [] |}
              | Some it => it
              end;
            token_reset_values := token_reset_values;
            current_task := None;
            subprocess := None;
            tasks_processed := 0;
            time := None |}
  end.

(** [handler(self, signum, frame)].  [self.subprocess] and
    [self.current_task] are tested for truth: an object is true, [None] is
    false. *)
Definition handler (s : Signal) : M W unit :=
  emit (EvSignal s) ;;
  log_info ("PiCaS shutting down, called with signal " ++ signum s) ;;
  a <- get_actor ;;
  match subprocess a with
  | Some p =>
      rc <- (emit (EvPoll p) ;; ext (Popen_poll p)) ;;
      match rc with
      | None =>
          log_info "Terminating execution of token" ;;
          emit (EvTerminate p) ;;
          ext (fun w => (tt, Popen_terminate p w)) ;;
          exited <- (emit (EvCommunicate p (Some 30)) ;;
                     ext (Popen_communicate_timeout p 30)) ;;
          if exited : bool then ret tt
          else
            log_info "Killing subprocess" ;;
            emit (EvKill p) ;;
            ext (fun w => (tt, Popen_kill p w)) ;;
            emit (EvCommunicate p None) ;;
            ext (fun w => (tt, Popen_communicate p w))
      | Some _ => ret tt
      end
  | None => ret tt
  end ;;
  a <- get_actor ;;
  match current_task a, token_reset_values a with
  | Some task, Some (lock, done) =>
      let task' := set_done done (set_lock lock task) in
      modify_actor (set_current_task (Some task')) ;;
      call_db_save task'
  | _, _ => ret tt
  end ;;
  call_hook EvCleanupEnv cleanup_env ;;
  exit 0.

(** [setup_handler(self)] *)
Definition setup_handler : M W unit :=
  log_info "Setting up signal handlers" ;;
  emit (EvSignalHandler SIGTERM) ;;
  emit (EvSignalHandler SIGINT).

(** From [self.current_task = task] on, the local [task] of [_run] and
    [self.current_task] are one object: whatever the handler writes
    through [self.current_task] is seen through [task].  The object is
    kept in the actor's field and read from there. *)
Definition the_task (task : Task) : M W Task :=
  fun st =>
    (Ret (match current_task (actor st) with
          | Some task' => task'
          | None => task
          end), st).

Definition update_task (f : Task -> Task) : M W unit :=
  modify_actor (fun a => set_current_task (option_map f (current_task a)) a).

(** [self.process_task(task)]: the user's code may write to the task and
    to [self.subprocess]; a signal delivered while it runs enters the
    handler, whose exception surfaces at this call. *)
Definition call_process_task (task : Task) : M W unit :=
  emit (EvProcess task) ;;
  po <- ext (process_task task) ;;
  modify_actor (fun a =>
    set_subprocess (po_subprocess po)
      (set_current_task (Some (po_task po)) a)) ;;
  match po_end po with
  | PReturn => ret tt
  | PRaise e => raise e
  | PSignal s => handler s
  end.

(** The message built in the [except Exception] clause of [_run]. *)
Definition processing_message (ex : PyExn) : string :=
  "Exception <class '" ++ class_name (exn_class ex)
    ++ "'> occurred during processing: " ++ exn_str ex.

(** The [while True] loop of [_run]; one unit of [fuel] per attempt. *)
Fixpoint save_loop (fuel : nat) (task : Task) : M W unit :=
  match fuel with
  | O => diverge
  | S fuel' =>
      saved <-
        try_except
          (task' <- the_task task ;;
           call_db_save task' ;;
           ret true)                                   (* break *)
          is_ResourceConflict
          (fun _ =>
             task' <- the_task task ;;
             new_task <- call_db_get (task_id task') ;;
             update_task (set_rev (task_rev new_task)) ;;
             ret false) ;;
      if saved : bool then ret tt else save_loop fuel' task
  end.

(** [_run(self, task)] *)
Definition _run (fuel : nat) (task : Task) : M W unit :=
  call_hook EvPrepareRun prepare_run ;;
  modify_actor (set_current_task (Some task)) ;;
  try_except
    (call_process_task task)
    is_Exception
    (fun ex =>
       let msg := processing_message ex in
       update_task (fun task' => Task_error task' msg ex) ;;
       log_info msg) ;;
  save_loop fuel task ;;
  call_hook EvCleanupRun cleanup_run ;;
  modify_actor (fun a => set_tasks_processed (tasks_processed a + 1) a).

(** [next(self.iterator)]: [None] stands for the end of the [for] loop. *)
Definition next_task : M W (option Task) :=
  emit EvNext ;;
  a <- get_actor ;;
  r <- ext (iter_next (iterator a)) ;;
  match r with
  | Yield task => ret (Some task)
  | StopIteration => ret None
  | IterRaise e => raise e
  | IterSignal s => handler s ;; ret None
  end.

(** The [for task in self.iterator] loop of [run]; one unit of [fuel]
    per iteration. *)
Fixpoint run_loop (fuel : nat) : M W unit :=
  match fuel with
  | O => diverge
  | S fuel' =>
      r <- next_task ;;
      match r with
      | None => ret tt
      | Some task =>
          _run fuel task ;;
          modify_actor (set_current_task None) ;;
          run_loop fuel'
      end
  end.

(** [run(self)] *)
Definition run (fuel : nat) : M W unit :=
  setup_handler ;;
  tm <- Timer_new ;;
  modify_actor (set_time (Some tm)) ;;
  call_hook EvPrepareEnv prepare_env ;;
  try_finally (run_loop fuel) (call_hook EvCleanupEnv cleanup_env).
End WithWorld.
End AbstractRunActor.

(** ** class RunActor(AbstractRunActor) *)

Module RunActor.
Section WithWorld.
Context {W : Type} `{World W}.
Import AbstractRunActor.

(** The stop logic that follows [self._run(task)] in the loop body: [true]
    when one of the three [break] statements is reached.  The
    [logging.debug] call before it is below the configured level and
    leaves no record. *)
Definition stop_checks (max_time : option float) (avg_time_factor : float)
    (max_tasks : Z) (stop_function : option StopFunction)
    (stop_function_args : Kwargs) : M W bool :=
  stop <-
    match stop_function with
    | None => ret false
    | Some f =>
        emit (EvStopFunction f stop_function_args) ;;
        ext_result (call_stop_function f stop_function_args)
    end ;;
  if stop : bool then ret true
  else
    a <- get_actor ;;
    if negb (max_tasks =? 0) && (tasks_processed a =? max_tasks)
    then ret true
    else
      match max_time with
      | None => ret false
      | Some max_time =>
          match time a with
          | None =>
              raise {| exn_class := AttributeError; exn_str := "time" |}
          | Some tm =>
              e <- elapsed tm ;;
              let will_elapse := (e + avg_time_factor)%float in
              ret (max_time <? will_elapse)%float
          end
      end.

(** The [for task in self.iterator] loop of [run]. *)
Fixpoint run_loop (fuel : nat) (max_time : option float)
    (avg_time_factor : float) (max_tasks : Z)
    (stop_function : option StopFunction) (stop_function_args : Kwargs)
  : M W unit :=
  match fuel with
  | O => diverge
  | S fuel' =>
      r <- next_task ;;
      match r with
      | None => ret tt
      | Some task =>
          _run fuel task ;;
          stop <- stop_checks max_time avg_time_factor max_tasks
                    stop_function stop_function_args ;;
          if stop : bool then ret tt                    (* break *)
          else
            modify_actor (set_current_task None) ;;
            run_loop fuel' max_time avg_time_factor max_tasks
              stop_function stop_function_args
      end
  end.

(** [run(self, max_time=None, avg_time_factor=0.0, max_tasks=0,
    stop_function=None, **stop_function_args)] *)
Definition run (fuel : nat) (max_time : option float)
    (avg_time_factor : float) (max_tasks : Z)
    (stop_function : option StopFunction) (stop_function_args : Kwargs)
  : M W unit :=
  tm <- Timer_new ;;
  modify_actor (set_time (Some tm)) ;;
  call_hook EvPrepareEnv prepare_env ;;
  setup_handler ;;
  a <- get_actor ;;
  match it_class (iterator a) with
  | EndlessViewIterator =>
      modify_actor
        (set_iterator
           {| it_class := it_class (iterator a);
              it_view := it_view (iterator a);
              it_view_params := it_view_params (iterator a);
              stop_callback := stop_function;
              stop_callback_args := stop_function_args |})
  | _ => ret tt
  end ;;
  try_finally
    (run_loop fuel max_time avg_time_factor max_tasks stop_function
       stop_function_args)
    (call_hook EvCleanupEnv cleanup_env).
End WithWorld.
End RunActor.

(** ** A scripted world

    A world whose collaborators answer from scripts: each call takes the
    next answer of its script, and a script that is used up gives the
    ordinary answer (the store accepts the save, the user's code returns,
    the hook returns, the iterator is exhausted).  The store keeps the
    documents it has accepted.  The document class marks a task that is
    given an error with 99 in [lock] and in [done]. *)

Record Script : Type :=
  { sc_tasks : list IterOutcome;
    sc_process : list (Task -> ProcOutcome);
    sc_saves : list (result unit);
    sc_gets : list (result Task);
    sc_prepare_env : list (result unit);
    sc_prepare_run : list (result unit);
    sc_cleanup_run : list (result unit);
    sc_cleanup_env : list (result unit);
    sc_stop : list (result bool);
    sc_clock : list float;
    sc_poll : list (option Z);
    sc_communicate : list bool;
    sc_stored : list Task }.

Definition next_answer {A} (dflt : A) (l : list A) : A * list A :=
  match l with
  | [] => (dflt, [])
  | a :: l' => (a, l')
  end.

Definition quiet : Script :=
  {| sc_tasks := []; sc_process := []; sc_saves := []; sc_gets := [];
     sc_prepare_env := []; sc_prepare_run := []; sc_cleanup_run := [];
     sc_cleanup_env := []; sc_stop := []; sc_clock := []; sc_poll := [];
     sc_communicate := []; sc_stored := [] |}.

Definition not_found : PyExn :=
  {| exn_class := OtherException "couchdb.http.ResourceNotFound";
     exn_str := "missing" |}.

#[export] Instance Script_World : World Script :=
  {| db_save := fun _ task w =>
       let (r, l) := next_answer (Ok tt) (sc_saves w) in
       (r, {| sc_tasks := sc_tasks w; sc_process := sc_process w;
              sc_saves := l; sc_gets := sc_gets w;
              sc_prepare_env := sc_prepare_env w;
              sc_prepare_run := sc_prepare_run w;
              sc_cleanup_run := sc_cleanup_run w;
              sc_cleanup_env := sc_cleanup_env w; sc_stop := sc_stop w;
              sc_clock := sc_clock w; sc_poll := sc_poll w;
              sc_communicate := sc_communicate w;
              sc_stored := match r with
                           | Ok _ => sc_stored w ++ [task]
                           | Raise _ => sc_stored w
                           end |});
     db_get := fun _ _ w =>
       let (r, l) := next_answer (Raise not_found) (sc_gets w) in
       (r, {| sc_tasks := sc_tasks w; sc_process := sc_process w;
              sc_saves := sc_saves w; sc_gets := l;
              sc_prepare_env := sc_prepare_env w;
              sc_prepare_run := sc_prepare_run w;
              sc_cleanup_run := sc_cleanup_run w;
              sc_cleanup_env := sc_cleanup_env w; sc_stop := sc_stop w;
              sc_clock := sc_clock w; sc_poll := sc_poll w;
              sc_communicate := sc_communicate w;
              sc_stored := sc_stored w |});
     iter_next := fun _ w =>
       let (r, l) := next_answer StopIteration (sc_tasks w) in
       (r, {| sc_tasks := l; sc_process := sc_process w;
              sc_saves := sc_saves w; sc_gets := sc_gets w;
              sc_prepare_env := sc_prepare_env w;
              sc_prepare_run := sc_prepare_run w;
              sc_cleanup_run := sc_cleanup_run w;
              sc_cleanup_env := sc_cleanup_env w; sc_stop := sc_stop w;
              sc_clock := sc_clock w; sc_poll := sc_poll w;
              sc_communicate := sc_communicate w;
              sc_stored := sc_stored w |});
     process_task := fun task w =>
       let (f, l) :=
         next_answer (fun task => {| po_task := task; po_subprocess := None;
                                     po_end := PReturn |}) (sc_process w) in
       (f task,
        {| sc_tasks := sc_tasks w; sc_process := l;
           sc_saves := sc_saves w; sc_gets := sc_gets w;
           sc_prepare_env := sc_prepare_env w;
           sc_prepare_run := sc_prepare_run w;
           sc_cleanup_run := sc_cleanup_run w;
           sc_cleanup_env := sc_cleanup_env w; sc_stop := sc_stop w;
           sc_clock := sc_clock w; sc_poll := sc_poll w;
           sc_communicate := sc_communicate w;
           sc_stored := sc_stored w |});
     prepare_env := fun w =>
       let (r, l) := next_answer (Ok tt) (sc_prepare_env w) in
       (r, {| sc_tasks := sc_tasks w; sc_process := sc_process w;
              sc_saves := sc_saves w; sc_gets := sc_gets w;
              sc_prepare_env := l;
              sc_prepare_run := sc_prepare_run w;
              sc_cleanup_run := sc_cleanup_run w;
              sc_cleanup_env := sc_cleanup_env w; sc_stop := sc_stop w;
              sc_clock := sc_clock w; sc_poll := sc_poll w;
              sc_communicate := sc_communicate w;
              sc_stored := sc_stored w |});
     prepare_run := fun w =>
       let (r, l) := next_answer (Ok tt) (sc_prepare_run w) in
       (r, {| sc_tasks := sc_tasks w; sc_process := sc_process w;
              sc_saves := sc_saves w; sc_gets := sc_gets w;
              sc_prepare_env := sc_prepare_env w;
              sc_prepare_run := l;
              sc_cleanup_run := sc_cleanup_run w;
              sc_cleanup_env := sc_cleanup_env w; sc_stop := sc_stop w;
              sc_clock := sc_clock w; sc_poll := sc_poll w;
              sc_communicate := sc_communicate w;
              sc_stored := sc_stored w |});
     cleanup_run := fun w =>
       let (r, l) := next_answer (Ok tt) (sc_cleanup_run w) in
       (r, {| sc_tasks := sc_tasks w; sc_process := sc_process w;
              sc_saves := sc_saves w; sc_gets := sc_gets w;
              sc_prepare_env := sc_prepare_env w;
              sc_prepare_run := sc_prepare_run w;
              sc_cleanup_run := l;
              sc_cleanup_env := sc_cleanup_env w; sc_stop := sc_stop w;
              sc_clock := sc_clock w; sc_poll := sc_poll w;
              sc_communicate := sc_communicate w;
              sc_stored := sc_stored w |});
     cleanup_env := fun w =>
       let (r, l) := next_answer (Ok tt) (sc_cleanup_env w) in
       (r, {| sc_tasks := sc_tasks w; sc_process := sc_process w;
              sc_saves := sc_saves w; sc_gets := sc_gets w;
              sc_prepare_env := sc_prepare_env w;
              sc_prepare_run := sc_prepare_run w;
              sc_cleanup_run := sc_cleanup_run w;
              sc_cleanup_env := l; sc_stop := sc_stop w;
              sc_clock := sc_clock w; sc_poll := sc_poll w;
              sc_communicate := sc_communicate w;
              sc_stored := sc_stored w |});
     call_stop_function := fun _ _ w =>
       let (r, l) := next_answer (Ok false) (sc_stop w) in
       (r, {| sc_tasks := sc_tasks w; sc_process := sc_process w;
              sc_saves := sc_saves w; sc_gets := sc_gets w;
              sc_prepare_env := sc_prepare_env w;
              sc_prepare_run := sc_prepare_run w;
              sc_cleanup_run := sc_cleanup_run w;
              sc_cleanup_env := sc_cleanup_env w; sc_stop := l;
              sc_clock := sc_clock w; sc_poll := sc_poll w;
              sc_communicate := sc_communicate w;
              sc_stored := sc_stored w |});
     time_time := fun w =>
       let (r, l) := next_answer 0%float (sc_clock w) in
       (r, {| sc_tasks := sc_tasks w; sc_process := sc_process w;
              sc_saves := sc_saves w; sc_gets := sc_gets w;
              sc_prepare_env := sc_prepare_env w;
              sc_prepare_run := sc_prepare_run w;
              sc_cleanup_run := sc_cleanup_run w;
              sc_cleanup_env := sc_cleanup_env w; sc_stop := sc_stop w;
              sc_clock := l; sc_poll := sc_poll w;
              sc_communicate := sc_communicate w;
              sc_stored := sc_stored w |});
     Popen_poll := fun _ w =>
       let (r, l) := next_answer (Some 0) (sc_poll w) in
       (r, {| sc_tasks := sc_tasks w; sc_process := sc_process w;
              sc_saves := sc_saves w; sc_gets := sc_gets w;
              sc_prepare_env := sc_prepare_env w;
              sc_prepare_run := sc_prepare_run w;
              sc_cleanup_run := sc_cleanup_run w;
              sc_cleanup_env := sc_cleanup_env w; sc_stop := sc_stop w;
              sc_clock := sc_clock w; sc_poll := l;
              sc_communicate := sc_communicate w;
              sc_stored := sc_stored w |});
     Popen_terminate := fun _ w => w;
     Popen_communicate_timeout := fun _ _ w =>
       let (r, l) := next_answer true (sc_communicate w) in
       (r, {| sc_tasks := sc_tasks w; sc_process := sc_process w;
              sc_saves := sc_saves w; sc_gets := sc_gets w;
              sc_prepare_env := sc_prepare_env w;
              sc_prepare_run := sc_prepare_run w;
              sc_cleanup_run := sc_cleanup_run w;
              sc_cleanup_env := sc_cleanup_env w; sc_stop := sc_stop w;
              sc_clock := sc_clock w; sc_poll := sc_poll w;
              sc_communicate := l;
              sc_stored := sc_stored w |});
     Popen_kill := fun _ w => w;
     Popen_communicate := fun _ w => w;
     Task_error_lock_done := fun _ => (99, 99) |}.

(** Scripts are written as changes to [quiet]. *)
Definition with_tasks (l : list IterOutcome) (w : Script) : Script :=
  {| sc_tasks := l; sc_process := sc_process w; sc_saves := sc_saves w;
     sc_gets := sc_gets w; sc_prepare_env := sc_prepare_env w;
     sc_prepare_run := sc_prepare_run w; sc_cleanup_run := sc_cleanup_run w;
     sc_cleanup_env := sc_cleanup_env w; sc_stop := sc_stop w;
     sc_clock := sc_clock w; sc_poll := sc_poll w;
     sc_communicate := sc_communicate w; sc_stored := sc_stored w |}.

Definition with_process (l : list (Task -> ProcOutcome)) (w : Script)
  : Script :=
  {| sc_tasks := sc_tasks w; sc_process := l; sc_saves := sc_saves w;
     sc_gets := sc_gets w; sc_prepare_env := sc_prepare_env w;
     sc_prepare_run := sc_prepare_run w; sc_cleanup_run := sc_cleanup_run w;
     sc_cleanup_env := sc_cleanup_env w; sc_stop := sc_stop w;
     sc_clock := sc_clock w; sc_poll := sc_poll w;
     sc_communicate := sc_communicate w; sc_stored := sc_stored w |}.

Definition with_saves (l : list (result unit)) (w : Script) : Script :=
  {| sc_tasks := sc_tasks w; sc_process := sc_process w; sc_saves := l;
     sc_gets := sc_gets w; sc_prepare_env := sc_prepare_env w;
     sc_prepare_run := sc_prepare_run w; sc_cleanup_run := sc_cleanup_run w;
     sc_cleanup_env := sc_cleanup_env w; sc_stop := sc_stop w;
     sc_clock := sc_clock w; sc_poll := sc_poll w;
     sc_communicate := sc_communicate w; sc_stored := sc_stored w |}.

Definition with_gets (l : list (result Task)) (w : Script) : Script :=
  {| sc_tasks := sc_tasks w; sc_process := sc_process w;
     sc_saves := sc_saves w; sc_gets := l;
     sc_prepare_env := sc_prepare_env w;
     sc_prepare_run := sc_prepare_run w; sc_cleanup_run := sc_cleanup_run w;
     sc_cleanup_env := sc_cleanup_env w; sc_stop := sc_stop w;
     sc_clock := sc_clock w; sc_poll := sc_poll w;
     sc_communicate := sc_communicate w; sc_stored := sc_stored w |}.

Definition with_cleanup_env (l : list (result unit)) (w : Script) : Script :=
  {| sc_tasks := sc_tasks w; sc_process := sc_process w;
     sc_saves := sc_saves w; sc_gets := sc_gets w;
     sc_prepare_env := sc_prepare_env w;
     sc_prepare_run := sc_prepare_run w; sc_cleanup_run := sc_cleanup_run w;
     sc_cleanup_env := l; sc_stop := sc_stop w;
     sc_clock := sc_clock w; sc_poll := sc_poll w;
     sc_communicate := sc_communicate w; sc_stored := sc_stored w |}.

Definition with_clock (l : list float) (w : Script) : Script :=
  {| sc_tasks := sc_tasks w; sc_process := sc_process w;
     sc_saves := sc_saves w; sc_gets := sc_gets w;
     sc_prepare_env := sc_prepare_env w;
     sc_prepare_run := sc_prepare_run w; sc_cleanup_run := sc_cleanup_run w;
     sc_cleanup_env := sc_cleanup_env w; sc_stop := sc_stop w;
     sc_clock := l; sc_poll := sc_poll w;
     sc_communicate := sc_communicate w; sc_stored := sc_stored w |}.

Definition with_subprocess (polls : list (option Z)) (waits : list bool)
    (w : Script) : Script :=
  {| sc_tasks := sc_tasks w; sc_process := sc_process w;
     sc_saves := sc_saves w; sc_gets := sc_gets w;
     sc_prepare_env := sc_prepare_env w;
     sc_prepare_run := sc_prepare_run w; sc_cleanup_run := sc_cleanup_run w;
     sc_cleanup_env := sc_cleanup_env w; sc_stop := sc_stop w;
     sc_clock := sc_clock w; sc_poll := polls;
     sc_communicate := waits; sc_stored := sc_stored w |}.

(** A freshly constructed actor over the database [picas], and the state
    in which it starts against a scripted world. *)
Definition picas_db : Database := {| db_name := "picas" |}.

Definition fresh_actor : Actor :=
  match AbstractRunActor.__init__ (Some picas_db) None
          AbstractRunActor.default_view
          AbstractRunActor.default_token_reset_values [] with
  | Ok a => a
  | Raise _ =>
      {| db := picas_db;
         iterator := {| it_class := OtherIterator; it_view := "";
                        it_view_params := []; stop_callback := None;
                        stop_callback_args := [] |};
         token_reset_values := None; current_task := None;
         subprocess := None; tasks_processed := 0; time := None |}
  end.

Definition start (w : Script) : State Script :=
  {| actor := fresh_actor; world := w; trace := []; logged := [] |}.

(** A claimed task as the iterator hands it out: locked, not done. *)
Definition token (id : string) : Task :=
  {| task_id := id; task_rev := "1-a"; task_lock := 1; task_done := 0;
     task_payload := [("input", id)]; task_error := None |}.

(** ** Scenarios *)

Definition conflict : PyExn :=
  {| exn_class := ResourceConflict;
     exn_str := "Document update conflict." |}.

(** The stored copy of a task as a monitoring process rewrote it while the
    worker held the task: a newer revision and other field values. *)
Definition monitored (id rev : string) : Task :=
  {| task_id := id; task_rev := rev; task_lock := 1; task_done := 0;
     task_payload := [("input", id); ("progress", "50%")];
     task_error := None |}.

(** The worker holds [task] as its current task. *)
Definition holding (task : Task) (w : Script) : State Script :=
  {| actor := set_current_task (Some task) fresh_actor; world := w;
     trace := []; logged := [] |}.

(** A store that answers two saves with a write conflict. *)
Definition two_conflicts : Script :=
  with_saves [Raise conflict; Raise conflict]
    (with_gets [Ok (monitored "a" "2-b"); Ok (monitored "a" "3-c")] quiet).

(** Where the two conflicts leave the worker: its task with the token of
    the second re-fetch, and the store before and after the third save. *)
Definition two_conflicts_task : Task :=
  Eval vm_compute in set_rev "3-c" (token "a").

Definition two_conflicts_world : Script :=
  Eval vm_compute in with_saves [] (with_gets [] quiet).

Definition two_conflicts_saved : Script :=
  Eval vm_compute in
    snd (db_save picas_db two_conflicts_task two_conflicts_world).

Definition two_conflicts_end : State Script :=
  Eval vm_compute in
    snd (AbstractRunActor.save_loop 3 (token "a")
           (holding (token "a") two_conflicts)).

(** A store that answers a save with a write conflict and the next with
    another error. *)
Definition server_error : PyExn :=
  {| exn_class := OtherException "couchdb.http.ServerError";
     exn_str := "500" |}.

Definition conflict_then_error : Script :=
  with_saves [Raise conflict; Raise server_error]
    (with_gets [Ok (monitored "a" "2-b")] quiet).

(** The worker holds task [a] when a termination signal arrives, and the
    store answers the handler's save with a write conflict. *)
Definition conflict_at_shutdown : State Script :=
  holding (token "a") (with_saves [Raise conflict] quiet).

(** The user's code starts a subprocess for task [a]; a SIGTERM arrives
    while it runs.  The subprocess is alive and ignores the terminate
    request for 30 seconds. *)
Definition interrupted : Script :=
  with_tasks [Yield (token "a"); Yield (token "b")]
    (with_process
       [fun task => {| po_task := task;
                       po_subprocess := Some {| pid := 4711 |};
                       po_end := PSignal SIGTERM |}]
       (with_subprocess [None] [false] quiet)).

Definition interrupted_run : outcome unit * State Script :=
  Eval vm_compute in RunActor.run 5 None 0%float 0 None [] (start interrupted).

(** Two tasks and no signal. *)
Definition two_tasks : Script :=
  with_tasks [Yield (token "a"); Yield (token "b")] quiet.

Definition two_tasks_run : outcome unit * State Script :=
  Eval vm_compute in RunActor.run 5 None 0%float 0 None [] (start two_tasks).

(** * Vocabulary of the statements *)

Local Open Scope list_scope.

Definition is_get (e : Event) : bool :=
  match e with EvGet _ => true | _ => false end.

Section Vocabulary.
Context {W : Type} `{World W}.
Import AbstractRunActor.

(** The task the handler writes back: the current task with the reset
    pair in its lock and done fields. *)
Definition reset_task (lock done : Z) (task : Task) : Task :=
  set_done done (set_lock lock task).

(** The calls the handler makes to the tracked subprocess, as the answers
    of the subprocess dictate. *)
Definition subprocess_calls (a : Actor) (w : W) : list Event :=
  match subprocess a with
  | None => []
  | Some p =>
      match Popen_poll p w with
      | (Some _, _) => [EvPoll p]
      | (None, w1) =>
          if fst (Popen_communicate_timeout p 30 (Popen_terminate p w1))
          then [EvPoll p; EvTerminate p; EvCommunicate p (Some 30)]
          else [EvPoll p; EvTerminate p; EvCommunicate p (Some 30);
                EvKill p; EvCommunicate p None]
      end
  end.

Definition system_exit_0 : PyExn :=
  {| exn_class := SystemExit; exn_str := "0" |}.

(** The state in which the loop retries after a conflict: the save and
    the re-fetch are on the trace, and the local task carries the fetched
    revision token. *)
Definition after_conflict (st : State W) (task : Task) (e : PyExn)
    (new_task : Task) (w : W) : State W :=
  {| actor := set_current_task (Some (set_rev (task_rev new_task) task))
                (actor st);
     world := w;
     trace := trace st ++ [EvSave task (Raise e); EvGet (task_id task)];
     logged := logged st |}.

(** What the store does with the save of [task]: [n] write conflicts in a
    row, each followed by a successful re-fetch.  The result is the local
    task and the world before the next attempt. *)
Fixpoint after_conflicts (n : nat) (d : Database) (task : Task) (w : W)
  : option (Task * W) :=
  match n with
  | O => Some (task, w)
  | S n' =>
      match db_save d task w with
      | (Raise e, w1) =>
          if is_ResourceConflict (exn_class e) then
            match db_get d (task_id task) w1 with
            | (Ok new_task, w2) =>
                after_conflicts n' d (set_rev (task_rev new_task) task) w2
            | (Raise _, _) => None
            end
          else None
      | (Ok _, _) => None
      end
  end.

(** [t] has the field values of [t0], the revision token apart. *)
Definition same_but_rev (t0 t : Task) : Prop :=
  task_id t = task_id t0 /\ task_lock t = task_lock t0
  /\ task_done t = task_done t0 /\ task_payload t = task_payload t0
  /\ task_error t = task_error t0.

Definition is_subprocess_call (e : Event) : bool :=
  match e with
  | EvPoll _ | EvTerminate _ | EvCommunicate _ _ | EvKill _ => true
  | _ => false
  end.

(** The handler goes through all its steps: after its other calls it runs
    the teardown hook and ends the process with exit status 0. *)
Definition runs_to_exit (s : Signal) (st : State W) : Prop :=
  fst (handler s st) = Exc system_exit_0
  /\ exists evs,
       trace (snd (handler s st)) = trace st ++ evs ++ [EvCleanupEnv; EvExit 0].

(** [m] takes every state to a state related to it by [R]. *)
Definition preserves {A : Type} (R : State W -> State W -> Prop)
    (m : M W A) : Prop :=
  forall st, R st (snd (m st)).

(** [self.current_task = None] at the end of a loop iteration. *)
Definition clear_current_task (st : State W) : State W :=
  set_actor (set_current_task None (actor st)) st.

(** The state after [n] iterations of the [for] loop in a row, each of which
    gets a task from the iterator and completes its cycle, when no stop
    criterion ends the loop in between; the current task is cleared between
    two iterations. *)
Fixpoint after_cycles (fuel n : nat) (st : State W) : option (State W) :=
  match n with
  | O => None
  | S n' =>
      match next_task st with
      | (Ret (Some task), st0) =>
          match _run fuel task st0 with
          | (Ret _, st1) =>
              match n' with
              | O => Some st1
              | S _ => after_cycles fuel n' (clear_current_task st1)
              end
          | _ => None
          end
      | _ => None
      end
  end.

(** Between two states of a run: every teardown call that was added belongs
    to a handler invocation that was added, and every exit that was added
    follows a teardown call that was added. *)
Definition teardown_in_handler (st st' : State W) : Prop :=
  (count is_signal (trace st) <= count is_signal (trace st'))%nat
  /\ (count is_cleanup_env (trace st) <= count is_cleanup_env (trace st'))%nat
  /\ (count is_exit (trace st) <= count is_exit (trace st'))%nat
  /\ (count is_cleanup_env (trace st') + count is_signal (trace st)
      <= count is_signal (trace st') + count is_cleanup_env (trace st))%nat
  /\ (count is_exit (trace st') + count is_cleanup_env (trace st)
      <= count is_cleanup_env (trace st') + count is_exit (trace st))%nat.

Definition outside_handler (ev : Event) : bool :=
  negb (is_signal ev || is_cleanup_env ev || is_exit ev).

(** The teardown hook runs once only if the process ends through the
    handler's exit. *)
Definition only_handler_teardown (tr : list Event) : Prop :=
  In (EvExit 0) tr -> count is_cleanup_env tr = 1%nat.

(** [tasks_processed] is the same in both states. *)
Definition same_tasks_processed (st st' : State W) : Prop :=
  tasks_processed (actor st') = tasks_processed (actor st).

(** The steps of [_run] before the counter is incremented. *)
Definition cycle_steps (fuel : nat) (task : Task) : M W unit :=
  call_hook EvPrepareRun prepare_run ;;
  modify_actor (set_current_task (Some task)) ;;
  try_except
    (call_process_task task)
    is_Exception
    (fun ex =>
       let msg := processing_message ex in
       update_task (fun task' => Task_error task' msg ex) ;;
       log_info msg) ;;
  save_loop fuel task ;;
  call_hook EvCleanupRun cleanup_run.

(** The events the handler records. *)
Definition handler_event (ev : Event) : bool :=
  is_signal ev || is_subprocess_call ev || is_save ev || is_cleanup_env ev
  || is_exit ev.

(** No call of [process_task] lies between the two states. *)
Definition same_process_calls (st st' : State W) : Prop :=
  count is_process (trace st') = count is_process (trace st).

Definition not_process (ev : Event) : bool := negb (is_process ev).

(** The trace of [st'] continues the trace of [st]. *)
Definition extends (st st' : State W) : Prop :=
  exists evs, trace st' = trace st ++ evs.

(** The steps of [_run] that follow the [try] statement around
    [process_task]: the save loop, the post-task hook and the counter. *)
Definition persist_and_finish (fuel : nat) (task : Task) : M W unit :=
  save_loop fuel task ;;
  call_hook EvCleanupRun cleanup_run ;;
  modify_actor (fun a => set_tasks_processed (tasks_processed a + 1) a).

(** The state of a cycle when the [try] statement around [process_task] is
    left: the hook and the call are on the trace, the task object and the
    subprocess are as the user's code left them. *)
Definition processed (st : State W) (task task1 : Task) (sp : option Popen)
    (w : W) (msgs : list string) : State W :=
  {| actor := set_current_task (Some task1) (set_subprocess sp (actor st));
     world := w;
     trace := trace st ++ [EvPrepareRun; EvProcess task];
     logged := logged st ++ msgs |}.

(** The state in which a cycle ends whose save was accepted at once. *)
Definition cycle_done (st : State W) (task task1 : Task) (sp : option Popen)
    (w : W) (msgs : list string) : State W :=
  {| actor :=
       set_tasks_processed (tasks_processed (actor st) + 1)
         (set_current_task (Some task1) (set_subprocess sp (actor st)));
     world := w;
     trace := trace st ++ [EvPrepareRun; EvProcess task;
                           EvSave task1 (Ok tt); EvCleanupRun];
     logged := logged st ++ msgs |}.

(** A store that answers every save with a write conflict, and every
    re-fetch with a document. *)
Definition always_conflicts (d : Database) : Prop :=
  forall task w,
    exists e w1 new_task w2,
      db_save d task w = (Raise e, w1)
      /\ is_ResourceConflict (exn_class e) = true
      /\ db_get d (task_id task) w1 = (Ok new_task, w2).

(** The stop function, if [run] was given one, is called in [st] and
    answers no; [st'] is the state after the call. *)
Definition stop_function_declines (sf : option StopFunction) (args : Kwargs)
    (st st' : State W) : Prop :=
  match sf with
  | None => st' = st
  | Some f =>
      exists w,
        call_stop_function f args (world st) = (Ok false, w)
        /\ st' = set_world w (add_event (EvStopFunction f args) st)
  end.
End Vocabulary.

(** A source of ten tasks. *)
Definition ten_tasks : Script :=
  with_tasks
    (map (fun id => Yield (token id))
       ["1"; "2"; "3"; "4"; "5"; "6"; "7"; "8"; "9"; "10"]) quiet.

Definition ten_tasks_end : State Script :=
  Eval vm_compute in
    match after_cycles 1 3 (start ten_tasks) with
    | Some st => st
    | None => start ten_tasks
    end.

(** An actor whose timer was started at clock reading 0. *)
Definition timed (w : Script) : State Script :=
  {| actor := set_time (Some {| t := 0%float |}) fresh_actor; world := w;
     trace := []; logged := [] |}.

(** Three tasks; the clock reads 8 after the first cycle and 8.0001 after
    the second. *)
Definition deadline : Script :=
  with_tasks [Yield (token "a"); Yield (token "b"); Yield (token "c")]
    (with_clock [8%float; 8.0001%float] quiet).

Definition deadline_first : State Script :=
  Eval vm_compute in
    match after_cycles 1 1 (timed deadline) with
    | Some st => st
    | None => timed deadline
    end.

Definition deadline_second : State Script :=
  Eval vm_compute in
    match after_cycles 1 1
            (clear_current_task
               (set_world (snd (time_time (world deadline_first)))
                  deadline_first)) with
    | Some st => st
    | None => timed deadline
    end.

(** The user's code raises [ValueError] on the first task it is given. *)
Definition bad_input : PyExn :=
  {| exn_class := ValueError; exn_str := "bad input" |}.

Definition failing : Script :=
  with_tasks [Yield (token "a"); Yield (token "b")]
    (with_process
       [fun task => {| po_task := task; po_subprocess := None;
                       po_end := PRaise bad_input |}] quiet).

(** The state in which the cycle of task [a] starts. *)
Definition failing_cycle : State Script :=
  Eval vm_compute in snd (AbstractRunActor.next_task (start failing)).

(** * Further modules of the package *)

(** ** picas/util.py: merge_dicts

    A [dict] with string keys is the list of its items in insertion
    order; the keys of a dict are pairwise different. *)

Section Dicts.
Variable V : Type.

Definition Dict : Type := list (string * V).

Definition dict_keys (d : Dict) : list string := map fst d.

(** [d.get(k)] *)
Fixpoint dict_get (k : string) (d : Dict) : option V :=
  match d with
  | [] => None
  | (k', v) :: d' => if String.eqb k' k then Some v else dict_get k d'
  end.

(** [k in d] *)
Definition dict_contains (k : string) (d : Dict) : bool :=
  existsb (String.eqb k) (dict_keys d).

(** [d[k] = v]: the value of a key that is present is replaced where it
    stands, a new key is added at the end. *)
Fixpoint dict_setitem (k : string) (v : V) (d : Dict) : Dict :=
  match d with
  | [] => [(k, v)]
  | (k', v') :: d' =>
      if String.eqb k' k then (k', v) :: d'
      else (k', v') :: dict_setitem k v d'
  end.

(** [d.update(other)]: the items of [other] are assigned in its order. *)
Definition dict_update (d other : Dict) : Dict :=
  fold_left (fun acc kv => dict_setitem (fst kv) (snd kv) acc) other d.

(** [deepcopy(d)]: a new dict with copies of the values.  The values of
    the embedding are immutable, so a copy is the value itself. *)
Definition deepcopy (d : Dict) : Dict := d.

(** [merge_dicts(dict1, dict2)] *)
Definition merge_dicts (dict1 dict2 : Dict) : Dict :=
  let merge := deepcopy dict1 in
  dict_update merge dict2.

(** The keys of [other] that [d] does not have, in the order of
    [other]. *)
Definition new_keys (d other : Dict) : list string :=
  filter (fun k => negb (dict_contains k d)) (dict_keys other).
End Dicts.
Arguments dict_keys {V} d.
Arguments dict_get {V} k d.
Arguments dict_contains {V} k d.
Arguments dict_setitem {V} k v d.
Arguments dict_update {V} d other.
Arguments deepcopy {V} d.
Arguments merge_dicts {V} dict1 dict2.
Arguments new_keys {V} d other.

(** ** picas/srmclient.py: Downloader

    [Downloader.run] as one thread executes it while it is the only
    consumer of the queue.  The storage client is a collaborator whose code
    is not at hand: its [download] answers as the world dictates. *)

Class SRM (C : Type) : Type :=
  { (** [self.srm.download(f)] *)
    srm_download : string -> C -> result unit * C }.

Inductive DownloadEvent : Type :=
| EvDownload (f : string)
| EvTaskDone.

(** The thread object with its queue: the items of [self.q], oldest
    first, the queue's count of unfinished tasks, the storage client, and
    the calls made so far. *)
Record DownloaderState (C : Type) : Type :=
  { q : list string;
    unfinished_tasks : nat;
    srm : C;
    calls : list DownloadEvent }.
Arguments q {C} d.
Arguments unfinished_tasks {C} d.
Arguments srm {C} d.
Arguments calls {C} d.

(** The value of the expression of an [except] clause: a class, or an
    instance as in [except Exception():]. *)
Inductive ExceptClause : Type :=
| ExceptClass (catches : ExnClass -> bool)
| ExceptInstance.

Definition type_error : PyExn :=
  {| exn_class := OtherException "TypeError";
     exn_str := "catching classes that do not inherit from BaseException is not allowed" |}.

Definition name_error : PyExn :=
  {| exn_class := OtherException "NameError";
     exn_str := "name 'picaslogger' is not defined" |}.

Definition download_failed : PyExn :=
  {| exn_class := OtherException "EnvironmentError";
     exn_str := "Download failed." |}.

Definition task_done_error : PyExn :=
  {| exn_class := ValueError;
     exn_str := "task_done() called too many times" |}.

(** Whether the [except] clause takes the exception [e]: the test itself
    raises [TypeError] when the clause names something that is no
    exception class. *)
Definition clause_matches (c : ExceptClause) (e : PyExn) : result bool :=
  match c with
  | ExceptClass catches => Ok (catches (exn_class e))
  | ExceptInstance => Raise type_error
  end.

Module Downloader.
Section WithClient.
Context {C : Type} `{SRM C}.

(** [self.srm.download(f)] *)
Definition call_download (f : string) (d : DownloaderState C)
  : result unit * DownloaderState C :=
  let (r, c) := srm_download f (srm d) in
  (r, {| q := q d; unfinished_tasks := unfinished_tasks d; srm := c;
         calls := calls d ++ [EvDownload f] |}).

(** [while (count < 10 and not done)] with its [try] statement; the result
    is [count] as the loop leaves it.  One unit of [fuel] per test of the
    loop condition. *)
Fixpoint download_loop (fuel : nat) (f : string) (count : Z) (done : bool)
    (d : DownloaderState C) : outcome Z * DownloaderState C :=
  match fuel with
  | O => (Diverge, d)
  | S fuel' =>
      if (count <? 10) && negb done then
        match call_download f d with
        | (Ok _, d') => download_loop fuel' f count true d'
        | (Raise e, d') =>
            match clause_matches ExceptInstance e with   (* except Exception(): *)
            | Ok true => download_loop fuel' f (count + 1) done d'
            | Ok false => (Exc e, d')
            | Raise e' => (Exc e', d')
            end
        end
      else (Ret count, d)
  end.

(** [self.q.task_done()] *)
Definition task_done (d : DownloaderState C)
  : outcome unit * DownloaderState C :=
  match unfinished_tasks d with
  | O => (Exc task_done_error, d)
  | S n =>
      (Ret tt, {| q := q d; unfinished_tasks := n; srm := srm d;
                  calls := calls d ++ [EvTaskDone] |})
  end.

(** [run(self)]; one unit of [fuel] per test of [self.q.empty()].  The
    module binds no name [picaslogger], so the statement after the loop
    raises [NameError]. *)
Fixpoint run (fuel : nat) (d : DownloaderState C)
  : outcome unit * DownloaderState C :=
  match fuel with
  | O => (Diverge, d)
  | S fuel' =>
      match q d with
      | [] => (Exc name_error, d)
      | f :: rest =>
          let d1 := {| q := rest; unfinished_tasks := unfinished_tasks d;
                       srm := srm d; calls := calls d |} in
          match download_loop fuel f 0 false d1 with
          | (Ret count, d2) =>
              if count >? 9 then (Exc download_failed, d2)
              else
                match task_done d2 with
                | (Ret _, d3) => run fuel' d3
                | (Exc e, d3) => (Exc e, d3)
                | (Diverge, d3) => (Diverge, d3)
                end
          | (Exc e, d2) => (Exc e, d2)
          | (Diverge, d2) => (Diverge, d2)
          end
      end
  end.
End WithClient.
End Downloader.

(** The files of the [download] calls among [evs]. *)
Definition downloaded (evs : list DownloadEvent) : list string :=
  flat_map (fun ev => match ev with
                      | EvDownload f => [f]
                      | EvTaskDone => []
                      end) evs.

Section DownloaderVocabulary.
Context {C : Type} `{SRM C}.

(** The storage client after it has downloaded [files] one after the
    other, when every one of these downloads succeeds. *)
Fixpoint fetched (files : list string) (c : C) : option C :=
  match files with
  | [] => Some c
  | f :: files' =>
      match srm_download f c with
      | (Ok _, c') => fetched files' c'
      | (Raise _, _) => None
      end
  end.

(** The calls of a thread that downloads [files] and reports each as
    done. *)
Definition fetch_calls (files : list string) : list DownloadEvent :=
  flat_map (fun f => [EvDownload f; EvTaskDone]) files.
End DownloaderVocabulary.

(** * Vocabulary of the further properties *)

Section CycleVocabulary.
Context {W : Type} `{World W}.
Import AbstractRunActor.

(** The state in which [process_task] is under way: the pre-task hook has
    returned in world [w], and the task object and the subprocess are as
    the user's code has left them so far. *)
Definition in_processing (st : State W) (task task1 : Task)
    (sp : option Popen) (w : W) : State W :=
  {| actor := set_current_task (Some task1) (set_subprocess sp (actor st));
     world := w;
     trace := trace st ++ [EvPrepareRun; EvProcess task];
     logged := logged st |}.

(** What the [except Exception] clause of [_run] does: the error goes to
    the task object and to the log. *)
Definition annotated (ex : PyExn) (st : State W) : State W :=
  add_log (processing_message ex)
    (set_actor
       (set_current_task
          (option_map
             (fun task' => Task_error task' (processing_message ex) ex)
             (current_task (actor st)))
          (actor st))
       st).

(** The actor as the handler leaves it: the current task, if there is one
    and the reset is enabled, carries the reset pair. *)
Definition handled (a : Actor) : Actor :=
  match current_task a, token_reset_values a with
  | Some task, Some (lock, done) =>
      set_current_task (Some (reset_task lock done task)) a
  | _, _ => a
  end.

(** Between [st] and [st'] the counter has grown by the number of calls of
    [process_task]. *)
Definition all_counted (st st' : State W) : Prop :=
  tasks_processed (actor st') + Z.of_nat (count is_process (trace st))
  = tasks_processed (actor st) + Z.of_nat (count is_process (trace st')).

(** Between [st] and [st'] the counter has grown by the number of calls of
    [process_task], or by one less. *)
Definition all_but_one_counted (st st' : State W) : Prop :=
  tasks_processed (actor st) + Z.of_nat (count is_process (trace st'))
  = tasks_processed (actor st') + Z.of_nat (count is_process (trace st))
  \/ tasks_processed (actor st) + Z.of_nat (count is_process (trace st'))
     = tasks_processed (actor st') + Z.of_nat (count is_process (trace st)) + 1.

(** The iterator object is the same in both states. *)
Definition same_iterator (st st' : State W) : Prop :=
  iterator (actor st') = iterator (actor st).

(** The iterator after [RunActor.run] has looked at it: an
    [EndlessViewIterator] has been given the stop function and its
    arguments. *)
Definition registered (sf : option StopFunction) (args : Kwargs)
    (it : Iterator) : Iterator :=
  match it_class it with
  | EndlessViewIterator =>
      {| it_class := it_class it; it_view := it_view it;
         it_view_params := it_view_params it;
         stop_callback := sf; stop_callback_args := args |}
  | _ => it
  end.

End CycleVocabulary.

Section FailureVocabulary.
Context {W : Type} `{World W}.
Import AbstractRunActor.

(** The state of a cycle whose save was accepted at once, before the
    post-task hook has returned: the counter is as the cycle found it. *)
Definition cycle_saved (st : State W) (task task1 : Task)
    (sp : option Popen) (w : W) : State W :=
  {| actor := set_current_task (Some task1) (set_subprocess sp (actor st));
     world := w;
     trace := trace st ++ [EvPrepareRun; EvProcess task;
                           EvSave task1 (Ok tt); EvCleanupRun];
     logged := logged st |}.

(** The task object as the handler leaves it. *)
Definition handled_task (reset : option (Z * Z)) (task : Task) : Task :=
  match reset with
  | Some (lock, done) => reset_task lock done task
  | None => task
  end.

(** The state in which [run] is left when the pre-run hook raises: the
    timer is started, [events] are on the trace and [msgs] in the log. *)
Definition not_prepared (st : State W) (now : float) (w : W)
    (events : list Event) (msgs : list string) : State W :=
  {| actor := set_time (Some {| t := now |}) (actor st);
     world := w;
     trace := trace st ++ events;
     logged := logged st ++ msgs |}.
End FailureVocabulary.

Definition is_install (ev : Event) : bool :=
  match ev with EvSignalHandler _ => true | _ => false end.

Definition not_install (ev : Event) : bool := negb (is_install ev).

Section PrologueVocabulary.
Context {W : Type} `{World W}.

(** The trace of [st'] continues the trace of [st], and no signal handler
    is installed in between. *)
Definition continues (st st' : State W) : Prop :=
  exists evs, trace st' = trace st ++ evs /\ count is_install evs = 0%nat.
End PrologueVocabulary.

Definition is_accepted_save (ev : Event) : bool :=
  match ev with EvSave _ (Ok _) => true | _ => false end.

Section PersistVocabulary.
Context {W : Type} `{World W}.

(** Between [st] and [st'] the counter has not grown by more than the
    number of saves the store accepted. *)
Definition saved_before_counted (st st' : State W) : Prop :=
  tasks_processed (actor st')
  + Z.of_nat (count is_accepted_save (trace st))
  <= tasks_processed (actor st)
     + Z.of_nat (count is_accepted_save (trace st')).
End PersistVocabulary.

(** ** Further scenarios *)

Definition with_prepare_env (l : list (result unit)) (w : Script) : Script :=
  {| sc_tasks := sc_tasks w; sc_process := sc_process w;
     sc_saves := sc_saves w; sc_gets := sc_gets w;
     sc_prepare_env := l;
     sc_prepare_run := sc_prepare_run w; sc_cleanup_run := sc_cleanup_run w;
     sc_cleanup_env := sc_cleanup_env w; sc_stop := sc_stop w;
     sc_clock := sc_clock w; sc_poll := sc_poll w;
     sc_communicate := sc_communicate w; sc_stored := sc_stored w |}.

Definition with_prepare_run (l : list (result unit)) (w : Script) : Script :=
  {| sc_tasks := sc_tasks w; sc_process := sc_process w;
     sc_saves := sc_saves w; sc_gets := sc_gets w;
     sc_prepare_env := sc_prepare_env w;
     sc_prepare_run := l; sc_cleanup_run := sc_cleanup_run w;
     sc_cleanup_env := sc_cleanup_env w; sc_stop := sc_stop w;
     sc_clock := sc_clock w; sc_poll := sc_poll w;
     sc_communicate := sc_communicate w; sc_stored := sc_stored w |}.

Definition with_cleanup_run (l : list (result unit)) (w : Script) : Script :=
  {| sc_tasks := sc_tasks w; sc_process := sc_process w;
     sc_saves := sc_saves w; sc_gets := sc_gets w;
     sc_prepare_env := sc_prepare_env w;
     sc_prepare_run := sc_prepare_run w; sc_cleanup_run := l;
     sc_cleanup_env := sc_cleanup_env w; sc_stop := sc_stop w;
     sc_clock := sc_clock w; sc_poll := sc_poll w;
     sc_communicate := sc_communicate w; sc_stored := sc_stored w |}.

(** Two tasks under the loop of the abstract class. *)
Definition two_tasks_abstract_run : outcome unit * State Script :=
  Eval vm_compute in AbstractRunActor.run 5 (start two_tasks).

(** The user interrupts the second of two tasks from the keyboard, in a
    process that has not installed the actor's handler for it. *)
Definition keyboard_interrupt : PyExn :=
  {| exn_class := KeyboardInterrupt; exn_str := "" |}.

Definition aborted : Script :=
  with_tasks [Yield (token "a"); Yield (token "b")]
    (with_process
       [fun task => {| po_task := task; po_subprocess := None;
                       po_end := PReturn |};
        fun task => {| po_task := task; po_subprocess := None;
                       po_end := PRaise keyboard_interrupt |}] quiet).

Definition aborted_loop : outcome unit * State Script :=
  Eval vm_compute in
    RunActor.run_loop 5 None 0%float 0 None [] (start aborted).

(** The state in which the cycle of task [b] starts. *)
Definition aborted_cycle : State Script :=
  Eval vm_compute in
    snd (AbstractRunActor.next_task
           (clear_current_task
              (snd (AbstractRunActor._run 1 (token "a")
                      (snd (AbstractRunActor.next_task (start aborted))))))).

(** A SIGTERM arrives while task [a] is processed, and the store answers
    the handler's save with a write conflict. *)
Definition shutdown_conflict : Script :=
  with_tasks [Yield (token "a"); Yield (token "b")]
    (with_process
       [fun task => {| po_task := task; po_subprocess := None;
                       po_end := PSignal SIGTERM |}]
       (with_saves [Raise conflict] quiet)).

Definition shutdown_conflict_cycle : State Script :=
  Eval vm_compute in
    snd (AbstractRunActor.next_task (start shutdown_conflict)).

Definition shutdown_conflict_world : Script :=
  Eval vm_compute in
    snd (process_task (token "a")
           (snd (prepare_run (world shutdown_conflict_cycle)))).

Definition shutdown_conflict_run : outcome unit * State Script :=
  Eval vm_compute in
    RunActor.run 5 None 0%float 0 None [] (start shutdown_conflict).

(** The pre-run hook fails. *)
Definition setup_error : PyExn :=
  {| exn_class := OtherException "OSError"; exn_str := "no scratch space" |}.

Definition unprepared : Script :=
  with_prepare_env [Raise setup_error] two_tasks.

(** An actor over an [EndlessViewIterator] that carries a stop callback
    from an earlier run. *)
Definition endless : State Script :=
  {| actor :=
       set_iterator
         {| it_class := EndlessViewIterator; it_view := "todo";
            it_view_params := [];
            stop_callback := Some {| sf_name := "out_of_budget" |};
            stop_callback_args := [("budget", "10")] |}
         fresh_actor;
     world := two_tasks; trace := []; logged := [] |}.

(** Token fields and the fields a worker reports. *)
Definition token_fields : Dict string :=
  [("lock", "0"); ("done", "0"); ("input", "a")].

Definition worker_fields : Dict string :=
  [("hostname", "node1"); ("lock", "1700000000")].

Definition result_fields : Dict string :=
  [("done", "1700000100"); ("exit_code", "0")].

(** A storage client that answers the downloads from a script; a script
    that is used up lets the download succeed. *)
#[export] Instance Scripted_SRM : SRM (list (result unit)) :=
  {| srm_download := fun _ answers => next_answer (Ok tt) answers |}.

Definition unreachable : PyExn :=
  {| exn_class := OtherException "OSError"; exn_str := "host unreachable" |}.

(** Three files in the queue; the download of the second fails. *)
Definition three_files : DownloaderState (list (result unit)) :=
  {| q := ["srm://a"; "srm://b"; "srm://c"]; unfinished_tasks := 3;
     srm := [Ok tt; Raise unreachable]; calls := [] |}.

(** One task, and a store that answers two saves with a write conflict. *)
Definition contended : Script :=
  with_tasks [Yield (token "a")] two_conflicts.

Definition contended_cycle : State Script :=
  Eval vm_compute in snd (AbstractRunActor.next_task (start contended)).

Definition contended_done : State Script :=
  Eval vm_compute in
    snd (AbstractRunActor._run 3 (token "a") contended_cycle).

Section ShutdownVocabulary.
Context {W : Type} `{World W}.

(** The world after the handler's calls to the tracked subprocess. *)
Definition after_subprocess_calls (a : Actor) (w : W) : W :=
  match subprocess a with
  | None => w
  | Some p =>
      match Popen_poll p w with
      | (Some _, w1) => w1
      | (None, w1) =>
          match Popen_communicate_timeout p 30 (Popen_terminate p w1) with
          | (true, w2) => w2
          | (false, w2) => Popen_communicate p (Popen_kill p w2)
          end
      end
  end.

(** The revert step of the handler in world [w], when it does not raise:
    the save it records, if it makes one, and the world it leaves. *)
Definition reverted (a : Actor) (w : W) : option (list Event * W) :=
  match current_task a, token_reset_values a with
  | Some task, Some (lock, done) =>
      match db_save (db a) (reset_task lock done task) w with
      | (Ok u, w') => Some ([EvSave (reset_task lock done task) (Ok u)], w')
      | (Raise _, _) => None
      end
  | _, _ => Some ([], w)
  end.
End ShutdownVocabulary.

(** A SIGTERM arrives while task [a] is processed; the teardown hook
    returns when the handler calls it and raises when [run] calls it
    again. *)
Definition disk_error : PyExn :=
  {| exn_class := OtherException "FileNotFoundError";
     exn_str := "scratch directory is gone" |}.

Definition teardown_fails_later : Script :=
  with_tasks [Yield (token "a"); Yield (token "b")]
    (with_process
       [fun task => {| po_task := task; po_subprocess := None;
                       po_end := PSignal SIGTERM |}]
       (with_cleanup_env [Ok tt; Raise disk_error] quiet)).

Definition teardown_fails_later_run : outcome unit * State Script :=
  Eval vm_compute in
    RunActor.run 5 None 0%float 0 None [] (start teardown_fails_later).

(** * Properties *)

Lemma count_app (p : Event -> bool) (l1 l2 : list Event) :
  count p (l1 ++ l2) = (count p l1 + count p l2)%nat.
Proof. unfold count. rewrite filter_app, length_app. reflexivity. Qed.

Ltac unfold_monad :=
  unfold call_db_save, call_db_get, call_hook, exit in *;
  unfold bind, ret, raise, diverge, emit, log_info, ext, ext_result,
    get_actor, modify_actor, try_except, try_finally in *.

Ltac destruct_match :=
  match goal with
  | |- context [match ?x with _ => _ end] =>
      lazymatch x with
      | context [match _ with _ => _ end] => fail
      | _ => destruct x eqn:?
      end
  end.

(** ** The constructor *)

(** C10: constructing an actor without a database raises [ValueError], and
    nothing of the object is built; with a database the constructor succeeds
    and the new actor has no current task, no tracked subprocess and has
    processed no task. *)
Theorem init_requires_database :
  forall (iterator : option Iterator) (view : string)
         (reset : option (Z * Z)) (view_params : Kwargs),
    (exists e,
        AbstractRunActor.__init__ None iterator view reset view_params
        = Raise e
        /\ exn_class e = ValueError)
    /\ (forall d : Database,
           exists a,
             AbstractRunActor.__init__ (Some d) iterator view reset
               view_params = Ok a
             /\ db a = d
             /\ token_reset_values a = reset
             /\ current_task a = None
             /\ subprocess a = None
             /\ tasks_processed a = 0).
Proof.
  intros iterator view reset view_params. split.
  - eexists. split; reflexivity.
  - intros d. eexists. repeat split.
Qed.

(** ** The shutdown handler *)

Section Handler.
Context {W : Type} `{World W}.
Import AbstractRunActor.


Lemma handler_shape (s : Signal) (st : State W) :
  exists revert final,
    trace (snd (handler s st))
    = trace st ++ [EvSignal s] ++ subprocess_calls (actor st) (world st)
        ++ revert ++ final
    /\ match current_task (actor st), token_reset_values (actor st) with
       | Some task, Some (lock, done) =>
           exists r, revert = [EvSave (reset_task lock done task) r]
       | _, _ => revert = []
       end
    /\ ((exists task e, revert = [EvSave task (Raise e)] /\ final = []
                        /\ fst (handler s st) = Exc e)
        \/ ((forall task e, revert <> [EvSave task (Raise e)])
            /\ ((final = [EvCleanupEnv; EvExit 0]
                 /\ fst (handler s st) = Exc system_exit_0)
                \/ (exists e, final = [EvCleanupEnv]
                              /\ fst (handler s st) = Exc e)))).
Proof.
  unfold handler, subprocess_calls. unfold_monad. simpl.
  repeat (destruct_match; simpl); rewrite <- ?app_assoc; simpl.
  all: first
    [ match goal with
      | |- context [EvSave ?task ?r :: ?rest] =>
          exists [EvSave task r], rest
      end
    | match goal with
      | |- context [EvCleanupEnv :: ?rest] =>
          exists [], (EvCleanupEnv :: rest)
      end
    | exists [], [] ].
  all: split; [reflexivity|].
  all: split; [first [reflexivity | eexists; reflexivity]|].
  all: try (left; do 2 eexists; repeat split; reflexivity).
  all: right; (split; [intros; congruence|]).
  all: first [left; split; reflexivity | right; eexists; split; reflexivity].
Qed.
End Handler.

(** ** The save loop of a task cycle *)

Section SaveLoop.
Context {W : Type} `{World W}.
Import AbstractRunActor.


(** One attempt of the loop, by the answer of the store. *)
Lemma save_loop_ok fuel task st task0 w :
  current_task (actor st) = Some task0 ->
  db_save (db (actor st)) task0 (world st) = (Ok tt, w) ->
  save_loop (S fuel) task st
  = (Ret tt, add_event (EvSave task0 (Ok tt)) (set_world w st)).
Proof.
  intros Hc Hs. simpl. unfold the_task. unfold_monad. simpl.
  rewrite Hc, Hs. reflexivity.
Qed.

Lemma save_loop_error fuel task st task0 e w :
  current_task (actor st) = Some task0 ->
  db_save (db (actor st)) task0 (world st) = (Raise e, w) ->
  is_ResourceConflict (exn_class e) = false ->
  save_loop (S fuel) task st
  = (Exc e, add_event (EvSave task0 (Raise e)) (set_world w st)).
Proof.
  intros Hc Hs He. simpl. unfold the_task. unfold_monad. simpl.
  rewrite Hc, Hs. simpl. rewrite He. reflexivity.
Qed.

Lemma save_loop_conflict fuel task st task0 e w new_task w' :
  current_task (actor st) = Some task0 ->
  db_save (db (actor st)) task0 (world st) = (Raise e, w) ->
  is_ResourceConflict (exn_class e) = true ->
  db_get (db (actor st)) (task_id task0) w = (Ok new_task, w') ->
  save_loop (S fuel) task st
  = save_loop fuel task (after_conflict st task0 e new_task w').
Proof.
  intros Hc Hs He Hg. simpl. unfold the_task, update_task. unfold_monad.
  simpl. rewrite Hc, Hs. simpl. rewrite He. simpl. rewrite Hc, Hg. simpl.
  rewrite Hc. simpl. unfold after_conflict, add_event, set_actor, set_world.
  simpl. rewrite <- app_assoc. reflexivity.
Qed.

Lemma save_loop_refetch_fails fuel task st task0 e w e' w' :
  current_task (actor st) = Some task0 ->
  db_save (db (actor st)) task0 (world st) = (Raise e, w) ->
  is_ResourceConflict (exn_class e) = true ->
  db_get (db (actor st)) (task_id task0) w = (Raise e', w') ->
  save_loop (S fuel) task st
  = (Exc e',
     set_world w'
       (add_event (EvGet (task_id task0))
          (add_event (EvSave task0 (Raise e)) (set_world w st)))).
Proof.
  intros Hc Hs He Hg. simpl. unfold the_task, update_task. unfold_monad.
  simpl. rewrite Hc, Hs. simpl. rewrite He. simpl. rewrite Hc, Hg.
  reflexivity.
Qed.


(** The loop follows the store through any number of conflicts. *)
Lemma save_loop_after_conflicts n :
  forall fuel task st task0 task1 w1,
    current_task (actor st) = Some task0 ->
    after_conflicts n (db (actor st)) task0 (world st) = Some (task1, w1) ->
    exists st1,
      save_loop (n + fuel) task st = save_loop fuel task st1
      /\ db (actor st1) = db (actor st)
      /\ tasks_processed (actor st1) = tasks_processed (actor st)
      /\ current_task (actor st1) = Some task1
      /\ world st1 = w1
      /\ logged st1 = logged st
      /\ (exists evs, trace st1 = trace st ++ evs
                      /\ count is_save evs = n /\ count is_get evs = n
                      /\ Forall (fun ev => is_save ev = true
                                           \/ is_get ev = true) evs).
Proof.
  induction n as [|n IH]; intros fuel task st task0 task1 w1 Hc Ha.
  - simpl in Ha. injection Ha as <- <-. exists st. simpl.
    repeat split; auto. exists []. rewrite app_nil_r. repeat split; auto.
  - simpl in Ha.
    destruct (db_save (db (actor st)) task0 (world st)) as [[[]|e] w] eqn:Hs;
      try discriminate.
    destruct (is_ResourceConflict (exn_class e)) eqn:He; try discriminate.
    destruct (db_get (db (actor st)) (task_id task0) w)
      as [[new_task|e'] w'] eqn:Hg; try discriminate.
    change (S n + fuel)%nat with (S (n + fuel)).
    rewrite (save_loop_conflict _ _ _ _ _ _ _ _ Hc Hs He Hg).
    destruct (IH fuel task (after_conflict st task0 e new_task w')
                (set_rev (task_rev new_task) task0) task1 w1)
      as (st1 & Heq & Hdb & Htp & Hcur & Hw & Hlog & evs & Htr & Hsv & Hgt & Hall);
      [reflexivity | exact Ha |].
    exists st1. repeat split; auto.
    exists ([EvSave task0 (Raise e); EvGet (task_id task0)] ++ evs).
    split; [|split; [|split]].
    + rewrite Htr. simpl. rewrite <- app_assoc. reflexivity.
    + rewrite count_app, Hsv. reflexivity.
    + rewrite count_app, Hgt. reflexivity.
    + constructor; [left; reflexivity|]. constructor; [right; reflexivity|].
      exact Hall.
Qed.
End SaveLoop.

Ltac destruct_match_in H :=
  match type of H with
  | context [match ?x with _ => _ end] =>
      lazymatch x with
      | context [match _ with _ => _ end] => fail
      | _ => destruct x eqn:?
      end
  end.

Section SaveLoopClaims.
Context {W : Type} `{World W}.
Import AbstractRunActor.

Lemma save_loop_returns_after_save fuel :
  forall task st st',
    save_loop fuel task st = (Ret tt, st') ->
    exists evs task', trace st' = trace st ++ evs ++ [EvSave task' (Ok tt)].
Proof.
  induction fuel as [|fuel IH]; intros task st st' Hr; simpl in Hr.
  - discriminate.
  - unfold the_task, update_task in Hr. unfold_monad. simpl in Hr.
    repeat (destruct_match_in Hr; simpl in Hr; try discriminate).
    all: first
      [ apply IH in Hr; destruct Hr as (evs & task' & ->); simpl;
        rewrite <- !app_assoc; simpl;
        match goal with
        | |- context [_ ++ ?a :: ?b :: ?l ++ _] =>
            exists (a :: b :: l), task'; reflexivity
        end
      | injection Hr as <-; simpl;
        match goal with a : unit |- _ => destruct a end;
        exists []; eexists; reflexivity ].
Qed.

Lemma same_but_rev_refl task : same_but_rev task task.
Proof. repeat split. Qed.

Lemma save_loop_frame fuel :
  forall task st task0 r st',
    current_task (actor st) = Some task0 ->
    save_loop fuel task st = (r, st') ->
    (exists task1,
        current_task (actor st') = Some task1 /\ same_but_rev task0 task1)
    /\ (exists evs,
           trace st' = trace st ++ evs
           /\ (forall task1 r1,
                  In (EvSave task1 r1) evs -> same_but_rev task0 task1)).
Proof.
  induction fuel as [|fuel IH]; intros task st task0 r st' Hc Hr.
  - simpl in Hr. injection Hr as <- <-. split.
    + exists task0. split; [exact Hc | apply same_but_rev_refl].
    + exists []. rewrite app_nil_r. split; [reflexivity | intros ? ? []].
  - destruct (db_save (db (actor st)) task0 (world st)) as [[[]|e] w] eqn:Hs.
    + rewrite (save_loop_ok _ _ _ _ _ Hc Hs) in Hr. injection Hr as <- <-.
      split.
      * exists task0. split; [exact Hc | apply same_but_rev_refl].
      * exists [EvSave task0 (Ok tt)]. split; [reflexivity|].
        intros task1 r1 [Hin|[]]. injection Hin as <- _.
        apply same_but_rev_refl.
    + destruct (is_ResourceConflict (exn_class e)) eqn:He.
      * destruct (db_get (db (actor st)) (task_id task0) w)
          as [[new_task|e'] w'] eqn:Hg.
        -- rewrite (save_loop_conflict _ _ _ _ _ _ _ _ Hc Hs He Hg) in Hr.
           destruct (IH task (after_conflict st task0 e new_task w')
                       (set_rev (task_rev new_task) task0) r st'
                       eq_refl Hr) as [(task1 & Hc1 & Hsame) (evs & Htr & Hev)].
           split.
           ++ exists task1. split; [exact Hc1 | exact Hsame].
           ++ exists ([EvSave task0 (Raise e); EvGet (task_id task0)] ++ evs).
              split.
              ** rewrite Htr. simpl. rewrite <- app_assoc. reflexivity.
              ** intros task2 r2 [Hin|[Hin|Hin]].
                 --- injection Hin as <- _. apply same_but_rev_refl.
                 --- discriminate.
                 --- exact (Hev _ _ Hin).
        -- rewrite (save_loop_refetch_fails _ _ _ _ _ _ _ _ Hc Hs He Hg) in Hr.
           injection Hr as <- <-. split.
           ++ exists task0. split; [exact Hc | apply same_but_rev_refl].
           ++ exists [EvSave task0 (Raise e); EvGet (task_id task0)].
              split; [simpl; rewrite <- app_assoc; reflexivity|].
              intros task1 r1 [Hin|[Hin|[]]]; [|discriminate].
              injection Hin as <- _. apply same_but_rev_refl.
      * rewrite (save_loop_error _ _ _ _ _ _ Hc Hs He) in Hr.
        injection Hr as <- <-. split.
        -- exists task0. split; [exact Hc | apply same_but_rev_refl].
        -- exists [EvSave task0 (Raise e)]. split; [reflexivity|].
           intros task1 r1 [Hin|[]]. injection Hin as <- _.
           apply same_but_rev_refl.
Qed.
End SaveLoopClaims.

Section SaveClaims.
Context {W : Type} `{World W}.
Import AbstractRunActor.

Lemma save_loop_keeps_retrying fuel :
  forall task (st : State W) task0,
    always_conflicts (db (actor st)) ->
    current_task (actor st) = Some task0 ->
    fst (save_loop fuel task st) = Diverge
    /\ count is_save (trace (snd (save_loop fuel task st)))
       = (count is_save (trace st) + fuel)%nat.
Proof.
  induction fuel as [|fuel IH]; intros task st task0 Hall Hc.
  - simpl. split; [reflexivity | lia].
  - destruct (Hall task0 (world st)) as (e & w1 & new_task & w2 & Hs & He & Hg).
    rewrite (save_loop_conflict _ _ _ _ _ _ _ _ Hc Hs He Hg).
    destruct (IH task (after_conflict st task0 e new_task w2)
                (set_rev (task_rev new_task) task0) Hall eq_refl)
      as [Hd Hn].
    split; [exact Hd|]. rewrite Hn. simpl. rewrite count_app.
    unfold count at 2. simpl. lia.
Qed.

(** C3: the save loop of a task cycle returns only after the store has
    accepted a save.  However many write conflicts the store answers with,
    the loop re-fetches and saves again after each of them; the first
    error that is not a write conflict (from the save, or from the
    re-fetch) ends the loop at once and leaves it as an exception.
    Against a store that never stops answering with a conflict the loop
    never ends: it has made as many saves as it was given iterations. *)
Theorem save_retries_on_conflict_only :
  (forall fuel task (st st' : State W),
      save_loop fuel task st = (Ret tt, st') ->
      exists evs task',
        trace st' = trace st ++ evs ++ [EvSave task' (Ok tt)])
  /\ (forall n fuel task (st : State W) task0 task1 w1,
         current_task (actor st) = Some task0 ->
         after_conflicts n (db (actor st)) task0 (world st)
         = Some (task1, w1) ->
         (n < fuel)%nat ->
         (forall w2,
             db_save (db (actor st)) task1 w1 = (Ok tt, w2) ->
             exists st',
               save_loop fuel task st = (Ret tt, st')
               /\ world st' = w2
               /\ count is_save (trace st')
                  = (count is_save (trace st) + n + 1)%nat
               /\ count is_get (trace st')
                  = (count is_get (trace st) + n)%nat)
         /\ (forall e w2,
                db_save (db (actor st)) task1 w1 = (Raise e, w2) ->
                is_ResourceConflict (exn_class e) = false ->
                exists st',
                  save_loop fuel task st = (Exc e, st')
                  /\ world st' = w2
                  /\ count is_save (trace st')
                     = (count is_save (trace st) + n + 1)%nat)
         /\ (forall e w2 e' w3,
                db_save (db (actor st)) task1 w1 = (Raise e, w2) ->
                is_ResourceConflict (exn_class e) = true ->
                db_get (db (actor st)) (task_id task1) w2
                = (Raise e', w3) ->
                exists st',
                  save_loop fuel task st = (Exc e', st')
                  /\ world st' = w3
                  /\ count is_save (trace st')
                     = (count is_save (trace st) + n + 1)%nat))
  /\ (forall fuel task (st : State W) task0,
         always_conflicts (db (actor st)) ->
         current_task (actor st) = Some task0 ->
         fst (save_loop fuel task st) = Diverge
         /\ count is_save (trace (snd (save_loop fuel task st)))
            = (count is_save (trace st) + fuel)%nat).
Proof.
  split; [intros fuel task st st'; apply save_loop_returns_after_save|].
  split; [|intros fuel task st task0; apply save_loop_keeps_retrying].
  intros n fuel task st task0 task1 w1 Hc Ha Hlt.
  destruct (save_loop_after_conflicts n (S (fuel - n - 1)) task st task0
              task1 w1 Hc Ha)
    as (st1 & Heq & Hdb & _ & Hc1 & Hw & _ & evs & Htr & Hsv & Hgt & _).
  assert (Hfuel : fuel = (n + S (fuel - n - 1))%nat) by lia.
  rewrite <- Hfuel in Heq. clear Hfuel.
  rewrite Heq. subst w1. rewrite <- Hdb.
  split; [|split].
  - intros w2 Hs. rewrite (save_loop_ok _ _ _ _ _ Hc1 Hs).
    eexists. split; [reflexivity|]. simpl. rewrite Htr.
    rewrite !count_app, Hsv, Hgt. unfold count. simpl. repeat split; lia.
  - intros e w2 Hs He. rewrite (save_loop_error _ _ _ _ _ _ Hc1 Hs He).
    eexists. split; [reflexivity|]. simpl. rewrite Htr.
    rewrite !count_app, Hsv. unfold count. simpl. repeat split; lia.
  - intros e w2 e' w3 Hs He Hg.
    rewrite (save_loop_refetch_fails _ _ _ _ _ _ _ _ Hc1 Hs He Hg).
    eexists. split; [reflexivity|]. simpl. rewrite Htr.
    rewrite !count_app, Hsv. unfold count. simpl. repeat split; lia.
Qed.

Lemma save_loop_first fuel task (st : State W) task0 :
  current_task (actor st) = Some task0 ->
  exists r rest,
    trace (snd (save_loop (S fuel) task st))
    = trace st ++ [EvSave task0 r] ++ rest.
Proof.
  intros Hc.
  destruct (db_save (db (actor st)) task0 (world st)) as [[[]|e] w] eqn:Hs.
  - rewrite (save_loop_ok _ _ _ _ _ Hc Hs). exists (Ok tt), []. reflexivity.
  - destruct (is_ResourceConflict (exn_class e)) eqn:He.
    + destruct (db_get (db (actor st)) (task_id task0) w)
        as [[new_task|e'] w'] eqn:Hg.
      * rewrite (save_loop_conflict _ _ _ _ _ _ _ _ Hc Hs He Hg).
        destruct (save_loop fuel task (after_conflict st task0 e new_task w'))
          as [r st'] eqn:Hloop.
        destruct (save_loop_frame fuel task
                    (after_conflict st task0 e new_task w')
                    (set_rev (task_rev new_task) task0) r st' eq_refl Hloop)
          as (_ & evs & Htr & _).
        exists (Raise e), (EvGet (task_id task0) :: evs). simpl in Htr |- *.
        rewrite Htr, <- app_assoc. reflexivity.
      * rewrite (save_loop_refetch_fails _ _ _ _ _ _ _ _ Hc Hs He Hg).
        exists (Raise e), [EvGet (task_id task0)]. simpl.
        rewrite <- app_assoc. reflexivity.
    + rewrite (save_loop_error _ _ _ _ _ _ Hc Hs He).
      exists (Raise e), []. reflexivity.
Qed.

(** C4: on a write conflict the loop fetches the task by its id and goes
    into the next attempt with the revision token of the fetched document
    written into its own task: the task it holds then has that token in
    its revision field and its own values in every other field, nothing
    else of the fetched document being used, and the next call to the
    store is a save of exactly that task.  Through the whole loop every
    save is made with the field values the task had when the loop began,
    the revision token apart, and so is the save that the store finally
    accepts. *)
Theorem conflict_overwrites_only_revision :
  (forall fuel task (st : State W) task0 e w new_task w',
      current_task (actor st) = Some task0 ->
      db_save (db (actor st)) task0 (world st) = (Raise e, w) ->
      is_ResourceConflict (exn_class e) = true ->
      db_get (db (actor st)) (task_id task0) w = (Ok new_task, w') ->
      save_loop (S fuel) task st
      = save_loop fuel task (after_conflict st task0 e new_task w')
      /\ current_task (actor (after_conflict st task0 e new_task w'))
         = Some (set_rev (task_rev new_task) task0)
      /\ same_but_rev task0 (set_rev (task_rev new_task) task0)
      /\ exists task1,
           current_task (actor (after_conflict st task0 e new_task w'))
           = Some task1
           /\ task_rev task1 = task_rev new_task
           /\ same_but_rev task0 task1
           /\ (exists r rest,
                  trace (snd (save_loop (S (S fuel)) task st))
                  = trace st
                      ++ [EvSave task0 (Raise e); EvGet (task_id task0);
                          EvSave task1 r] ++ rest)
           /\ (forall w'',
                  db_save (db (actor st)) task1 w' = (Ok tt, w'') ->
                  fst (save_loop (S (S fuel)) task st) = Ret tt
                  /\ trace (snd (save_loop (S (S fuel)) task st))
                     = trace st
                         ++ [EvSave task0 (Raise e); EvGet (task_id task0);
                             EvSave task1 (Ok tt)]
                  /\ current_task
                       (actor (snd (save_loop (S (S fuel)) task st)))
                     = Some task1))
  /\ (forall fuel task (st : State W) task0 r st',
         current_task (actor st) = Some task0 ->
         save_loop fuel task st = (r, st') ->
         (exists task1,
             current_task (actor st') = Some task1
             /\ same_but_rev task0 task1)
         /\ (exists evs,
                trace st' = trace st ++ evs
                /\ (forall task1 r1,
                       In (EvSave task1 r1) evs ->
                       same_but_rev task0 task1))
         /\ (r = Ret tt ->
             exists evs task1,
               trace st' = trace st ++ evs ++ [EvSave task1 (Ok tt)]
               /\ same_but_rev task0 task1)).
Proof.
  split.
  - intros fuel task st task0 e w new_task w' Hc Hs He Hg.
    split; [exact (save_loop_conflict _ _ _ _ _ _ _ _ Hc Hs He Hg)|].
    split; [reflexivity|]. split; [repeat split|].
    exists (set_rev (task_rev new_task) task0).
    split; [reflexivity|]. split; [reflexivity|]. split; [repeat split|].
    rewrite (save_loop_conflict (S fuel) _ _ _ _ _ _ _ Hc Hs He Hg).
    split.
    + destruct (save_loop_first fuel task
                  (after_conflict st task0 e new_task w')
                  (set_rev (task_rev new_task) task0) eq_refl)
        as (r & rest & Htr).
      exists r, rest. rewrite Htr. simpl. rewrite <- app_assoc. reflexivity.
    + intros w'' Hs'.
      rewrite (save_loop_ok fuel task _ (set_rev (task_rev new_task) task0)
                 w''); [|reflexivity | exact Hs'].
      simpl. rewrite <- app_assoc. repeat split.
  - intros fuel task st task0 r st' Hc Hr.
    destruct (save_loop_frame fuel task st task0 r st' Hc Hr)
      as [Hcur (evs & Htr & Hev)].
    split; [exact Hcur|]. split; [exists evs; auto|].
    intros ->. destruct (save_loop_returns_after_save _ _ _ _ Hr)
      as (evs' & task1 & Htr').
    exists evs', task1. split; [exact Htr'|].
    rewrite Htr in Htr'. apply app_inv_head in Htr'. subst evs.
    apply (Hev task1 (Ok tt)). apply in_or_app. right. left. reflexivity.
Qed.
End SaveClaims.

(** The store answers the first two saves of task [a] with a conflict: the
    third save is accepted. *)
Lemma save_retries_on_conflict_only_witness :
  exists st',
    AbstractRunActor.save_loop 3 (token "a")
      (holding (token "a") two_conflicts) = (Ret tt, st')
    /\ count is_save (trace st') = 3%nat
    /\ count is_get (trace st') = 2%nat.
Proof.
  destruct (@save_retries_on_conflict_only Script _) as (_ & Hretry & _).
  destruct (Hretry 2%nat 3%nat (token "a")
              (holding (token "a") two_conflicts) (token "a")
              two_conflicts_task two_conflicts_world) as [Hok _].
  - reflexivity.
  - vm_compute. reflexivity.
  - lia.
  - destruct (Hok two_conflicts_saved) as (st' & Hr & _ & Hs & Hg).
    + vm_compute. reflexivity.
    + exists st'. split; [exact Hr|]. split; [exact Hs | exact Hg].
Defined.

(** With the same store, the accepted document has the worker's fields and
    not those of the monitoring process. *)
Lemma conflict_overwrites_only_revision_witness :
  (exists task1,
      current_task
        (actor (after_conflict (holding (token "a") two_conflicts)
                  (token "a") conflict (monitored "a" "2-b")
                  (snd (db_get picas_db "a"
                          (snd (db_save picas_db (token "a")
                                  two_conflicts))))))
      = Some task1
      /\ task_rev task1 = "2-b"
      /\ task_payload task1 = [("input", "a")])
  /\ exists evs task1,
       AbstractRunActor.save_loop 3 (token "a")
         (holding (token "a") two_conflicts) = (Ret tt, two_conflicts_end)
       /\ trace two_conflicts_end = evs ++ [EvSave task1 (Ok tt)]
       /\ task_payload task1 = [("input", "a")]
       /\ task_rev task1 = "3-c".
Proof.
  assert (Hrun : AbstractRunActor.save_loop 3 (token "a")
                   (holding (token "a") two_conflicts)
                 = (Ret tt, two_conflicts_end)) by (vm_compute; reflexivity).
  destruct (@conflict_overwrites_only_revision Script _) as [Hstep Hframe].
  split.
  - unshelve epose proof
      (Hstep 1%nat (token "a") (holding (token "a") two_conflicts)
         (token "a") conflict
         (snd (db_save picas_db (token "a") two_conflicts))
         (monitored "a" "2-b")
         (snd (db_get picas_db "a"
                 (snd (db_save picas_db (token "a") two_conflicts))))
         _ _ _ _) as Hfirst;
      [vm_compute; reflexivity .. |].
    destruct Hfirst as (_ & _ & _ & task1 & Hcur & Hrev & Hsame & _).
    exists task1. split; [exact Hcur|]. split; [exact Hrev|].
    destruct Hsame as (_ & _ & _ & Hp & _). exact Hp.
  - destruct (Hframe 3%nat (token "a") (holding (token "a") two_conflicts)
                (token "a") (Ret tt) two_conflicts_end eq_refl Hrun)
      as (_ & _ & Hlast).
    destruct (Hlast eq_refl) as (evs & task1 & Htr & Hsame).
    exists evs, task1. split; [exact Hrun|]. split; [exact Htr|].
    split; [destruct Hsame as (_ & _ & _ & Hp & _); exact Hp|].
    assert (Hend : trace two_conflicts_end
                   = removelast (trace two_conflicts_end)
                       ++ [EvSave two_conflicts_task (Ok tt)])
      by (vm_compute; reflexivity).
    rewrite Hend in Htr. apply app_inj_tail in Htr.
    destruct Htr as [_ Heq]. injection Heq as <-. reflexivity.
Defined.

Section HandlerClaims.
Context {W : Type} `{World W}.
Import AbstractRunActor.

Lemma subprocess_calls_only (a : Actor) (w : W) :
  Forall (fun ev => is_subprocess_call ev = true) (subprocess_calls a w).
Proof.
  unfold subprocess_calls.
  repeat destruct_match; repeat constructor.
Qed.

Lemma subprocess_calls_no_save (a : Actor) (w : W) task r :
  ~ In (EvSave task r) (subprocess_calls a w).
Proof.
  intros Hin.
  pose proof (subprocess_calls_only a w) as Hall.
  rewrite Forall_forall in Hall. apply Hall in Hin. discriminate.
Qed.

(** C5: the handler saves a task exactly when there is a current task and
    the reset values are not [None]; it then saves once, and what it saves
    is the current task with the reset pair in its lock and done fields.
    With no current task, or with the reset disabled, it saves nothing. *)
Theorem handler_saves_iff_task_and_reset (s : Signal) (st : State W) :
  exists evs,
    trace (snd (handler s st)) = trace st ++ evs
    /\ ((exists task r, In (EvSave task r) evs)
        <-> (current_task (actor st) <> None
             /\ token_reset_values (actor st) <> None))
    /\ (forall task r,
           In (EvSave task r) evs ->
           exists task0 lock done,
             current_task (actor st) = Some task0
             /\ token_reset_values (actor st) = Some (lock, done)
             /\ task = reset_task lock done task0
             /\ task_lock task = lock /\ task_done task = done)
    /\ (count is_save evs <= 1)%nat.
Proof.
  destruct (handler_shape s st) as (revert & final & Htr & Hrev & Hfin).
  exists ([EvSignal s] ++ subprocess_calls (actor st) (world st)
            ++ revert ++ final).
  split; [exact Htr|].
  assert (Hfinal : forall task r, ~ In (EvSave task r) final).
  { intros task r Hin.
    destruct Hfin as [(? & ? & _ & -> & _)|[_ [[-> _]|(? & -> & _)]]];
      simpl in Hin; intuition discriminate. }
  assert (Hin_rev : forall task r,
             In (EvSave task r)
               ([EvSignal s] ++ subprocess_calls (actor st) (world st)
                  ++ revert ++ final) ->
             In (EvSave task r) revert).
  { intros task r Hin. simpl in Hin.
    destruct Hin as [Hin|Hin]; [discriminate|].
    apply in_app_or in Hin. destruct Hin as [Hin|Hin].
    - exfalso. exact (subprocess_calls_no_save _ _ _ _ Hin).
    - apply in_app_or in Hin. destruct Hin as [Hin|Hin]; [exact Hin|].
      exfalso. exact (Hfinal _ _ Hin). }
  assert (Hcount : count is_save
                     ([EvSignal s] ++ subprocess_calls (actor st) (world st)
                        ++ revert ++ final) = count is_save revert).
  { rewrite !count_app.
    assert (count is_save (subprocess_calls (actor st) (world st)) = 0%nat)
      as ->.
    { unfold subprocess_calls. repeat destruct_match; reflexivity. }
    assert (count is_save final = 0%nat) as ->.
    { destruct Hfin as [(? & ? & _ & -> & _)|[_ [[-> _]|(? & -> & _)]]];
        reflexivity. }
    unfold count at 1. simpl. lia. }
  rewrite Hcount.
  destruct (current_task (actor st)) as [task0|];
    [destruct (token_reset_values (actor st)) as [[lock done]|]|].
  - destruct Hrev as [r0 ->]. split; [split|split].
    + intros _. split; congruence.
    + intros _. exists (reset_task lock done task0), r0.
      simpl. right. apply in_or_app. right. left. reflexivity.
    + intros task r Hin. apply Hin_rev in Hin. destruct Hin as [Hin|[]].
      injection Hin as <- _. exists task0, lock, done. repeat split.
    + unfold count. simpl. lia.
  - subst revert. split; [split|split].
    + intros (task & r & Hin). apply Hin_rev in Hin. destruct Hin.
    + intros [_ Hn]. congruence.
    + intros task r Hin. apply Hin_rev in Hin. destruct Hin.
    + unfold count. simpl. lia.
  - subst revert. split; [split|split].
    + intros (task & r & Hin). apply Hin_rev in Hin. destruct Hin.
    + intros [Hn _]. congruence.
    + intros task r Hin. apply Hin_rev in Hin. destruct Hin.
    + unfold count. simpl. lia.
Qed.

(** The handler's dealings with the tracked subprocess never raise. *)
Lemma handler_subprocess_steps (st : State W) :
  exists msgs,
    (match subprocess (actor st) with
     | Some p =>
         rc <- (emit (EvPoll p) ;; ext (Popen_poll p)) ;;
         match rc with
         | None =>
             log_info "Terminating execution of token" ;;
             emit (EvTerminate p) ;;
             ext (fun w => (tt, Popen_terminate p w)) ;;
             exited <- (emit (EvCommunicate p (Some 30)) ;;
                        ext (Popen_communicate_timeout p 30)) ;;
             if exited : bool then ret tt
             else
               log_info "Killing subprocess" ;;
               emit (EvKill p) ;;
               ext (fun w => (tt, Popen_kill p w)) ;;
               emit (EvCommunicate p None) ;;
               ext (fun w => (tt, Popen_communicate p w))
         | Some _ => ret tt
         end
     | None => ret tt
     end) st
    = (Ret tt,
       {| actor := actor st;
          world := after_subprocess_calls (actor st) (world st);
          trace := trace st ++ subprocess_calls (actor st) (world st);
          logged := logged st ++ msgs |}).
Proof.
  unfold after_subprocess_calls, subprocess_calls.
  destruct st as [a w tr lg]. simpl.
  destruct (subprocess a) as [p|].
  - unfold_monad. simpl.
    destruct (Popen_poll p w) as [[rc|] w1]; simpl.
    + exists []. rewrite !app_nil_r. reflexivity.
    + destruct (Popen_communicate_timeout p 30 (Popen_terminate p w1))
        as [[|] w2];
        cbv [set_world add_event add_log world trace actor logged fst];
        rewrite <- ?app_assoc; cbn [app]; eexists; reflexivity.
  - exists []. unfold ret. rewrite !app_nil_r. reflexivity.
Qed.

Lemma handler_by_answers (s : Signal) (st : State W) :
  let a := actor st in
  let w1 := after_subprocess_calls a (world st) in
  let pre := trace st ++ [EvSignal s] ++ subprocess_calls a (world st) in
  match current_task a, token_reset_values a with
  | Some task, Some (lock, done) =>
      match db_save (db a) (reset_task lock done task) w1 with
      | (Raise e, _) =>
          fst (handler s st) = Exc e
          /\ trace (snd (handler s st))
             = pre ++ [EvSave (reset_task lock done task) (Raise e)]
      | (Ok u, w2) =>
          match cleanup_env w2 with
          | (Ok _, _) =>
              fst (handler s st) = Exc system_exit_0
              /\ trace (snd (handler s st))
                 = pre ++ [EvSave (reset_task lock done task) (Ok u)]
                     ++ [EvCleanupEnv; EvExit 0]
          | (Raise e, _) =>
              fst (handler s st) = Exc e
              /\ trace (snd (handler s st))
                 = pre ++ [EvSave (reset_task lock done task) (Ok u)]
                     ++ [EvCleanupEnv]
          end
      end
  | _, _ =>
      match cleanup_env w1 with
      | (Ok _, _) =>
          fst (handler s st) = Exc system_exit_0
          /\ trace (snd (handler s st)) = pre ++ [EvCleanupEnv; EvExit 0]
      | (Raise e, _) =>
          fst (handler s st) = Exc e
          /\ trace (snd (handler s st)) = pre ++ [EvCleanupEnv]
      end
  end.
Proof.
  intros a w1 pre. subst a w1 pre. destruct st as [a w tr lg].
  cbn [actor world trace logged].
  destruct (handler s _) as [r st'] eqn:Hh. simpl fst. simpl snd.
  unfold handler in Hh.
  unfold bind at 1 in Hh. unfold emit at 1 in Hh.
  unfold bind at 1 in Hh. unfold log_info at 1 in Hh.
  unfold bind at 1 in Hh. unfold get_actor at 1 in Hh.
  unfold bind at 1 in Hh.
  match type of Hh with
  | context [match subprocess _ with _ => _ end ?st0] =>
      destruct (handler_subprocess_steps st0) as (msgs & Hsub)
  end.
  rewrite Hsub in Hh. clear Hsub.
  cbv [set_world add_event add_log world trace actor logged] in Hh.
  unfold bind at 1 in Hh. unfold get_actor at 1 in Hh.
  cbv [actor] in Hh. unfold reset_task.
  destruct (current_task a) as [task|];
    [destruct (token_reset_values a) as [[lock done]|]|];
    unfold_monad; cbv [set_world add_event set_actor world trace actor] in Hh;
    cbn [db set_current_task] in Hh;
    repeat (destruct_match; try destruct_match_in Hh);
    injection Hh as <- <-; cbn [trace];
    rewrite <- ?app_assoc; split; reflexivity.
Qed.
Lemma finally_after_exit (body : M W unit) (st0 st1 : State W) ex :
  body st0 = (Exc ex, st1) ->
  (forall w,
      cleanup_env (world st1) = (Ok tt, w) ->
      try_finally body (call_hook EvCleanupEnv cleanup_env) st0
      = (Exc ex, set_world w (add_event EvCleanupEnv st1)))
  /\ (forall e w,
         cleanup_env (world st1) = (Raise e, w) ->
         try_finally body (call_hook EvCleanupEnv cleanup_env) st0
         = (Exc e, set_world w (add_event EvCleanupEnv st1))).
Proof.
  intros Hbody. unfold try_finally. rewrite Hbody.
  unfold call_hook. unfold_monad. simpl.
  split; [intros w Hclean | intros e w Hclean]; rewrite Hclean; reflexivity.
Qed.

(** C6 as the code has it: the handler's calls come in one order.  First
    the calls to the tracked subprocess: none without a subprocess, a poll
    alone for one that has exited, and for a live one terminate and a wait
    of 30 seconds, followed by kill and a second wait if that wait timed
    out.  Then the save of the task with the reset pair, if there is a
    current task and the reset is enabled.  If the store answers that save
    with an exception, the exception leaves the handler and neither
    teardown nor exit happen.  Otherwise the teardown hook runs; if it
    raises, that exception leaves the handler, and if it returns, the
    handler calls [exit(0)]: [SystemExit] with status 0 leaves the
    handler.  That is not yet the end of the process: in [run] the
    [SystemExit] passes the [finally] clause, which calls the teardown
    hook again, and an exception of that call takes its place. *)
Theorem handler_steps_in_order (s : Signal) (st : State W) :
  exists revert final,
    trace (snd (handler s st))
    = trace st ++ [EvSignal s] ++ subprocess_calls (actor st) (world st)
        ++ revert ++ final
    /\ Forall (fun ev => is_subprocess_call ev = true)
         (subprocess_calls (actor st) (world st))
    /\ match current_task (actor st), token_reset_values (actor st) with
       | Some task, Some (lock, done) =>
           exists r, revert = [EvSave (reset_task lock done task) r]
       | _, _ => revert = []
       end
    /\ ((exists task e,
            revert = [EvSave task (Raise e)] /\ final = []
            /\ fst (handler s st) = Exc e)
        \/ ((forall task e, revert <> [EvSave task (Raise e)])
            /\ ((final = [EvCleanupEnv; EvExit 0]
                 /\ fst (handler s st) = Exc system_exit_0)
                \/ (exists e,
                       final = [EvCleanupEnv]
                       /\ fst (handler s st) = Exc e))))
    /\ (forall task lock done e w2,
           current_task (actor st) = Some task ->
           token_reset_values (actor st) = Some (lock, done) ->
           db_save (db (actor st)) (reset_task lock done task)
             (after_subprocess_calls (actor st) (world st))
           = (Raise e, w2) ->
           revert = [EvSave (reset_task lock done task) (Raise e)]
           /\ final = []
           /\ fst (handler s st) = Exc e)
    /\ (forall rv w2,
           reverted (actor st)
             (after_subprocess_calls (actor st) (world st))
           = Some (rv, w2) ->
           revert = rv
           /\ (forall w3,
                  cleanup_env w2 = (Ok tt, w3) ->
                  final = [EvCleanupEnv; EvExit 0]
                  /\ fst (handler s st) = Exc system_exit_0)
           /\ (forall e w3,
                  cleanup_env w2 = (Raise e, w3) ->
                  final = [EvCleanupEnv]
                  /\ fst (handler s st) = Exc e))
    /\ (forall (body : M W unit) (st0 st1 : State W),
           body st0 = (Exc system_exit_0, st1) ->
           (forall w,
               cleanup_env (world st1) = (Ok tt, w) ->
               try_finally body (call_hook EvCleanupEnv cleanup_env) st0
               = (Exc system_exit_0,
                  set_world w (add_event EvCleanupEnv st1)))
           /\ (forall e w,
                  cleanup_env (world st1) = (Raise e, w) ->
                  try_finally body (call_hook EvCleanupEnv cleanup_env) st0
                  = (Exc e, set_world w (add_event EvCleanupEnv st1)))).
Proof.
  pose proof (handler_by_answers s st) as Hans. cbv zeta in Hans.
  pose proof (subprocess_calls_only (actor st) (world st)) as Hsub.
  assert (Hfinally :
    forall (body : M W unit) (st0 st1 : State W),
      body st0 = (Exc system_exit_0, st1) ->
      (forall w,
          cleanup_env (world st1) = (Ok tt, w) ->
          try_finally body (call_hook EvCleanupEnv cleanup_env) st0
          = (Exc system_exit_0, set_world w (add_event EvCleanupEnv st1)))
      /\ (forall e w,
             cleanup_env (world st1) = (Raise e, w) ->
             try_finally body (call_hook EvCleanupEnv cleanup_env) st0
             = (Exc e, set_world w (add_event EvCleanupEnv st1))))
    by (intros body st0 st1; apply finally_after_exit).
  unfold reverted.
  destruct (current_task (actor st)) as [task|] eqn:Hcur;
    [destruct (token_reset_values (actor st)) as [[lock done]|] eqn:Hreset|].
  - destruct (db_save _ _ _) as [[[]|e] w2] eqn:Hsave.
    + destruct (cleanup_env w2) as [[[]|e] w3] eqn:Hclean;
        destruct Hans as [Hfst Htr].
      * exists [EvSave (reset_task lock done task) (Ok tt)],
          [EvCleanupEnv; EvExit 0].
        split; [rewrite Htr, <- !app_assoc; reflexivity|].
        split; [exact Hsub|]. split; [eexists; reflexivity|].
        split; [right; split; [congruence | left; split; [reflexivity | exact Hfst]]|].
        split; [intros; congruence|]. split; [|exact Hfinally].
        intros rv w2' [= <- <-]. split; [reflexivity|].
        split; intros; split; congruence.
      * exists [EvSave (reset_task lock done task) (Ok tt)], [EvCleanupEnv].
        split; [rewrite Htr, <- !app_assoc; reflexivity|].
        split; [exact Hsub|]. split; [eexists; reflexivity|].
        split; [right; split; [congruence | right; exists e; split; [reflexivity | exact Hfst]]|].
        split; [intros; congruence|]. split; [|exact Hfinally].
        intros rv w2' [= <- <-]. split; [reflexivity|].
        split; intros; split; congruence.
    + destruct Hans as [Hfst Htr].
      exists [EvSave (reset_task lock done task) (Raise e)], [].
      split; [rewrite Htr, <- !app_assoc; reflexivity|].
      split; [exact Hsub|]. split; [eexists; reflexivity|].
      split; [left; exists (reset_task lock done task), e; repeat split; exact Hfst|].
      split; [|split; [intros; discriminate | exact Hfinally]].
      intros task' lock' done' e' w2' [= <-] [= <- <-] Hsave'.
      rewrite Hsave in Hsave'. injection Hsave' as <- <-.
      repeat split. exact Hfst.
  - destruct (cleanup_env _) as [[[]|e] w3] eqn:Hclean;
      destruct Hans as [Hfst Htr].
    + exists [], [EvCleanupEnv; EvExit 0].
      split; [rewrite Htr, <- !app_assoc; reflexivity|].
      split; [exact Hsub|]. split; [reflexivity|].
      split; [right; split; [congruence | left; split; [reflexivity | exact Hfst]]|].
      split; [intros; congruence|]. split; [|exact Hfinally].
      intros rv w2' [= <- <-]. split; [reflexivity|].
      split; intros; split; congruence.
    + exists [], [EvCleanupEnv].
      split; [rewrite Htr, <- !app_assoc; reflexivity|].
      split; [exact Hsub|]. split; [reflexivity|].
      split; [right; split; [congruence | right; exists e; split; [reflexivity | exact Hfst]]|].
      split; [intros; congruence|]. split; [|exact Hfinally].
      intros rv w2' [= <- <-]. split; [reflexivity|].
      split; intros; split; congruence.
  - destruct (cleanup_env _) as [[[]|e] w3] eqn:Hclean;
      destruct Hans as [Hfst Htr].
    + exists [], [EvCleanupEnv; EvExit 0].
      split; [rewrite Htr, <- !app_assoc; reflexivity|].
      split; [exact Hsub|].
      split; [destruct (token_reset_values (actor st)) as [[? ?]|]; reflexivity|].
      split; [right; split; [congruence | left; split; [reflexivity | exact Hfst]]|].
      split; [intros; congruence|]. split; [|exact Hfinally].
      intros rv w2' [= <- <-]. split; [reflexivity|].
      split; intros; split; congruence.
    + exists [], [EvCleanupEnv].
      split; [rewrite Htr, <- !app_assoc; reflexivity|].
      split; [exact Hsub|].
      split; [destruct (token_reset_values (actor st)) as [[? ?]|]; reflexivity|].
      split; [right; split; [congruence | right; exists e; split; [reflexivity | exact Hfst]]|].
      split; [intros; congruence|]. split; [|exact Hfinally].
      intros rv w2' [= <- <-]. split; [reflexivity|].
      split; intros; split; congruence.
Qed.
End HandlerClaims.

(** No current task: the handler saves nothing. *)
Lemma handler_saves_iff_task_and_reset_witness :
  ~ exists task r,
      In (EvSave task r)
        (trace (snd (AbstractRunActor.handler SIGTERM (start quiet)))).
Proof.
  destruct (@handler_saves_iff_task_and_reset Script _ SIGTERM (start quiet))
    as (evs & Htr & Hiff & _).
  rewrite Htr. change (trace (start quiet) ++ evs) with evs.
  intros Hsave. apply Hiff in Hsave.
  destruct Hsave as [Hcur _]. apply Hcur. reflexivity.
Defined.

(** C6 as the claim has it fails: when the store answers the handler's save
    with a write conflict, the exception leaves the handler; the teardown
    hook is not run and the process does not exit. *)
Lemma handler_conflict_skips_exit :
  fst (AbstractRunActor.handler SIGTERM conflict_at_shutdown) = Exc conflict
  /\ trace (snd (AbstractRunActor.handler SIGTERM conflict_at_shutdown))
     = [EvSignal SIGTERM; EvSave (reset_task 0 0 (token "a")) (Raise conflict)]
  /\ ~ runs_to_exit SIGTERM conflict_at_shutdown.
Proof.
  assert (Hr : fst (AbstractRunActor.handler SIGTERM conflict_at_shutdown)
               = Exc conflict) by (vm_compute; reflexivity).
  split; [exact Hr|]. split; [vm_compute; reflexivity|].
  intros [Hexit _]. rewrite Hr in Hexit. discriminate.
Qed.

(** ** Relations that the code preserves *)

Section Preservation.
Context {W : Type} `{World W}.
Import AbstractRunActor.

Variable R : State W -> State W -> Prop.
Variable okev : Event -> bool.
Variable okact : Actor -> Actor -> Prop.

Hypothesis R_refl : forall st, R st st.
Hypothesis R_trans : forall st1 st2 st3, R st1 st2 -> R st2 st3 -> R st1 st3.
Hypothesis R_world : forall st w, R st (set_world w st).
Hypothesis R_log : forall st msg, R st (add_log msg st).
Hypothesis R_event : forall st ev, okev ev = true -> R st (add_event ev st).
Hypothesis R_actor :
  forall st a, okact (actor st) a -> R st (set_actor a st).

Lemma preserves_ret {A} (a : A) : preserves R (ret a).
Proof. intros st. apply R_refl. Qed.

Lemma preserves_raise {A} (e : PyExn) : preserves R (@raise W A e).
Proof. intros st. apply R_refl. Qed.

Lemma preserves_diverge {A} : preserves R (@diverge W A).
Proof. intros st. apply R_refl. Qed.

Lemma preserves_bind {A B} (m : M W A) (k : A -> M W B) :
  preserves R m -> (forall a, preserves R (k a)) -> preserves R (bind m k).
Proof.
  intros Hm Hk st. unfold bind. specialize (Hm st).
  destruct (m st) as [[a|e|] st1]; simpl in *; try exact Hm.
  eapply R_trans; [exact Hm | apply Hk].
Qed.

Lemma preserves_try_except {A} (body : M W A) catches handler :
  preserves R body -> (forall e, preserves R (handler e)) ->
  preserves R (try_except body catches handler).
Proof.
  intros Hb Hh st. unfold try_except. specialize (Hb st).
  destruct (body st) as [[a|e|] st1]; simpl in *; try exact Hb.
  destruct (catches (exn_class e)); simpl; [|exact Hb].
  eapply R_trans; [exact Hb | apply Hh].
Qed.

Lemma preserves_try_finally {A} (body : M W A) final :
  preserves R body -> preserves R final ->
  preserves R (try_finally body final).
Proof.
  intros Hb Hf st. unfold try_finally. specialize (Hb st).
  destruct (body st) as [[a|e|] st1]; simpl in *; try exact Hb.
  all: specialize (Hf st1); destruct (final st1) as [[[]|e'|] st2];
    simpl in *; eapply R_trans; eauto.
Qed.

Lemma preserves_emit ev : okev ev = true -> preserves R (emit ev).
Proof. intros Hev st. apply R_event, Hev. Qed.

Lemma preserves_log_info msg : preserves R (log_info msg).
Proof. intros st. apply R_log. Qed.

Lemma preserves_ext {A} (op : W -> A * W) : preserves R (ext op).
Proof.
  intros st. unfold ext. destruct (op (world st)) as [a w]. apply R_world.
Qed.

Lemma preserves_ext_result {A} (op : W -> result A * W) :
  preserves R (ext_result op).
Proof.
  intros st. unfold ext_result.
  destruct (op (world st)) as [[a|e] w]; apply R_world.
Qed.

Lemma preserves_get_actor : preserves R get_actor.
Proof. intros st. apply R_refl. Qed.

Lemma preserves_modify_actor f :
  (forall a, okact a (f a)) -> preserves R (modify_actor f).
Proof. intros Hf st. apply R_actor, Hf. Qed.

Lemma preserves_call_hook ev hook :
  okev ev = true -> preserves R (call_hook ev hook).
Proof.
  intros Hev. apply preserves_bind; [apply preserves_emit, Hev|].
  intros _. apply preserves_ext_result.
Qed.

Lemma preserves_handler s :
  (forall ev, handler_event ev = true -> okev ev = true) ->
  (forall a v, okact a (set_current_task v a)) ->
  preserves R (handler s).
Proof.
  intros Hev Hact. unfold handler.
  assert (Hemit : forall ev, handler_event ev = true -> preserves R (emit ev)).
  { intros ev Hh. apply preserves_emit, Hev, Hh. }
  apply preserves_bind; [apply Hemit; reflexivity|]. intros _.
  apply preserves_bind; [apply preserves_log_info|]. intros _.
  apply preserves_bind; [apply preserves_get_actor|]. intros a.
  apply preserves_bind.
  { destruct (subprocess a) as [p|]; [|apply preserves_ret].
    apply preserves_bind.
    { apply preserves_bind; [apply Hemit; reflexivity|]. intros _.
      apply preserves_ext. }
    intros [rc|]; [apply preserves_ret|].
    apply preserves_bind; [apply preserves_log_info|]. intros _.
    apply preserves_bind; [apply Hemit; reflexivity|]. intros _.
    apply preserves_bind; [apply preserves_ext|]. intros _.
    apply preserves_bind.
    { apply preserves_bind; [apply Hemit; reflexivity|]. intros _.
      apply preserves_ext. }
    intros [|]; [apply preserves_ret|].
    apply preserves_bind; [apply preserves_log_info|]. intros _.
    apply preserves_bind; [apply Hemit; reflexivity|]. intros _.
    apply preserves_bind; [apply preserves_ext|]. intros _.
    apply preserves_bind; [apply Hemit; reflexivity|]. intros _.
    apply preserves_ext. }
  intros _. apply preserves_bind; [apply preserves_get_actor|]. intros a'.
  apply preserves_bind.
  { destruct (current_task a') as [task|]; [|apply preserves_ret].
    destruct (token_reset_values a') as [[lock done]|]; [|apply preserves_ret].
    apply preserves_bind.
    { apply preserves_modify_actor. intros a0. apply Hact. }
    intros _. intros st. unfold call_db_save.
    destruct (db_save (db (actor st)) (set_done done (set_lock lock task))
                (world st)) as [r w].
    assert (Hst : R st (add_event
                          (EvSave (set_done done (set_lock lock task)) r)
                          (set_world w st))).
    { eapply R_trans; [apply R_world | apply R_event, Hev; reflexivity]. }
    destruct r; exact Hst. }
  intros _. apply preserves_bind.
  { apply preserves_call_hook, Hev. reflexivity. }
  intros _. unfold exit.
  apply preserves_bind; [apply Hemit; reflexivity|].
  intros _; apply preserves_raise.
Qed.

Hypothesis ok_save : forall task r, okev (EvSave task r) = true.
Hypothesis ok_get : forall id, okev (EvGet id) = true.
Hypothesis ok_process : forall task, okev (EvProcess task) = true.
Hypothesis ok_next : okev EvNext = true.
Hypothesis ok_prepare_run : okev EvPrepareRun = true.
Hypothesis ok_cleanup_run : okev EvCleanupRun = true.
Hypothesis ok_stop : forall f args, okev (EvStopFunction f args) = true.
Hypothesis okact_task : forall a v, okact a (set_current_task v a).
Hypothesis okact_process :
  forall a v v', okact a (set_subprocess v (set_current_task v' a)).
Hypothesis R_handler : forall s, preserves R (handler s).

Lemma preserves_call_db_save task : preserves R (call_db_save task).
Proof.
  intros st. unfold call_db_save.
  destruct (db_save (db (actor st)) task (world st)) as [r w].
  assert (Hst : R st (add_event (EvSave task r) (set_world w st))).
  { eapply R_trans; [apply R_world | apply R_event, ok_save]. }
  destruct r; exact Hst.
Qed.

Lemma preserves_call_db_get id : preserves R (call_db_get id).
Proof.
  intros st. unfold call_db_get.
  eapply R_trans; [apply R_event, ok_get | apply preserves_ext_result].
Qed.

Lemma preserves_the_task task : preserves R (the_task task).
Proof. intros st. apply R_refl. Qed.

Lemma preserves_update_task f : preserves R (update_task f).
Proof. apply preserves_modify_actor. intros a. apply okact_task. Qed.

Lemma preserves_save_loop fuel task : preserves R (save_loop fuel task).
Proof.
  induction fuel as [|fuel IH]; simpl; [apply preserves_diverge|].
  apply preserves_bind.
  - apply preserves_try_except.
    + apply preserves_bind; [apply preserves_the_task|]. intros task'.
      apply preserves_bind; [apply preserves_call_db_save|]. intros _.
      apply preserves_ret.
    + intros _. apply preserves_bind; [apply preserves_the_task|].
      intros task'. apply preserves_bind; [apply preserves_call_db_get|].
      intros new_task.
      apply preserves_bind; [apply preserves_update_task|]. intros _.
      apply preserves_ret.
  - intros [|]; [apply preserves_ret | exact IH].
Qed.

Lemma preserves_call_process_task task :
  preserves R (call_process_task task).
Proof.
  unfold call_process_task.
  apply preserves_bind; [apply preserves_emit, ok_process|]. intros _.
  apply preserves_bind; [apply preserves_ext|]. intros po.
  apply preserves_bind.
  - apply preserves_modify_actor. intros a. apply okact_process.
  - intros _. destruct (po_end po);
      [apply preserves_ret | apply preserves_raise | apply R_handler].
Qed.

Lemma preserves_processing task :
  preserves R
    (try_except (call_process_task task) is_Exception
       (fun ex =>
          update_task
            (fun task' => Task_error task' (processing_message ex) ex) ;;
          log_info (processing_message ex))).
Proof.
  apply preserves_try_except; [apply preserves_call_process_task|].
  intros ex. apply preserves_bind; [apply preserves_update_task|].
  intros _. apply preserves_log_info.
Qed.

Lemma preserves_cycle_steps (fuel : nat) (task : Task) :
  preserves R (cycle_steps fuel task).
Proof.
  unfold cycle_steps.
  apply preserves_bind; [apply preserves_call_hook, ok_prepare_run|].
  intros _. apply preserves_bind.
  { apply preserves_modify_actor. intros a. apply okact_task. }
  intros _. apply preserves_bind; [apply preserves_processing|].
  intros _. apply preserves_bind; [apply preserves_save_loop|].
  intros _. apply preserves_call_hook, ok_cleanup_run.
Qed.

Lemma preserves_run_ (fuel : nat) (task : Task) :
  (forall a, okact a (set_tasks_processed (tasks_processed a + 1) a)) ->
  preserves R (_run fuel task).
Proof.
  intros Hincr. unfold _run.
  apply preserves_bind; [apply preserves_call_hook, ok_prepare_run|].
  intros _. apply preserves_bind.
  { apply preserves_modify_actor. intros a. apply okact_task. }
  intros _. apply preserves_bind; [apply preserves_processing|].
  intros _. apply preserves_bind; [apply preserves_save_loop|].
  intros _. apply preserves_bind; [apply preserves_call_hook, ok_cleanup_run|].
  intros _. apply preserves_modify_actor. exact Hincr.
Qed.

Lemma preserves_next_task : preserves R next_task.
Proof.
  unfold next_task.
  apply preserves_bind; [apply preserves_emit, ok_next|]. intros _.
  apply preserves_bind; [apply preserves_get_actor|]. intros a.
  apply preserves_bind; [apply preserves_ext|]. intros r.
  destruct r; try apply preserves_ret; try apply preserves_raise.
  apply preserves_bind; [apply R_handler|]. intros _. apply preserves_ret.
Qed.

Lemma preserves_stop_checks max_time avg max_tasks stop_function args :
  preserves R
    (RunActor.stop_checks max_time avg max_tasks stop_function args).
Proof.
  unfold RunActor.stop_checks. apply preserves_bind.
  - destruct stop_function as [f|]; [|apply preserves_ret].
    apply preserves_bind; [apply preserves_emit, ok_stop|]. intros _.
    apply preserves_ext_result.
  - intros [|]; [apply preserves_ret|].
    apply preserves_bind; [apply preserves_get_actor|]. intros a.
    destruct (negb (max_tasks =? 0) && (tasks_processed a =? max_tasks));
      [apply preserves_ret|].
    destruct max_time as [mt|]; [|apply preserves_ret].
    destruct (time a) as [tm|]; [|apply preserves_raise].
    apply preserves_bind; [|intros e; apply preserves_ret].
    unfold elapsed. apply preserves_bind; [apply preserves_ext|].
    intros now. apply preserves_ret.
Qed.

Lemma preserves_abstract_run_loop fuel :
  (forall a, okact a (set_tasks_processed (tasks_processed a + 1) a)) ->
  preserves R (AbstractRunActor.run_loop fuel).
Proof.
  intros Hincr. induction fuel as [|fuel IH]; simpl;
    [apply preserves_diverge|].
  apply preserves_bind; [apply preserves_next_task|].
  intros [task|]; [|apply preserves_ret].
  apply preserves_bind; [apply preserves_run_, Hincr|]. intros _.
  apply preserves_bind; [|intros _; exact IH].
  apply preserves_modify_actor. intros a. apply okact_task.
Qed.

Lemma preserves_run_loop fuel max_time avg max_tasks stop_function args :
  (forall a, okact a (set_tasks_processed (tasks_processed a + 1) a)) ->
  preserves R
    (RunActor.run_loop fuel max_time avg max_tasks stop_function args).
Proof.
  intros Hincr. induction fuel as [|fuel IH]; simpl;
    [apply preserves_diverge|].
  apply preserves_bind; [apply preserves_next_task|].
  intros [task|]; [|apply preserves_ret].
  apply preserves_bind; [apply preserves_run_, Hincr|]. intros _.
  apply preserves_bind; [apply preserves_stop_checks|].
  intros [|]; [apply preserves_ret|].
  apply preserves_bind; [|intros _; exact IH].
  apply preserves_modify_actor. intros a. apply okact_task.
Qed.
End Preservation.

(** ** Teardown calls of a run *)

Section Teardown.
Context {W : Type} `{World W}.
Import AbstractRunActor.

Lemma tih_refl (st : State W) : teardown_in_handler st st.
Proof. unfold teardown_in_handler. lia. Qed.

Lemma tih_trans (st1 st2 st3 : State W) :
  teardown_in_handler st1 st2 -> teardown_in_handler st2 st3 ->
  teardown_in_handler st1 st3.
Proof. unfold teardown_in_handler. lia. Qed.

Lemma tih_event (st : State W) ev :
  outside_handler ev = true -> teardown_in_handler st (add_event ev st).
Proof.
  intros Hev. unfold teardown_in_handler. simpl. rewrite !count_app.
  destruct ev; try discriminate; unfold count; simpl; lia.
Qed.

Lemma subprocess_calls_counts (a : Actor) (w : W) :
  count is_signal (subprocess_calls a w) = 0%nat
  /\ count is_cleanup_env (subprocess_calls a w) = 0%nat
  /\ count is_exit (subprocess_calls a w) = 0%nat.
Proof.
  unfold subprocess_calls. repeat destruct_match; repeat split.
Qed.

Lemma tih_handler s : preserves teardown_in_handler (handler s).
Proof.
  intros st. destruct (handler_shape s st) as (revert & final & Htr & Hrev & Hfin).
  unfold teardown_in_handler. rewrite Htr, !count_app.
  destruct (subprocess_calls_counts (actor st) (world st)) as (-> & -> & ->).
  assert (Hrevert : count is_signal revert = 0%nat
                    /\ count is_cleanup_env revert = 0%nat
                    /\ count is_exit revert = 0%nat).
  { destruct (current_task (actor st)) as [task|];
      [destruct (token_reset_values (actor st)) as [[lock done]|]|].
    - destruct Hrev as [r ->]. repeat split.
    - subst revert. repeat split.
    - subst revert. repeat split. }
  destruct Hrevert as (-> & -> & ->).
  destruct Hfin as [(? & ? & _ & -> & _)|[_ [[-> _]|(? & -> & _)]]];
    unfold count; simpl; lia.
Qed.

Lemma tih_run_loop fuel max_time avg max_tasks stop_function args :
  preserves teardown_in_handler
    (RunActor.run_loop fuel max_time avg max_tasks stop_function args).
Proof.
  apply preserves_run_loop
    with (okev := outside_handler) (okact := fun _ _ => True);
    first [ exact tih_refl | exact tih_trans | exact tih_event
          | exact tih_handler
          | intros; first [reflexivity | exact I]
          | intros; unfold teardown_in_handler; simpl; lia ].
Qed.

Lemma tih_abstract_run_loop fuel :
  preserves teardown_in_handler (AbstractRunActor.run_loop fuel).
Proof.
  apply preserves_abstract_run_loop
    with (okev := outside_handler) (okact := fun _ _ => True);
    first [ exact tih_refl | exact tih_trans | exact tih_event
          | exact tih_handler
          | intros; first [reflexivity | exact I]
          | intros; unfold teardown_in_handler; simpl; lia ].
Qed.

(** The [finally] clause of [run]: unless the loop never ends, the
    teardown hook is called once more after it, however the loop ended. *)
Lemma finally_cleanup_env (body : M W unit) (st : State W) r st' :
  try_finally body (call_hook EvCleanupEnv cleanup_env) st = (r, st') ->
  r <> Diverge ->
  trace st' = trace (snd (body st)) ++ [EvCleanupEnv].
Proof.
  unfold try_finally. unfold_monad. simpl.
  destruct (body st) as [[[]|e|] st1]; simpl;
    try (destruct (cleanup_env (world st1)) as [[[]|e'] w]; simpl);
    intros Hr Hd; injection Hr as <- <-; try reflexivity; congruence.
Qed.

Lemma teardown_after_loop (body : M W unit) (st : State W) r st' :
  count is_signal (trace st) = 0%nat ->
  count is_cleanup_env (trace st) = 0%nat ->
  count is_exit (trace st) = 0%nat ->
  preserves teardown_in_handler body ->
  try_finally body (call_hook EvCleanupEnv cleanup_env) st = (r, st') ->
  r <> Diverge ->
  (1 + count is_exit (trace st') <= count is_cleanup_env (trace st'))%nat
  /\ (count is_cleanup_env (trace st') <= 1 + count is_signal (trace st'))%nat.
Proof.
  intros Hs Hc He Hbody Hrun Hd.
  rewrite (finally_cleanup_env _ _ _ _ Hrun Hd), !count_app.
  specialize (Hbody st). unfold teardown_in_handler in Hbody.
  rewrite Hs, Hc, He in Hbody. unfold count at 2 4 6 8. simpl. lia.
Qed.
(** C7 as the code has it: a run that gets to its loop and ends calls the
    teardown hook once from the [finally] clause of [run], however the loop
    ended, and once more in every handler invocation that got as far as
    its teardown step.  So the hook runs exactly once when no signal is
    handled, also when the loop body raises; and when a signal is handled
    during the loop and the handler exits, the hook runs twice: the
    [SystemExit] raised by [exit(0)] passes through the [finally] clause. *)
Theorem teardown_once_plus_handler :
  forall fuel max_time avg max_tasks stop_function args (st : State W) w r st',
    trace st = [] ->
    prepare_env (snd (time_time (world st))) = (Ok tt, w) ->
    RunActor.run fuel max_time avg max_tasks stop_function args st = (r, st')
    \/ AbstractRunActor.run fuel st = (r, st') ->
    r <> Diverge ->
    ((1 + count is_exit (trace st') <= count is_cleanup_env (trace st'))%nat
     /\ (count is_cleanup_env (trace st')
         <= 1 + count is_signal (trace st'))%nat)
    /\ (count is_signal (trace st') = 0%nat ->
        count is_cleanup_env (trace st') = 1%nat)
    /\ (count is_signal (trace st') = 1%nat ->
        count is_exit (trace st') = 1%nat ->
        count is_cleanup_env (trace st') = 2%nat).
Proof.
  intros fuel max_time avg max_tasks stop_function args st w r st'
    Htr Hprep Hrun Hd.
  assert (Hbounds :
    (1 + count is_exit (trace st') <= count is_cleanup_env (trace st'))%nat
    /\ (count is_cleanup_env (trace st')
        <= 1 + count is_signal (trace st'))%nat).
  { destruct Hrun as [Hrun|Hrun].
    - unfold RunActor.run in Hrun.
      set (final := call_hook EvCleanupEnv cleanup_env) in Hrun.
      set (loop := RunActor.run_loop fuel max_time avg max_tasks
                     stop_function args) in Hrun.
      assert (Hloop : preserves teardown_in_handler loop)
        by apply tih_run_loop.
      clearbody loop.
      unfold Timer_new, setup_handler in Hrun. unfold_monad.
      destruct (time_time (world st)) as [now w0]. simpl in Hprep, Hrun.
      rewrite Hprep in Hrun. simpl in Hrun.
      destruct (it_class (iterator (actor st)));
        (eapply teardown_after_loop;
         [| | | exact Hloop | exact Hrun | exact Hd]);
        simpl; rewrite Htr; reflexivity.
    - unfold AbstractRunActor.run in Hrun.
      set (final := call_hook EvCleanupEnv cleanup_env) in Hrun.
      set (loop := AbstractRunActor.run_loop fuel) in Hrun.
      assert (Hloop : preserves teardown_in_handler loop)
        by apply tih_abstract_run_loop.
      clearbody loop.
      unfold Timer_new, setup_handler in Hrun. unfold_monad.
      simpl in Hrun.
      destruct (time_time (world st)) as [now w0]. simpl in Hprep, Hrun.
      rewrite Hprep in Hrun. simpl in Hrun.
      eapply teardown_after_loop;
        [| | | exact Hloop | exact Hrun | exact Hd];
        simpl; rewrite Htr; reflexivity. }
  split; [exact Hbounds|]. split; lia.
Qed.
End Teardown.

(** A run over two tasks with no signal: one teardown call. *)
Lemma teardown_once_plus_handler_witness :
  RunActor.run 5 None 0%float 0 None [] (start two_tasks) = two_tasks_run
  /\ count is_cleanup_env (trace (snd two_tasks_run)) = 1%nat.
Proof.
  assert (Hrun : RunActor.run 5 None 0%float 0 None [] (start two_tasks)
                 = two_tasks_run) by (vm_compute; reflexivity).
  split; [exact Hrun|].
  destruct (@teardown_once_plus_handler Script _ 5%nat None 0%float 0 None []
              (start two_tasks) two_tasks (fst two_tasks_run)
              (snd two_tasks_run)) as (_ & Hone & _).
  - reflexivity.
  - vm_compute. reflexivity.
  - left. exact Hrun.
  - discriminate.
  - apply Hone. vm_compute. reflexivity.
Defined.

(** C7 as the claim has it fails: the signal arrives while task [a] is
    processed; the handler calls the teardown hook and exits, and the
    teardown hook is called again on the way out of [run]. *)
Lemma teardown_twice_on_shutdown :
  RunActor.run 5 None 0%float 0 None [] (start interrupted) = interrupted_run
  /\ fst interrupted_run = Exc system_exit_0
  /\ trace (snd interrupted_run)
     = [EvPrepareEnv; EvSignalHandler SIGTERM; EvSignalHandler SIGINT;
        EvNext; EvPrepareRun; EvProcess (token "a");
        EvSignal SIGTERM;
        EvPoll {| pid := 4711 |}; EvTerminate {| pid := 4711 |};
        EvCommunicate {| pid := 4711 |} (Some 30);
        EvKill {| pid := 4711 |}; EvCommunicate {| pid := 4711 |} None;
        EvSave (reset_task 0 0 (token "a")) (Ok tt);
        EvCleanupEnv; EvExit 0;
        EvCleanupEnv]
  /\ count is_cleanup_env (trace (snd interrupted_run)) = 2%nat
  /\ ~ only_handler_teardown (trace (snd interrupted_run)).
Proof.
  split; [vm_compute; reflexivity|].
  split; [reflexivity|]. split; [reflexivity|]. split; [reflexivity|].
  intros Honly.
  assert (Hin : In (EvExit 0) (trace (snd interrupted_run))).
  { vm_compute. intuition. }
  apply Honly in Hin. vm_compute in Hin. discriminate.
Qed.

(** ** The task counter and the stop criteria *)

Section Counter.
Context {W : Type} `{World W}.
Import AbstractRunActor.

Ltac stp_side :=
  first [ intros; reflexivity
        | intros; unfold same_tasks_processed in *; simpl; congruence ].

Lemma stp_handler s : preserves same_tasks_processed (handler s).
Proof.
  apply preserves_handler
    with (okev := fun _ => true)
         (okact := fun a a' => tasks_processed a' = tasks_processed a);
    stp_side.
Qed.

Lemma stp_next_task : preserves same_tasks_processed next_task.
Proof.
  apply preserves_next_task with (okev := fun _ => true);
    first [exact stp_handler | stp_side].
Qed.

Lemma stp_cycle_steps fuel task :
  preserves same_tasks_processed (cycle_steps fuel task).
Proof.
  apply preserves_cycle_steps
    with (okev := fun _ => true)
         (okact := fun a a' => tasks_processed a' = tasks_processed a);
    first [exact stp_handler | stp_side].
Qed.

Lemma run_steps fuel task (st : State W) :
  _run fuel task st
  = (cycle_steps fuel task ;;
     modify_actor (fun a => set_tasks_processed (tasks_processed a + 1) a)) st.
Proof.
  unfold _run, cycle_steps, bind.
  destruct (call_hook EvPrepareRun prepare_run st) as [[[]|e|] st1];
    try reflexivity.
  destruct (modify_actor (set_current_task (Some task)) st1)
    as [[[]|e|] st2]; try reflexivity.
  destruct (try_except _ _ _ st2) as [[[]|e|] st3]; try reflexivity.
  destruct (save_loop fuel task st3) as [[[]|e|] st4]; reflexivity.
Qed.

Lemma run_tasks_processed fuel task (st st' : State W) :
  _run fuel task st = (Ret tt, st') ->
  tasks_processed (actor st') = tasks_processed (actor st) + 1.
Proof.
  rewrite run_steps. unfold bind.
  pose proof (stp_cycle_steps fuel task st) as Hsame.
  destruct (cycle_steps fuel task st) as [[[]|e|] st1]; try discriminate.
  unfold same_tasks_processed in Hsame. simpl in Hsame.
  unfold modify_actor. intros [= <-]. simpl. rewrite Hsame. reflexivity.
Qed.

Lemma save_loop_mono fuel :
  forall fuel' task (st : State W),
    (fuel <= fuel')%nat ->
    fst (save_loop fuel task st) <> Diverge ->
    save_loop fuel' task st = save_loop fuel task st.
Proof.
  induction fuel as [|fuel IH]; intros fuel' task st Hle Hd.
  - simpl in Hd. contradiction.
  - destruct fuel' as [|fuel']; [lia|]. simpl in *. unfold bind in *.
    destruct (try_except _ _ _ st) as [[[|]|e|] st1]; try reflexivity.
    apply IH; [lia | exact Hd].
Qed.

Lemma run_mono fuel fuel' task (st : State W) :
  (fuel <= fuel')%nat ->
  fst (_run fuel task st) <> Diverge ->
  _run fuel' task st = _run fuel task st.
Proof.
  intros Hle Hd. unfold _run, bind in *.
  destruct (call_hook EvPrepareRun prepare_run st) as [[[]|e|] st1];
    try reflexivity.
  destruct (modify_actor (set_current_task (Some task)) st1)
    as [[[]|e|] st2]; try reflexivity.
  destruct (try_except _ _ _ st2) as [[[]|e|] st3]; try reflexivity.
  assert (Hs : fst (save_loop fuel task st3) <> Diverge).
  { intros Hdiv. apply Hd. destruct (save_loop fuel task st3) as [[| |] ?];
      simpl in Hdiv; try discriminate. reflexivity. }
  rewrite (save_loop_mono fuel fuel' task st3 Hle Hs). reflexivity.
Qed.

(** Without a stop function the stop logic after a cycle reads the counter
    first, and the clock only if the counter does not end the loop. *)
Lemma stop_checks_counter avg max_tasks args (st : State W) max_time :
  negb (max_tasks =? 0) && (tasks_processed (actor st) =? max_tasks) = true ->
  RunActor.stop_checks max_time avg max_tasks None args st = (Ret true, st).
Proof.
  intros Htest. unfold RunActor.stop_checks. unfold_monad. rewrite Htest.
  reflexivity.
Qed.

(** Once the counter has reached [max_tasks], the stop logic never answers
    that the loop goes on, whatever the stop function does. *)
Lemma stop_checks_at_max avg max_tasks sf args (st : State W) max_time :
  negb (max_tasks =? 0) && (tasks_processed (actor st) =? max_tasks) = true ->
  fst (RunActor.stop_checks max_time avg max_tasks sf args st) = Ret true
  \/ exists e,
       fst (RunActor.stop_checks max_time avg max_tasks sf args st) = Exc e.
Proof.
  intros Htest. unfold RunActor.stop_checks. unfold_monad.
  destruct sf as [f|]; simpl.
  - destruct (call_stop_function f args (world st)) as [[[|]|e] w]; simpl.
    + left. reflexivity.
    + rewrite Htest. left. reflexivity.
    + right. exists e. reflexivity.
  - rewrite Htest. left. reflexivity.
Qed.

Lemma stop_checks_clock avg max_tasks sf args (st st1 : State W) mt tm now w :
  stop_function_declines sf args st st1 ->
  negb (max_tasks =? 0) && (tasks_processed (actor st) =? max_tasks) = false ->
  time (actor st) = Some tm ->
  time_time (world st1) = (now, w) ->
  RunActor.stop_checks (Some mt) avg max_tasks sf args st
  = (Ret (mt <? (now - t tm) + avg)%float, set_world w st1).
Proof.
  intros Hsf Htest Htm Hnow. unfold RunActor.stop_checks, elapsed.
  unfold_monad. destruct sf as [f|]; simpl in Hsf.
  - destruct Hsf as (w0 & Hcall & ->). simpl in *. rewrite Hcall. simpl.
    rewrite Htest, Htm. simpl. rewrite Hnow. reflexivity.
  - subst st1. rewrite Htest, Htm, Hnow. reflexivity.
Qed.

Lemma stop_checks_none avg max_tasks args (st : State W) :
  negb (max_tasks =? 0) && (tasks_processed (actor st) =? max_tasks) = false ->
  RunActor.stop_checks None avg max_tasks None args st = (Ret false, st).
Proof.
  intros Htest. unfold RunActor.stop_checks. unfold_monad. rewrite Htest.
  reflexivity.
Qed.

(** One iteration of the loop of [RunActor.run], by the answer of the stop
    logic. *)
Lemma run_loop_iteration fuel max_time avg max_tasks sf args
    (st st0 st1 st2 : State W) task (stop : bool) :
  next_task st = (Ret (Some task), st0) ->
  _run (S fuel) task st0 = (Ret tt, st1) ->
  RunActor.stop_checks max_time avg max_tasks sf args st1 = (Ret stop, st2) ->
  RunActor.run_loop (S fuel) max_time avg max_tasks sf args st
  = if stop then (Ret tt, st2)
    else RunActor.run_loop fuel max_time avg max_tasks sf args
           (clear_current_task st2).
Proof.
  intros Hnext Hrun Hstop. simpl. unfold bind at 1. rewrite Hnext.
  unfold bind at 1. rewrite Hrun. unfold bind at 1. rewrite Hstop.
  destruct stop; reflexivity.
Qed.
End Counter.

Section ProcessCalls.
Context {W : Type} `{World W}.
Import AbstractRunActor.

Lemma spc_refl (st : State W) : same_process_calls st st.
Proof. reflexivity. Qed.

Lemma spc_trans (st1 st2 st3 : State W) :
  same_process_calls st1 st2 -> same_process_calls st2 st3 ->
  same_process_calls st1 st3.
Proof. unfold same_process_calls. congruence. Qed.

Lemma spc_event (st : State W) ev :
  not_process ev = true -> same_process_calls st (add_event ev st).
Proof.
  unfold not_process, same_process_calls. intros Hev. simpl.
  rewrite count_app. unfold count at 2. simpl.
  destruct (is_process ev); [discriminate | simpl; lia].
Qed.

Ltac spc_side :=
  first [ exact spc_refl | exact spc_trans | exact spc_event
        | intros; reflexivity
        | intros; exact I ].

Lemma spc_handler s : preserves same_process_calls (handler s).
Proof.
  apply preserves_handler
    with (okev := not_process) (okact := fun _ _ => True); try spc_side.
  intros ev. destruct ev; simpl; intros; try discriminate; reflexivity.
Qed.

Lemma spc_next_task : preserves same_process_calls next_task.
Proof.
  apply preserves_next_task with (okev := not_process);
    first [exact spc_handler | spc_side].
Qed.

Lemma spc_save_loop fuel task :
  preserves same_process_calls (save_loop fuel task).
Proof.
  apply preserves_save_loop
    with (okev := not_process) (okact := fun _ _ => True); spc_side.
Qed.

Lemma spc_call_hook ev (hook : W -> result unit * W) :
  not_process ev = true -> preserves same_process_calls (call_hook ev hook).
Proof.
  intros Hev. apply preserves_call_hook with (okev := not_process);
    first [exact Hev | spc_side].
Qed.

Lemma spc_stop_checks max_time avg max_tasks sf args :
  preserves same_process_calls
    (RunActor.stop_checks max_time avg max_tasks sf args).
Proof.
  apply preserves_stop_checks with (okev := not_process); spc_side.
Qed.

(** The [try] statement around [process_task] calls it once, whatever
    comes of the call. *)
Lemma processing_once task (st : State W) :
  count is_process
    (trace (snd (try_except (call_process_task task) is_Exception
                   (fun ex =>
                      update_task
                        (fun task' =>
                           Task_error task' (processing_message ex) ex) ;;
                      log_info (processing_message ex)) st)))
  = (count is_process (trace st) + 1)%nat.
Proof.
  assert (Hrest : preserves same_process_calls
            (po <- ext (process_task task) ;;
             modify_actor (fun a =>
               set_subprocess (po_subprocess po)
                 (set_current_task (Some (po_task po)) a)) ;;
             match po_end po with
             | PReturn => ret tt
             | PRaise e => raise e
             | PSignal s => handler s
             end)).
  { apply (preserves_bind _ spc_trans).
    - apply preserves_ext. intros; reflexivity.
    - intros po. apply (preserves_bind _ spc_trans).
      + apply preserves_modify_actor with (okact := fun _ _ => True);
          [intros; reflexivity | intros; exact I].
      + intros _. destruct (po_end po);
          [ apply preserves_ret, spc_refl | apply preserves_raise, spc_refl
          | apply spc_handler ]. }
  assert (Hhandler : forall ex,
            preserves (same_process_calls (W := W))
              (update_task
                 (fun task' => Task_error task' (processing_message ex) ex) ;;
               log_info (processing_message ex))).
  { intros ex. apply (preserves_bind _ spc_trans).
    - apply preserves_update_task with (okact := fun _ _ => True);
        [intros; reflexivity | intros; exact I].
    - intros _. apply preserves_log_info. intros; reflexivity. }
  unfold try_except, call_process_task. unfold bind at 1. unfold emit.
  specialize (Hrest (add_event (EvProcess task) st)).
  unfold same_process_calls in Hrest.
  match goal with
  | |- context [let (_, _) := ?m in _] =>
      change (snd (Ret tt, add_event (EvProcess task) st))
        with (add_event (EvProcess task) st) in *;
      destruct m as [[[]|e|] st1]
  end; simpl in Hrest |- *.
  - rewrite Hrest, count_app. reflexivity.
  - destruct (is_Exception (exn_class e)).
    + specialize (Hhandler e st1). unfold same_process_calls in Hhandler.
      rewrite Hhandler, Hrest, count_app. reflexivity.
    + simpl. rewrite Hrest, count_app. reflexivity.
  - rewrite Hrest, count_app. reflexivity.
Qed.

Lemma run_process_calls fuel task (st st' : State W) :
  _run fuel task st = (Ret tt, st') ->
  count is_process (trace st') = (count is_process (trace st) + 1)%nat.
Proof.
  unfold _run, bind.
  pose proof (spc_call_hook EvPrepareRun prepare_run eq_refl st) as H1.
  destruct (call_hook EvPrepareRun prepare_run st) as [[[]|e|] st1];
    try discriminate.
  unfold modify_actor at 1.
  pose proof (processing_once task
                (set_actor (set_current_task (Some task) (actor st1)) st1))
    as H2.
  destruct (try_except _ _ _ _) as [[[]|e|] st3]; try discriminate.
  pose proof (spc_save_loop fuel task st3) as H3.
  destruct (save_loop fuel task st3) as [[[]|e|] st4]; try discriminate.
  pose proof (spc_call_hook EvCleanupRun cleanup_run eq_refl st4) as H4.
  destruct (call_hook EvCleanupRun cleanup_run st4) as [[[]|e|] st5];
    try discriminate.
  unfold modify_actor. intros [= <-].
  unfold same_process_calls in *. simpl in *. congruence.
Qed.
End ProcessCalls.

Section StopClaims.
Context {W : Type} `{World W}.
Import AbstractRunActor.

Lemma stops_after_cycles n :
  forall k fuel0 fuel avg args (st st' : State W),
    tasks_processed (actor st) = Z.of_nat k ->
    after_cycles fuel0 (S n) st = Some st' ->
    (fuel0 + S n <= fuel)%nat ->
    RunActor.run_loop fuel None avg (Z.of_nat (k + S n)) None args st
    = (Ret tt, st')
    /\ tasks_processed (actor st') = Z.of_nat (k + S n)
    /\ count is_process (trace st')
       = (count is_process (trace st) + S n)%nat.
Proof.
  induction n as [|n IH]; intros k fuel0 fuel avg args st st' Htp Ha Hfuel.
  all: destruct fuel as [|fuel]; [lia|].
  all: simpl in Ha.
  all: pose proof (stp_next_task st) as Htp0.
  all: pose proof (spc_next_task st) as Hpc0.
  all: unfold same_tasks_processed in Htp0; unfold same_process_calls in Hpc0.
  all: destruct (next_task st) as [[[task|]|e|] st0] eqn:Hnext;
    try discriminate.
  all: destruct (_run fuel0 task st0) as [[[]|e|] st1] eqn:Hrun;
    try discriminate.
  all: assert (Hrun' : _run (S fuel) task st0 = (Ret tt, st1))
    by (rewrite (run_mono fuel0 (S fuel));
        [exact Hrun | lia | rewrite Hrun; discriminate]).
  all: pose proof (run_tasks_processed _ _ _ _ Hrun) as Htp1.
  all: pose proof (run_process_calls _ _ _ _ Hrun) as Hpc1.
  all: simpl in Htp0, Hpc0.
  - injection Ha as <-.
    rewrite (run_loop_iteration fuel None avg _ None args st st0 st1 st1
               task true Hnext Hrun').
    + repeat split; [lia | lia].
    + apply stop_checks_counter. rewrite Htp1, Htp0, Htp.
      apply andb_true_intro. split.
      * apply negb_true_iff, Z.eqb_neq. lia.
      * apply Z.eqb_eq. lia.
  - rewrite (run_loop_iteration fuel None avg _ None args st st0 st1 st1
               task false Hnext Hrun').
    + destruct (IH (S k) fuel0 fuel avg args (clear_current_task st1) st')
        as (Hloop & Htp' & Hpc'); [simpl; lia | exact Ha | lia |].
      replace (k + S (S n))%nat with (S k + S n)%nat by lia.
      split; [exact Hloop|]. split; [exact Htp'|].
      rewrite Hpc'. simpl. lia.
    + apply stop_checks_none. rewrite Htp1, Htp0, Htp.
      apply andb_false_intro2. apply Z.eqb_neq. lia.
Qed.

(** C9: with [max_tasks] positive the loop ends after the cycle that brings
    [tasks_processed] to [max_tasks]: no further task is processed,
    whatever the stop function and [max_time] are.  Started with the
    counter at zero against a source that goes on giving tasks whose cycles
    complete, the loop runs [max_tasks] cycles and ends: it returns in the
    state the last of these cycles left, and [process_task] has been called
    [max_tasks] times. *)
Theorem max_tasks_ends_loop :
  (forall fuel max_time avg max_tasks sf args (st st0 st1 : State W) task,
      max_tasks <> 0 ->
      next_task st = (Ret (Some task), st0) ->
      _run (S fuel) task st0 = (Ret tt, st1) ->
      tasks_processed (actor st1) = max_tasks ->
      exists r st2,
        RunActor.run_loop (S fuel) max_time avg max_tasks sf args st = (r, st2)
        /\ (r = Ret tt \/ exists e, r = Exc e)
        /\ count is_process (trace st2) = count is_process (trace st1)
        /\ (sf = None -> r = Ret tt /\ st2 = st1))
  /\ (forall (m fuel0 fuel : nat) avg args (st st' : State W),
         (0 < m)%nat ->
         tasks_processed (actor st) = 0 ->
         after_cycles fuel0 m st = Some st' ->
         (fuel0 + m <= fuel)%nat ->
         RunActor.run_loop fuel None avg (Z.of_nat m) None args st
         = (Ret tt, st')
         /\ tasks_processed (actor st') = Z.of_nat m
         /\ count is_process (trace st')
            = (count is_process (trace st) + m)%nat).
Proof.
  split.
  - intros fuel max_time avg max_tasks sf args st st0 st1 task
      Hmax Hnext Hrun Htp.
    assert (Htest : negb (max_tasks =? 0)
                    && (tasks_processed (actor st1) =? max_tasks) = true).
    { apply andb_true_intro. split.
      - apply negb_true_iff, Z.eqb_neq. exact Hmax.
      - apply Z.eqb_eq. exact Htp. }
    pose proof (spc_stop_checks max_time avg max_tasks sf args st1) as Hcalls.
    pose proof (stop_checks_at_max avg max_tasks sf args st1 max_time Htest)
      as Hstop.
    unfold same_process_calls in Hcalls.
    simpl. unfold bind at 1. rewrite Hnext. unfold bind at 1. rewrite Hrun.
    unfold bind at 1.
    destruct (RunActor.stop_checks max_time avg max_tasks sf args st1)
      as [r st2] eqn:Hchecks. simpl in Hcalls, Hstop.
    destruct Hstop as [->|[e ->]].
    + exists (Ret tt), st2. split; [reflexivity|]. split; [left; reflexivity|].
      split; [exact Hcalls|]. intros ->.
      rewrite (stop_checks_counter avg max_tasks args st1 max_time Htest)
        in Hchecks.
      injection Hchecks as <-. split; reflexivity.
    + exists (Exc e), st2. split; [reflexivity|].
      split; [right; exists e; reflexivity|]. split; [exact Hcalls|].
      intros ->.
      rewrite (stop_checks_counter avg max_tasks args st1 max_time Htest)
        in Hchecks.
      discriminate.
  - intros m fuel0 fuel avg args st st' Hm Htp Ha Hfuel.
    destruct m as [|n]; [lia|].
    exact (stops_after_cycles n 0%nat fuel0 fuel avg args st st' Htp Ha Hfuel).
Qed.

(** C8: with [max_time] set, and when neither the stop function nor the
    task counter ends the loop, the loop ends after a completed cycle
    exactly when the elapsed time plus [avg_time_factor] is greater than
    [max_time]; otherwise it clears the current task and goes on to the
    next task.  With [max_time] 10 and [avg_time_factor] 2 the stop logic
    answers no at an elapsed time of 8, and yes at 8.0001 and already at
    the first double above 8. *)
Theorem max_time_ends_loop :
  (forall fuel mt avg max_tasks sf args (st st0 st1 st2 : State W) task tm
          now w,
      next_task st = (Ret (Some task), st0) ->
      _run (S fuel) task st0 = (Ret tt, st1) ->
      stop_function_declines sf args st1 st2 ->
      negb (max_tasks =? 0) && (tasks_processed (actor st1) =? max_tasks)
      = false ->
      time (actor st1) = Some tm ->
      time_time (world st2) = (now, w) ->
      RunActor.run_loop (S fuel) (Some mt) avg max_tasks sf args st
      = if (mt <? (now - t tm) + avg)%float
        then (Ret tt, set_world w st2)
        else RunActor.run_loop fuel (Some mt) avg max_tasks sf args
               (clear_current_task (set_world w st2)))
  /\ (forall max_tasks sf args (st st1 : State W) tm now w,
         stop_function_declines sf args st st1 ->
         negb (max_tasks =? 0) && (tasks_processed (actor st) =? max_tasks)
         = false ->
         time (actor st) = Some tm ->
         time_time (world st1) = (now, w) ->
         ((now - t tm)%float = 8%float ->
          RunActor.stop_checks (Some 10%float) 2%float max_tasks sf args st
          = (Ret false, set_world w st1))
         /\ ((now - t tm)%float = 8.0001%float ->
             RunActor.stop_checks (Some 10%float) 2%float max_tasks sf args st
             = (Ret true, set_world w st1))
         /\ ((now - t tm)%float = next_up 8%float ->
             RunActor.stop_checks (Some 10%float) 2%float max_tasks sf args st
             = (Ret true, set_world w st1))).
Proof.
  split.
  - intros fuel mt avg max_tasks sf args st st0 st1 st2 task tm now w
      Hnext Hrun Hsf Htest Htm Hnow.
    apply (run_loop_iteration fuel (Some mt) avg max_tasks sf args st st0
             st1 (set_world w st2) task _ Hnext Hrun).
    apply stop_checks_clock; assumption.
  - intros max_tasks sf args st st1 tm now w Hsf Htest Htm Hnow.
    rewrite (stop_checks_clock 2%float max_tasks sf args st st1 10%float tm
               now w Hsf Htest Htm Hnow).
    repeat split; intros ->; reflexivity.
Qed.
End StopClaims.

(** [max_tasks=3] against a source of ten tasks: three cycles, seven tasks
    left in the source. *)
Lemma max_tasks_ends_loop_witness :
  RunActor.run_loop 4 None 0%float 3 None [] (start ten_tasks)
  = (Ret tt, ten_tasks_end)
  /\ count is_process (trace ten_tasks_end) = 3%nat
  /\ List.length (sc_tasks (world ten_tasks_end)) = 7%nat.
Proof.
  destruct (@max_tasks_ends_loop Script _) as [_ Hcount].
  destruct (Hcount 3%nat 1%nat 4%nat 0%float [] (start ten_tasks)
              ten_tasks_end) as (Hloop & _ & Hcalls).
  - lia.
  - reflexivity.
  - vm_compute. reflexivity.
  - lia.
  - split; [exact Hloop|]. split; [exact Hcalls | reflexivity].
Defined.

(** [max_time=10], [avg_time_factor=2]: at an elapsed time of 8 the loop
    goes on to the second task, at 8.0001 it ends; the third task is not
    asked for. *)
Lemma max_time_ends_loop_witness :
  RunActor.run_loop 3 (Some 10%float) 2%float 0 None [] (timed deadline)
  = RunActor.run_loop 2 (Some 10%float) 2%float 0 None []
      (clear_current_task
         (set_world (snd (time_time (world deadline_first))) deadline_first))
  /\ RunActor.run_loop 2 (Some 10%float) 2%float 0 None []
       (clear_current_task
          (set_world (snd (time_time (world deadline_first))) deadline_first))
     = (Ret tt,
        set_world (snd (time_time (world deadline_second))) deadline_second)
  /\ sc_tasks (world deadline_second) = [Yield (token "c")].
Proof.
  destruct (@max_time_ends_loop Script _) as [Hloop _].
  split; [|split].
  - assert (Hlate : (10 <? (8 - t {| t := 0 |}) + 2)%float = false)
      by (vm_compute; reflexivity).
    unshelve epose proof
      (Hloop 2%nat 10%float 2%float 0 None [] (timed deadline)
         (snd (AbstractRunActor.next_task (timed deadline)))
         deadline_first deadline_first (token "a") {| t := 0%float |} 8%float
         (snd (time_time (world deadline_first))) _ _ _ _ _ _) as Hstep;
      [vm_compute; reflexivity .. |].
    rewrite Hlate in Hstep. exact Hstep.
  - assert (Hlate : (10 <? (8.0001 - t {| t := 0 |}) + 2)%float = true)
      by (vm_compute; reflexivity).
    unshelve epose proof
      (Hloop 1%nat 10%float 2%float 0 None []
         (clear_current_task
            (set_world (snd (time_time (world deadline_first)))
               deadline_first))
         (snd (AbstractRunActor.next_task
                 (clear_current_task
                    (set_world (snd (time_time (world deadline_first)))
                       deadline_first))))
         deadline_second deadline_second (token "b") {| t := 0%float |}
         8.0001%float
         (snd (time_time (world deadline_second))) _ _ _ _ _ _) as Hstep;
      [vm_compute; reflexivity .. |].
    rewrite Hlate in Hstep. exact Hstep.
  - reflexivity.
Defined.

(** ** Errors of the processing step *)

Section Processing.
Context {W : Type} `{World W}.
Import AbstractRunActor.

Lemma extends_refl (st : State W) : extends st st.
Proof. exists []. rewrite app_nil_r. reflexivity. Qed.

Lemma extends_trans (st1 st2 st3 : State W) :
  extends st1 st2 -> extends st2 st3 -> extends st1 st3.
Proof.
  intros [evs1 H1] [evs2 H2]. exists (evs1 ++ evs2).
  rewrite H2, H1, app_assoc. reflexivity.
Qed.

Lemma extends_event (st : State W) ev : extends st (add_event ev st).
Proof. exists [ev]. reflexivity. Qed.

Lemma extends_same_trace (st st' : State W) :
  trace st' = trace st -> extends st st'.
Proof. intros Htr. exists []. rewrite app_nil_r. exact Htr. Qed.

Ltac extends_side :=
  first [ exact extends_refl | exact extends_trans
        | intros; apply extends_event
        | intros; apply extends_same_trace; reflexivity
        | intros; reflexivity | intros; exact I ].

Lemma extends_persist_and_finish fuel task :
  preserves extends (persist_and_finish fuel task).
Proof.
  unfold persist_and_finish.
  apply (preserves_bind _ extends_trans).
  - apply preserves_save_loop
      with (okev := fun _ => true) (okact := fun _ _ => True);
      extends_side.
  - intros _. apply (preserves_bind _ extends_trans).
    + apply preserves_call_hook with (okev := fun _ => true);
        extends_side.
    + intros _. intros st. apply extends_same_trace. reflexivity.
Qed.

(** The steps after the [try] statement begin with a save of the task the
    cycle holds. *)
Lemma persist_first fuel task (st : State W) task0 :
  current_task (actor st) = Some task0 ->
  exists r rest,
    trace (snd (persist_and_finish (S fuel) task st))
    = trace st ++ [EvSave task0 r] ++ rest.
Proof.
  intros Hc. unfold persist_and_finish.
  destruct (db_save (db (actor st)) task0 (world st)) as [[[]|e] w] eqn:Hs.
  - unfold bind at 1. rewrite (save_loop_ok _ _ _ _ _ Hc Hs).
    match goal with
    | |- context [snd (?m ?s)] =>
        assert (Hext : extends s (snd (m s)))
    end.
    { apply (preserves_bind _ extends_trans).
      - apply preserves_call_hook with (okev := fun _ => true);
          extends_side.
      - intros _. intros st0. apply extends_same_trace. reflexivity. }
    destruct Hext as [evs Hext]. exists (Ok tt), evs. rewrite Hext.
    simpl. rewrite <- app_assoc. reflexivity.
  - destruct (is_ResourceConflict (exn_class e)) eqn:He.
    + destruct (db_get (db (actor st)) (task_id task0) w)
        as [[new_task|e'] w'] eqn:Hg.
      * pose proof (extends_persist_and_finish fuel task
                      (after_conflict st task0 e new_task w')) as [evs Hext].
        unfold persist_and_finish in Hext. unfold bind at 1 in Hext.
        unfold bind at 1.
        rewrite (save_loop_conflict _ _ _ _ _ _ _ _ Hc Hs He Hg).
        exists (Raise e), (EvGet (task_id task0) :: evs). rewrite Hext.
        simpl. rewrite <- app_assoc. reflexivity.
      * unfold bind at 1.
        rewrite (save_loop_refetch_fails _ _ _ _ _ _ _ _ Hc Hs He Hg).
        exists (Raise e), [EvGet (task_id task0)]. simpl.
        rewrite <- app_assoc. reflexivity.
    + unfold bind at 1. rewrite (save_loop_error _ _ _ _ _ _ Hc Hs He).
      exists (Raise e), []. reflexivity.
Qed.

Lemma run_after_processing fuel task (st : State W) w1 po w2 :
  prepare_run (world st) = (Ok tt, w1) ->
  process_task task w1 = (po, w2) ->
  match po_end po with
  | PReturn =>
      _run fuel task st
      = persist_and_finish fuel task
          (processed st task (po_task po) (po_subprocess po) w2 [])
  | PRaise ex =>
      is_Exception (exn_class ex) = true ->
      _run fuel task st
      = persist_and_finish fuel task
          (processed st task
             (Task_error (po_task po) (processing_message ex) ex)
             (po_subprocess po) w2 [processing_message ex])
  | PSignal _ => True
  end.
Proof.
  intros Hprep Hproc.
  destruct (po_end po) as [|ex|s] eqn:Hend; [|intros Hex|exact I].
  all: unfold _run, persist_and_finish, call_process_task, update_task.
  all: unfold bind at 1; unfold call_hook at 1; unfold_monad; simpl.
  all: rewrite Hprep; simpl; rewrite Hproc; simpl; rewrite Hend; simpl.
  all: try rewrite Hex; simpl.
  all: unfold processed, add_log, add_event, set_actor, set_world; simpl.
  all: rewrite <- ?app_assoc, ?app_nil_r; reflexivity.
Qed.
(** C2: an exception that [process_task] raises (an instance of
    [Exception], which is what the [except] clause names) does not leave
    the cycle.  The task gets an error annotation made of the message with
    the exception's class and text, the message is logged, and the cycle
    goes on with the save loop exactly as it does after a call that
    returned: its first call is a save of the annotated task.  When the
    store accepts that save and the post-task hook returns, the cycle ends
    normally with the annotated task saved, and the loop of [run] goes on
    to ask the iterator for the next task. *)
Theorem processing_error_is_contained :
  forall fuel task (st : State W) w1 task1 sp ex w2,
    prepare_run (world st) = (Ok tt, w1) ->
    process_task task w1
    = ({| po_task := task1; po_subprocess := sp; po_end := PRaise ex |}, w2) ->
    is_Exception (exn_class ex) = true ->
    let msg := processing_message ex in
    let failed := Task_error task1 msg ex in
    task_error failed = Some {| err_message := msg; err_exception := ex |}
    /\ _run fuel task st
       = persist_and_finish fuel task (processed st task failed sp w2 [msg])
    /\ (forall task1' sp' w2',
           process_task task w1
           = ({| po_task := task1'; po_subprocess := sp';
                 po_end := PReturn |}, w2') ->
           _run fuel task st
           = persist_and_finish fuel task (processed st task task1' sp' w2' []))
    /\ (exists r rest,
           trace (snd (_run (S fuel) task st))
           = trace st ++ [EvPrepareRun; EvProcess task; EvSave failed r]
               ++ rest)
    /\ (forall w3 w4,
           db_save (db (actor st)) failed w2 = (Ok tt, w3) ->
           cleanup_run w3 = (Ok tt, w4) ->
           _run (S fuel) task st
           = (Ret tt, cycle_done st task failed sp w4 [msg])
           /\ (forall st0,
                  next_task st0 = (Ret (Some task), st) ->
                  AbstractRunActor.run_loop (S fuel) st0
                  = AbstractRunActor.run_loop fuel
                      (clear_current_task
                         (cycle_done st task failed sp w4 [msg])))).
Proof.
  intros fuel task st w1 task1 sp ex w2 Hprep Hproc Hex msg failed.
  assert (Hrun : forall fuel',
             _run fuel' task st
             = persist_and_finish fuel' task
                 (processed st task failed sp w2 [msg])).
  { intros fuel'.
    exact (run_after_processing fuel' task st w1 _ w2 Hprep Hproc Hex). }
  split; [reflexivity|]. split; [apply Hrun|]. split; [|split].
  - intros task1' sp' w2' Hproc'.
    exact (run_after_processing fuel task st w1 _ w2' Hprep Hproc').
  - rewrite Hrun.
    destruct (persist_first fuel task (processed st task failed sp w2 [msg])
                failed eq_refl) as (r & rest & Htr).
    exists r, rest. rewrite Htr. simpl. rewrite <- app_assoc. reflexivity.
  - intros w3 w4 Hsave Hclean.
    assert (Hdone : _run (S fuel) task st
                    = (Ret tt, cycle_done st task failed sp w4 [msg])).
    { rewrite Hrun. unfold persist_and_finish. unfold bind at 1.
      rewrite (save_loop_ok fuel task (processed st task failed sp w2 [msg])
                 failed w3 eq_refl Hsave).
      unfold_monad. simpl. rewrite Hclean. simpl.
      unfold cycle_done, add_event, set_actor, set_world. simpl.
      rewrite <- !app_assoc. reflexivity. }
    split; [exact Hdone|].
    intros st0 Hnext. simpl. unfold bind at 1. rewrite Hnext.
    unfold bind at 1. rewrite Hdone. reflexivity.
Qed.
End Processing.

(** The user's code raises [ValueError] on task [a]: the annotated task is
    saved, the cycle ends normally and the loop goes on to task [b]. *)
Lemma processing_error_is_contained_witness :
  let failed :=
    Task_error (token "a") (AbstractRunActor.processing_message bad_input)
      bad_input in
  AbstractRunActor._run 1 (token "a") failing_cycle
  = (Ret tt,
     cycle_done failing_cycle (token "a") failed None
       (with_tasks [Yield (token "b")]
          {| sc_tasks := []; sc_process := []; sc_saves := []; sc_gets := [];
             sc_prepare_env := []; sc_prepare_run := [];
             sc_cleanup_run := []; sc_cleanup_env := []; sc_stop := [];
             sc_clock := []; sc_poll := []; sc_communicate := [];
             sc_stored := [failed] |})
       [AbstractRunActor.processing_message bad_input])
  /\ AbstractRunActor.processing_message bad_input
     = "Exception <class 'ValueError'> occurred during processing: bad input".
Proof.
  intros failed. split; [|reflexivity].
  unshelve epose proof
    (@processing_error_is_contained Script _ 0%nat (token "a") failing_cycle
       (snd (prepare_run (world failing_cycle))) (token "a") None bad_input
       (snd (process_task (token "a")
               (snd (prepare_run (world failing_cycle))))) _ _ _)
    as (_ & _ & _ & _ & Hdone);
    [vm_compute; reflexivity .. |].
  unshelve epose proof (Hdone _ _ _ _) as [Hrun _];
    [| | vm_compute; reflexivity | vm_compute; reflexivity |].
  exact Hrun.
Defined.

(** ** The current task after the loop *)

(** C1 fails in [RunActor.run]: its [break] statements leave the loop
    before [self.current_task = None], which is the last statement of the
    loop body, after the stop logic.  With [max_tasks=1] and two tasks in
    the source, [run] returns after the first cycle; task [a] has been saved
    and counted, and is still the current task.  A termination signal
    handled in that state writes the reset pair over the finished task.
    The loop of [AbstractRunActor.run], which clears the field right after
    the cycle, ends with no current task. *)
Theorem current_task_left_after_break :
  let st' := snd (RunActor.run 5 None 0%float 1 None [] (start two_tasks)) in
  fst (RunActor.run 5 None 0%float 1 None [] (start two_tasks)) = Ret tt
  /\ tasks_processed (actor st') = 1
  /\ sc_stored (world st') = [token "a"]
  /\ current_task (actor st') = Some (token "a")
  /\ trace (snd (AbstractRunActor.handler SIGTERM st'))
     = trace st' ++ [EvSignal SIGTERM;
                     EvSave (reset_task 0 0 (token "a")) (Ok tt);
                     EvCleanupEnv; EvExit 0]
  /\ current_task
       (actor (snd (AbstractRunActor.run 5 (start two_tasks)))) = None.
Proof.
  vm_compute. repeat split.
Qed.

(** The exit the handler begins is not always the end of the process:
    when the teardown hook raises as [run] calls it again, the run ends
    with that exception although the handler has called [exit(0)]. *)
Lemma exit_replaced_by_failing_teardown :
  RunActor.run 5 None 0%float 0 None [] (start teardown_fails_later)
  = teardown_fails_later_run
  /\ fst teardown_fails_later_run = Exc disk_error
  /\ In (EvExit 0) (trace (snd teardown_fails_later_run))
  /\ count is_cleanup_env (trace (snd teardown_fails_later_run)) = 2%nat.
Proof.
  split; [vm_compute; reflexivity|]. split; [reflexivity|].
  split; [vm_compute; tauto | reflexivity].
Qed.

(** * Further properties of the actors *)

(** ** What the handler leaves of the actor *)

Section HandlerFrame.
Context {W : Type} `{World W}.
Import AbstractRunActor.

Lemma handler_actor (s : Signal) (st : State W) :
  actor (snd (handler s st)) = handled (actor st).
Proof.
  unfold handler, handled. unfold_monad. simpl.
  repeat (destruct_match; simpl); reflexivity.
Qed.

Lemma handler_raises (s : Signal) (st : State W) :
  exists e, fst (handler s st) = Exc e.
Proof.
  destruct (handler_shape s st) as (rv & fin & _ & _ & Hend).
  destruct Hend as [(task & e & _ & _ & He) | (_ & [(_ & He) | (e & _ & He)])];
    eauto.
Qed.

End HandlerFrame.

Section HandlerFrameClaims.
Context {W : Type} `{World W}.
Import AbstractRunActor.

(** X1: the handler never returns to the code it interrupted: it ends with
    an exception, whatever the world answers.  Of the actor it changes
    nothing but the lock and done fields of the current task: the
    database, the iterator, the reset pair, the tracked subprocess (also
    after it was killed), the counter and the timer are as before, the
    current task keeps its id, revision, payload and error slot, and
    with the reset disabled the task is untouched. *)
Theorem handler_changes_only_lock_and_done (s : Signal) (st : State W) :
  let a := actor st in
  let a' := actor (snd (handler s st)) in
  (exists e, fst (handler s st) = Exc e)
  /\ db a' = db a /\ iterator a' = iterator a
  /\ token_reset_values a' = token_reset_values a
  /\ subprocess a' = subprocess a
  /\ tasks_processed a' = tasks_processed a
  /\ time a' = time a
  /\ match current_task a, current_task a' with
     | Some task, Some task' =>
         task_id task' = task_id task /\ task_rev task' = task_rev task
         /\ task_payload task' = task_payload task
         /\ task_error task' = task_error task
         /\ (forall lock done,
                token_reset_values a = Some (lock, done) ->
                task_lock task' = lock /\ task_done task' = done)
         /\ (token_reset_values a = None -> task' = task)
     | None, None => True
     | _, _ => False
     end.
Proof.
  intros a a'. split; [apply handler_raises|].
  subst a'. rewrite handler_actor. subst a. unfold handled.
  destruct (current_task (actor st)) as [task|] eqn:Htask;
    [destruct (token_reset_values (actor st)) as [[l d]|] eqn:Hreset|];
    simpl; rewrite ?Htask, ?Hreset; repeat split; congruence.
Qed.
End HandlerFrameClaims.

(** ** The loop of [AbstractRunActor.run] *)

Section AbstractLoop.
Context {W : Type} `{World W}.
Import AbstractRunActor.

Lemma next_task_actor (st st0 : State W) r :
  next_task st = (Ret r, st0) -> actor st0 = actor st.
Proof.
  unfold next_task. unfold_monad. simpl.
  destruct (iter_next _ _) as [[task| |e|s] w]; simpl;
    try (intros Heq; injection Heq as _ <-; reflexivity);
    try discriminate.
  destruct (handler_raises s
              (set_world w (add_event EvNext st))) as (e & He).
  unfold set_world, add_event in He. simpl in He.
  destruct (handler s _) as [[u|e'|] st1]; simpl in He; discriminate.
Qed.
End AbstractLoop.
Section AbstractRun.
Context {W : Type} `{World W}.
Import AbstractRunActor.

Lemma try_finally_returns {A} (body : M W A) (final : M W unit) st a st' :
  try_finally body final st = (Ret a, st') ->
  exists st1, body st = (Ret a, st1) /\ final st1 = (Ret tt, st').
Proof.
  unfold try_finally.
  destruct (body st) as [[b|e|] st1]; try discriminate;
    destruct (final st1) as [[[]|e'|] st2] eqn:Hfinal; try discriminate.
  intros Heq; injection Heq as -> ->. exists st1. split; [reflexivity|].
  exact Hfinal.
Qed.

Lemma call_hook_actor ev (hook : W -> result unit * W) (st st' : State W) r :
  call_hook ev hook st = (r, st') -> actor st' = actor st.
Proof.
  unfold_monad. simpl. destruct (hook (world st)) as [[u|e] w];
    intros Heq; injection Heq as _ <-; reflexivity.
Qed.

Lemma abstract_loop_clears fuel :
  forall (st st' : State W),
    current_task (actor st) = None ->
    run_loop fuel st = (Ret tt, st') ->
    current_task (actor st') = None.
Proof.
  induction fuel as [|fuel IH]; intros st st' Hnone Hrun.
  - discriminate.
  - simpl in Hrun. unfold bind at 1 in Hrun.
    destruct (next_task st) as [[[task|]|e|] st0] eqn:Hnext;
      try discriminate.
    + unfold bind at 1 in Hrun.
      destruct (_run (S fuel) task st0) as [[[]|e|] st1]; try discriminate.
      unfold bind at 1 in Hrun. unfold modify_actor in Hrun.
      apply IH in Hrun; [exact Hrun | reflexivity].
    + unfold ret in Hrun. injection Hrun as <-.
      rewrite (next_task_actor _ _ _ Hnext). exact Hnone.
Qed.

(** X2: when [AbstractRunActor.run] returns, no task is current: every
    completed iteration of its loop ends with [self.current_task = None],
    and nothing before or after the loop sets the field. *)
Theorem abstract_run_leaves_no_current_task :
  forall fuel (st st' : State W),
    current_task (actor st) = None ->
    run fuel st = (Ret tt, st') ->
    current_task (actor st') = None.
Proof.
  intros fuel st st' Hnone Hrun. unfold run, setup_handler, Timer_new in Hrun.
  unfold bind, ret, emit, log_info, ext, modify_actor in Hrun. simpl in Hrun.
  destruct (time_time (world st)) as [now w0]. simpl in Hrun.
  destruct (call_hook EvPrepareEnv prepare_env _) as [[[]|e|] st1] eqn:Hprep;
    try discriminate.
  apply try_finally_returns in Hrun. destruct Hrun as (st2 & Hloop & Hfin).
  apply call_hook_actor in Hfin. rewrite Hfin.
  apply (abstract_loop_clears _ _ _) in Hloop; [exact Hloop|].
  apply call_hook_actor in Hprep. rewrite Hprep. simpl. exact Hnone.
Qed.
End AbstractRun.

(** ** What the counter counts *)

Section Accounting.
Context {W : Type} `{World W}.
Import AbstractRunActor.

Lemma stp_stop_checks max_time avg max_tasks sf args :
  preserves same_tasks_processed
    (RunActor.stop_checks max_time avg max_tasks sf args).
Proof.
  apply preserves_stop_checks with (okev := fun _ => true);
    first [ intros; reflexivity
          | intros; unfold same_tasks_processed in *; simpl; congruence ].
Qed.

Lemma run_failed_not_counted fuel task (st st' : State W) r :
  _run fuel task st = (r, st') ->
  r <> Ret tt ->
  tasks_processed (actor st') = tasks_processed (actor st).
Proof.
  rewrite run_steps. unfold bind.
  pose proof (stp_cycle_steps fuel task st) as Hsame.
  destruct (cycle_steps fuel task st) as [[[]|e|] st1];
    unfold same_tasks_processed in Hsame; simpl in Hsame.
  - unfold modify_actor. intros [= <- <-] Hr. contradiction Hr. reflexivity.
  - intros [= <- <-] _. exact Hsame.
  - intros [= <- <-] _. exact Hsame.
Qed.

Lemma run_process_at_most_once fuel task (st st' : State W) r :
  _run fuel task st = (r, st') ->
  count is_process (trace st') = count is_process (trace st)
  \/ count is_process (trace st') = (count is_process (trace st) + 1)%nat.
Proof.
  unfold _run. unfold bind at 1.
  pose proof (spc_call_hook EvPrepareRun prepare_run eq_refl st) as H1.
  destruct (call_hook EvPrepareRun prepare_run st) as [[[]|e|] st1];
    unfold same_process_calls in H1; simpl in H1;
    try (intros [= <- <-]; left; exact H1).
  unfold bind at 1. unfold modify_actor at 1. unfold bind at 1.
  pose proof (processing_once task
                (set_actor (set_current_task (Some task) (actor st1)) st1))
    as H2.
  destruct (try_except _ _ _ _) as [[[]|e|] st3]; simpl in H2;
    try (intros [= <- <-]; right; congruence).
  unfold bind at 1.
  pose proof (spc_save_loop fuel task st3) as H3.
  destruct (save_loop fuel task st3) as [[[]|e|] st4];
    unfold same_process_calls in H3; simpl in H3;
    try (intros [= <- <-]; right; congruence).
  unfold bind at 1.
  pose proof (spc_call_hook EvCleanupRun cleanup_run eq_refl st4) as H4.
  destruct (call_hook EvCleanupRun cleanup_run st4) as [[[]|e|] st5];
    unfold same_process_calls in H4; simpl in H4;
    unfold modify_actor; intros [= <- <-]; right; simpl; congruence.
Qed.

Lemma run_accounting fuel task (st st' : State W) r :
  _run fuel task st = (r, st') ->
  all_but_one_counted st st' /\ (r = Ret tt -> all_counted st st').
Proof.
  intros Hrun. unfold all_but_one_counted, all_counted.
  destruct r as [[]|e|].
  - pose proof (run_tasks_processed _ _ _ _ Hrun) as Htp.
    pose proof (run_process_calls _ _ _ _ Hrun) as Hcp.
    rewrite Htp, Hcp. split; [left|intros _]; lia.
  - pose proof (run_failed_not_counted _ _ _ _ _ Hrun) as Htp.
    pose proof (run_process_at_most_once _ _ _ _ _ Hrun) as Hcp.
    rewrite Htp by discriminate.
    split; [|discriminate]. destruct Hcp as [-> | ->]; [left|right]; lia.
  - pose proof (run_failed_not_counted _ _ _ _ _ Hrun) as Htp.
    pose proof (run_process_at_most_once _ _ _ _ _ Hrun) as Hcp.
    rewrite Htp by discriminate.
    split; [|discriminate]. destruct Hcp as [-> | ->]; [left|right]; lia.
Qed.

Lemma same_counts_all_counted (st st' : State W) :
  same_tasks_processed st st' -> same_process_calls st st' ->
  all_counted st st'.
Proof.
  unfold same_tasks_processed, same_process_calls, all_counted.
  intros -> ->. reflexivity.
Qed.

Lemma all_counted_trans (st1 st2 st3 : State W) :
  all_counted st1 st2 -> all_counted st2 st3 -> all_counted st1 st3.
Proof. unfold all_counted. lia. Qed.

Lemma all_counted_then (st1 st2 st3 : State W) :
  all_counted st1 st2 -> all_but_one_counted st2 st3 ->
  all_but_one_counted st1 st3.
Proof. unfold all_counted, all_but_one_counted. lia. Qed.

Lemma all_counted_weaken (st st' : State W) :
  all_counted st st' -> all_but_one_counted st st'.
Proof. unfold all_counted, all_but_one_counted. lia. Qed.

Lemma next_task_counted (st : State W) :
  all_counted st (snd (next_task st)).
Proof.
  apply same_counts_all_counted; [apply stp_next_task | apply spc_next_task].
Qed.

Lemma stop_checks_counted max_time avg max_tasks sf args (st : State W) :
  all_counted st
    (snd (RunActor.stop_checks max_time avg max_tasks sf args st)).
Proof.
  apply same_counts_all_counted;
    [apply stp_stop_checks | apply spc_stop_checks].
Qed.

Lemma run_loop_accounting fuel max_time avg max_tasks sf args :
  forall (st st' : State W) r,
    RunActor.run_loop fuel max_time avg max_tasks sf args st = (r, st') ->
    all_but_one_counted st st' /\ (r = Ret tt -> all_counted st st').
Proof.
  induction fuel as [|fuel IH]; intros st st' r Hrun.
  - injection Hrun as <- <-. split; [left; reflexivity | discriminate].
  - simpl in Hrun. unfold bind at 1 in Hrun.
    pose proof (next_task_counted st) as Hnext.
    destruct (next_task st) as [[[task|]|e|] st0]; simpl in Hnext;
      try (injection Hrun as <- <-;
           split; [apply all_counted_weaken|intros _]; exact Hnext).
    unfold bind at 1 in Hrun.
    destruct (_run (S fuel) task st0) as [[[]|e|] st1] eqn:Hcycle;
      apply run_accounting in Hcycle; destruct Hcycle as [Hweak Hall];
      try (injection Hrun as <- <-;
           split; [|discriminate];
           exact (all_counted_then _ _ _ Hnext Hweak)).
    specialize (Hall eq_refl).
    pose proof (all_counted_trans _ _ _ Hnext Hall) as Hcycle.
    unfold bind at 1 in Hrun.
    pose proof (stop_checks_counted max_time avg max_tasks sf args st1)
      as Hstop.
    destruct (RunActor.stop_checks _ _ _ _ _ st1) as [[[|]|e|] st2];
      simpl in Hstop;
      pose proof (all_counted_trans _ _ _ Hcycle Hstop) as Hiter;
      try (injection Hrun as <- <-;
           split; [apply all_counted_weaken|intros _]; exact Hiter).
    unfold bind at 1 in Hrun. unfold modify_actor in Hrun.
    apply IH in Hrun. destruct Hrun as [Hweak' Hall'].
    assert (Hclear : all_counted st
              (set_actor (set_current_task None (actor st2)) st2))
      by exact Hiter.
    split.
    + exact (all_counted_then _ _ _ Hclear Hweak').
    + intros Hr. exact (all_counted_trans _ _ _ Hclear (Hall' Hr)).
Qed.

Lemma abstract_run_loop_accounting fuel :
  forall (st st' : State W) r,
    AbstractRunActor.run_loop fuel st = (r, st') ->
    all_but_one_counted st st' /\ (r = Ret tt -> all_counted st st').
Proof.
  induction fuel as [|fuel IH]; intros st st' r Hrun.
  - injection Hrun as <- <-. split; [left; reflexivity | discriminate].
  - simpl in Hrun. unfold bind at 1 in Hrun.
    pose proof (next_task_counted st) as Hnext.
    destruct (next_task st) as [[[task|]|e|] st0]; simpl in Hnext;
      try (injection Hrun as <- <-;
           split; [apply all_counted_weaken|intros _]; exact Hnext).
    unfold bind at 1 in Hrun.
    destruct (_run (S fuel) task st0) as [[[]|e|] st1] eqn:Hcycle;
      apply run_accounting in Hcycle; destruct Hcycle as [Hweak Hall];
      try (injection Hrun as <- <-;
           split; [|discriminate];
           exact (all_counted_then _ _ _ Hnext Hweak)).
    specialize (Hall eq_refl).
    pose proof (all_counted_trans _ _ _ Hnext Hall) as Hcycle.
    unfold bind at 1 in Hrun. unfold modify_actor in Hrun.
    apply IH in Hrun. destruct Hrun as [Hweak' Hall'].
    assert (Hclear : all_counted st
              (set_actor (set_current_task None (actor st1)) st1))
      by exact Hcycle.
    split.
    + exact (all_counted_then _ _ _ Hclear Hweak').
    + intros Hr. exact (all_counted_trans _ _ _ Hclear (Hall' Hr)).
Qed.

(** X3: [tasks_processed] counts the cycles that ran to their end.  Over
    the loop of either [run] method the counter never overtakes the calls
    of [process_task] and lags at most one behind them (the cycle in which
    the loop was left by an exception or failed to terminate); when the
    loop ends normally, through the end of the iterator or a stop
    criterion, every task handed to [process_task] has been counted. *)
Theorem counter_counts_completed_cycles :
  forall fuel max_time avg max_tasks sf args (st st' : State W) r,
    RunActor.run_loop fuel max_time avg max_tasks sf args st = (r, st')
    \/ AbstractRunActor.run_loop fuel st = (r, st') ->
    all_but_one_counted st st' /\ (r = Ret tt -> all_counted st st').
Proof.
  intros fuel max_time avg max_tasks sf args st st' r [Hrun | Hrun].
  - exact (run_loop_accounting _ _ _ _ _ _ _ _ _ Hrun).
  - exact (abstract_run_loop_accounting _ _ _ _ Hrun).
Qed.
End Accounting.

(** ** A signal while [process_task] runs *)

Section SignalInCycle.
Context {W : Type} `{World W}.
Import AbstractRunActor.

Lemma run_after_signal fuel task (st : State W) w1 task1 sp s w2 :
  prepare_run (world st) = (Ok tt, w1) ->
  process_task task w1
  = ({| po_task := task1; po_subprocess := sp; po_end := PSignal s |}, w2) ->
  _run fuel task st
  = match handler s (in_processing st task task1 sp w2) with
    | (Ret _, st') => persist_and_finish fuel task st'
    | (Exc e, st') =>
        if is_Exception (exn_class e)
        then persist_and_finish fuel task (annotated e st')
        else (Exc e, st')
    | (Diverge, st') => (Diverge, st')
    end.
Proof.
  intros Hprep Hproc.
  unfold _run, persist_and_finish, call_process_task, update_task.
  unfold bind at 1; unfold call_hook at 1; unfold_monad; simpl.
  rewrite Hprep; simpl; rewrite Hproc; simpl.
  unfold in_processing, annotated, add_log, add_event, set_actor, set_world;
    simpl.
  rewrite <- ?app_assoc. simpl.
  destruct (handler s _) as [[[]|e|] st1]; try reflexivity.
  destruct (is_Exception (exn_class e)); reflexivity.
Qed.

(** X4: a signal that arrives while [process_task] runs enters the handler
    inside the [try] statement of [_run], so the handler's exception
    surfaces there.  The [SystemExit] of [exit(0)], like any exception
    that is no instance of [Exception], leaves the cycle: nothing more is
    saved.  But when the handler itself fails with an instance of
    [Exception] (its save or the teardown hook raised), the
    [except Exception] clause catches that failure like an error of the
    user's code: the task object, into which the handler has written the
    reset values, is handed to [Task.error], and what that call returns
    is saved by the loop; its error slot names the handler's exception,
    and its lock and done fields are what [Task.error] leaves in them,
    which need not be the reset values.  The cycle goes on; the worker
    does not shut down. *)
Theorem handler_failure_is_caught_by_cycle :
  forall fuel task (st : State W) w1 task1 sp s w2 e,
    prepare_run (world st) = (Ok tt, w1) ->
    process_task task w1
    = ({| po_task := task1; po_subprocess := sp; po_end := PSignal s |},
       w2) ->
    let entered := in_processing st task task1 sp w2 in
    let left := snd (handler s entered) in
    let reset := handled_task (token_reset_values (actor st)) task1 in
    let failed := Task_error reset (processing_message e) e in
    fst (handler s entered) = Exc e ->
    (is_Exception (exn_class e) = false ->
     _run fuel task st = (Exc e, left))
    /\ (is_Exception (exn_class e) = true ->
        _run fuel task st = persist_and_finish fuel task (annotated e left)
        /\ current_task (actor (annotated e left)) = Some failed
        /\ (exists r rest,
               trace (snd (_run (S fuel) task st))
               = trace left ++ [EvSave failed r] ++ rest)
        /\ (forall lock done,
               token_reset_values (actor st) = Some (lock, done) ->
               task_lock reset = lock /\ task_done reset = done)
        /\ task_lock failed = fst (Task_error_lock_done reset)
        /\ task_done failed = snd (Task_error_lock_done reset)
        /\ task_error failed
           = Some {| err_message := processing_message e;
                     err_exception := e |}).
Proof.
  intros fuel task st w1 task1 sp s w2 e Hprep Hproc entered left reset
    failed Hexc.
  assert (Hrun : forall fuel',
             _run fuel' task st
             = if is_Exception (exn_class e)
               then persist_and_finish fuel' task (annotated e left)
               else (Exc e, left)).
  { intros fuel'. rewrite (run_after_signal _ _ _ _ _ _ _ _ Hprep Hproc).
    subst left. fold entered. destruct (handler s entered) as [r st1].
    simpl in Hexc. subst r. reflexivity. }
  assert (Htask : current_task (actor (annotated e left)) = Some failed).
  { subst left failed reset. unfold annotated. simpl.
    rewrite handler_actor. subst entered. unfold handled, handled_task.
    simpl. destruct (token_reset_values (actor st)) as [[lock done]|];
      reflexivity. }
  split; intros Hclass; rewrite ?Hrun, Hclass; [reflexivity|].
  split; [reflexivity|]. split; [exact Htask|]. split.
  - destruct (persist_first fuel task _ _ Htask) as (r & rest & Htrace).
    exists r, rest. exact Htrace.
  - split; [|repeat split].
    intros lock done Hreset. subst reset. rewrite Hreset.
    split; reflexivity.
Qed.
End SignalInCycle.

(** ** Cycles and runs that are cut short *)

Section CutShort.
Context {W : Type} `{World W}.
Import AbstractRunActor.

(** X5: the ways a cycle is cut short.  When the pre-task hook raises, the
    task is neither made the current task nor processed nor saved.  An
    exception of [process_task] that is no instance of [Exception] (a
    [KeyboardInterrupt], a [SystemExit]) is not caught: the task is not
    saved and stays the current task.  When the post-task hook raises,
    the task has been saved but is not counted. *)
Theorem cycle_cut_short :
  forall fuel task (st : State W),
    (forall e w1,
        prepare_run (world st) = (Raise e, w1) ->
        _run fuel task st
        = (Exc e, set_world w1 (add_event EvPrepareRun st)))
    /\ (forall w1 task1 sp ex w2,
           prepare_run (world st) = (Ok tt, w1) ->
           process_task task w1
           = ({| po_task := task1; po_subprocess := sp;
                 po_end := PRaise ex |}, w2) ->
           is_Exception (exn_class ex) = false ->
           _run fuel task st = (Exc ex, in_processing st task task1 sp w2))
    /\ (forall w1 task1 sp w2 w3 e w4,
           prepare_run (world st) = (Ok tt, w1) ->
           process_task task w1
           = ({| po_task := task1; po_subprocess := sp;
                 po_end := PReturn |}, w2) ->
           db_save (db (actor st)) task1 w2 = (Ok tt, w3) ->
           cleanup_run w3 = (Raise e, w4) ->
           _run (S fuel) task st = (Exc e, cycle_saved st task task1 sp w4)
           /\ tasks_processed (actor (cycle_saved st task task1 sp w4))
              = tasks_processed (actor st)).
Proof.
  intros fuel task st. split; [|split].
  - intros e w1 Hprep. unfold _run. unfold bind at 1.
    unfold call_hook. unfold_monad. simpl. rewrite Hprep. reflexivity.
  - intros w1 task1 sp ex w2 Hprep Hproc Hex.
    unfold _run, call_process_task, update_task.
    unfold bind at 1; unfold call_hook at 1; unfold_monad; simpl.
    rewrite Hprep; simpl; rewrite Hproc; simpl. rewrite Hex.
    unfold in_processing, add_event, set_actor, set_world; simpl.
    rewrite <- ?app_assoc. reflexivity.
  - intros w1 task1 sp w2 w3 e w4 Hprep Hproc Hsave Hclean.
    split; [|reflexivity].
    pose proof (run_after_processing (S fuel) task st w1 _ w2 Hprep Hproc)
      as Hrun.
    simpl in Hrun. rewrite Hrun. unfold persist_and_finish.
    unfold bind at 1.
    rewrite (save_loop_ok fuel task _ task1 w3); [|reflexivity|exact Hsave].
    unfold bind at 1. unfold call_hook. unfold_monad. simpl.
    rewrite Hclean. unfold cycle_saved, add_event, set_world. simpl.
    rewrite <- ?app_assoc, ?app_nil_r. reflexivity.
Qed.

(** X6: the pre-run hook is called outside the [try] statement of [run].
    When it raises, the run ends with that exception before any task is
    asked for and without the teardown hook being called; in
    [RunActor.run], which calls the hook first, the signal handlers have
    not been installed either, while [AbstractRunActor.run] has installed
    them. *)
Theorem prepare_env_failure_skips_teardown :
  forall fuel max_time avg max_tasks sf args (st : State W) now w0 e w,
    time_time (world st) = (now, w0) ->
    prepare_env w0 = (Raise e, w) ->
    RunActor.run fuel max_time avg max_tasks sf args st
    = (Exc e, not_prepared st now w [EvPrepareEnv] [])
    /\ AbstractRunActor.run fuel st
       = (Exc e,
          not_prepared st now w
            [EvSignalHandler SIGTERM; EvSignalHandler SIGINT; EvPrepareEnv]
            ["Setting up signal handlers"]).
Proof.
  intros fuel max_time avg max_tasks sf args st now w0 e w Hclock Hprep.
  split.
  - unfold RunActor.run, Timer_new. unfold_monad. simpl.
    rewrite Hclock. simpl. rewrite Hprep.
    unfold not_prepared, add_event, set_world, set_actor. simpl.
    rewrite app_nil_r. reflexivity.
  - unfold AbstractRunActor.run, setup_handler, Timer_new. unfold_monad.
    simpl. rewrite Hclock. simpl. rewrite Hprep.
    unfold not_prepared, add_event, add_log, set_world, set_actor. simpl.
    rewrite <- ?app_assoc. reflexivity.
Qed.
End CutShort.

(** ** What [run] does before its loop *)

Section Prologue.
Context {W : Type} `{World W}.
Import AbstractRunActor.

Lemma continues_refl (st : State W) : continues st st.
Proof. exists []. rewrite app_nil_r. split; reflexivity. Qed.

Lemma continues_trans (st1 st2 st3 : State W) :
  continues st1 st2 -> continues st2 st3 -> continues st1 st3.
Proof.
  intros (evs1 & H1 & Hc1) (evs2 & H2 & Hc2). exists (evs1 ++ evs2).
  rewrite H2, H1, app_assoc, count_app, Hc1, Hc2. split; reflexivity.
Qed.

Lemma continues_event (st : State W) ev :
  not_install ev = true -> continues st (add_event ev st).
Proof.
  intros Hev. exists [ev]. split; [reflexivity|].
  unfold count. simpl. unfold not_install in Hev.
  destruct (is_install ev); [discriminate|reflexivity].
Qed.

Lemma continues_same_trace (st st' : State W) :
  trace st' = trace st -> continues st st'.
Proof.
  intros Htr. exists []. rewrite app_nil_r. split; [exact Htr|reflexivity].
Qed.

Ltac continues_side :=
  first [ exact continues_refl | exact continues_trans
        | exact continues_event
        | intros; apply continues_same_trace; reflexivity
        | intros; reflexivity | intros; exact I ].

Lemma continues_handler s : preserves continues (handler s).
Proof.
  apply preserves_handler
    with (okev := not_install) (okact := fun _ _ => True);
    try continues_side.
  intros ev. destruct ev; simpl; intros; try discriminate; reflexivity.
Qed.

Lemma continues_run_loop fuel max_time avg max_tasks sf args :
  preserves continues
    (RunActor.run_loop fuel max_time avg max_tasks sf args).
Proof.
  apply preserves_run_loop
    with (okev := not_install) (okact := fun _ _ => True);
    first [exact continues_handler | continues_side].
Qed.

Lemma continues_abstract_run_loop fuel :
  preserves continues (AbstractRunActor.run_loop fuel).
Proof.
  apply preserves_abstract_run_loop
    with (okev := not_install) (okact := fun _ _ => True);
    first [exact continues_handler | continues_side].
Qed.

Lemma continues_finally (body : M W unit) :
  preserves continues body ->
  preserves continues
    (try_finally body (call_hook EvCleanupEnv cleanup_env)).
Proof.
  intros Hbody. apply preserves_try_finally; [exact continues_trans | exact Hbody |].
  apply preserves_call_hook with (okev := not_install); continues_side.
Qed.

(** X7: both [run] methods install the handlers for SIGTERM and SIGINT
    once, before the iterator is first asked for a task, and nothing
    installs a handler later in the run.  [AbstractRunActor.run] installs
    them before it calls the pre-run hook, [RunActor.run] only after the
    hook has returned. *)
Theorem handlers_installed_before_loop :
  forall fuel max_time avg max_tasks sf args (st : State W) now w0 w,
    time_time (world st) = (now, w0) ->
    prepare_env w0 = (Ok tt, w) ->
    (exists rest,
        trace (snd (RunActor.run fuel max_time avg max_tasks sf args st))
        = trace st
            ++ [EvPrepareEnv; EvSignalHandler SIGTERM; EvSignalHandler SIGINT]
            ++ rest
        /\ count is_install rest = 0%nat)
    /\ (exists rest,
           trace (snd (AbstractRunActor.run fuel st))
           = trace st
               ++ [EvSignalHandler SIGTERM; EvSignalHandler SIGINT;
                   EvPrepareEnv]
               ++ rest
           /\ count is_install rest = 0%nat).
Proof.
  intros fuel max_time avg max_tasks sf args st now w0 w Hclock Hprep.
  split.
  - unfold RunActor.run.
    set (body := try_finally _ _).
    assert (Hbody : preserves continues body)
      by apply continues_finally, continues_run_loop.
    clearbody body. unfold Timer_new, setup_handler. unfold_monad. simpl.
    rewrite Hclock. simpl. rewrite Hprep. simpl.
    destruct (it_class (iterator (actor st)));
      match goal with
      | |- context [body ?s] =>
          destruct (Hbody s) as (rest & Htr & Hcount);
          destruct (body s) as [r st']
      end;
      simpl in Htr |- *; exists rest; rewrite Htr, <- ?app_assoc;
      split; [reflexivity | exact Hcount | reflexivity | exact Hcount
             | reflexivity | exact Hcount].
  - unfold AbstractRunActor.run.
    set (body := try_finally _ _).
    assert (Hbody : preserves continues body)
      by apply continues_finally, continues_abstract_run_loop.
    clearbody body. unfold Timer_new, setup_handler. unfold_monad. simpl.
    rewrite Hclock. simpl. rewrite Hprep. simpl.
    match goal with
    | |- context [body ?s] =>
        destruct (Hbody s) as (rest & Htr & Hcount);
        destruct (body s) as [r st']
    end.
    simpl in Htr |- *. exists rest. rewrite Htr, <- ?app_assoc.
    split; [reflexivity | exact Hcount].
Qed.
End Prologue.

(** ** The iterator object *)

Section IteratorObject.
Context {W : Type} `{World W}.
Import AbstractRunActor.

Lemma same_iterator_handler s : preserves same_iterator (handler s).
Proof.
  intros st. unfold same_iterator. rewrite handler_actor. unfold handled.
  destruct (current_task (actor st));
    [destruct (token_reset_values (actor st)) as [[lock done]|]|];
    reflexivity.
Qed.

Ltac same_iterator_side :=
  first [ exact same_iterator_handler
        | intros; reflexivity
        | intros; unfold same_iterator in *; simpl; congruence ].

Lemma same_iterator_run_loop fuel max_time avg max_tasks sf args :
  preserves same_iterator
    (RunActor.run_loop fuel max_time avg max_tasks sf args).
Proof.
  apply preserves_run_loop
    with (okev := fun _ => true)
         (okact := fun a a' => iterator a' = iterator a);
    same_iterator_side.
Qed.

Lemma same_iterator_abstract_run_loop fuel :
  preserves same_iterator (AbstractRunActor.run_loop fuel).
Proof.
  apply preserves_abstract_run_loop
    with (okev := fun _ => true)
         (okact := fun a a' => iterator a' = iterator a);
    same_iterator_side.
Qed.

Lemma same_iterator_finally (body : M W unit) :
  preserves same_iterator body ->
  preserves same_iterator
    (try_finally body (call_hook EvCleanupEnv cleanup_env)).
Proof.
  intros Hbody. apply preserves_try_finally;
    [same_iterator_side | exact Hbody |].
  apply preserves_call_hook with (okev := fun _ => true);
    same_iterator_side.
Qed.

(** X8: [RunActor.run] hands the stop function and its keyword arguments
    to an [EndlessViewIterator], whether or not a stop function was given
    (a callback set before is overwritten, also with [None]), and leaves
    any other iterator as it is; the loop, the handler and the hooks'
    callers never replace or change the iterator object afterwards.
    [AbstractRunActor.run] never writes to the iterator. *)
Theorem stop_function_reaches_endless_iterator :
  forall fuel max_time avg max_tasks sf args (st : State W) now w0 w,
    time_time (world st) = (now, w0) ->
    prepare_env w0 = (Ok tt, w) ->
    iterator (actor (snd (RunActor.run fuel max_time avg max_tasks sf args
                            st)))
    = registered sf args (iterator (actor st))
    /\ iterator (actor (snd (AbstractRunActor.run fuel st)))
       = iterator (actor st).
Proof.
  intros fuel max_time avg max_tasks sf args st now w0 w Hclock Hprep.
  split.
  - unfold RunActor.run.
    set (body := try_finally _ _).
    assert (Hbody : preserves same_iterator body)
      by apply same_iterator_finally, same_iterator_run_loop.
    clearbody body. unfold Timer_new, setup_handler. unfold_monad. simpl.
    rewrite Hclock. simpl. rewrite Hprep. simpl. unfold registered.
    destruct (it_class (iterator (actor st))) eqn:Hclass;
      match goal with
      | |- context [body ?s] =>
          pose proof (Hbody s) as Hsame; destruct (body s) as [r st']
      end;
      unfold same_iterator in Hsame; simpl in Hsame |- *;
      rewrite Hsame, ?Hclass; reflexivity.
  - unfold AbstractRunActor.run.
    set (body := try_finally _ _).
    assert (Hbody : preserves same_iterator body)
      by apply same_iterator_finally, same_iterator_abstract_run_loop.
    clearbody body. unfold Timer_new, setup_handler. unfold_monad. simpl.
    rewrite Hclock. simpl. rewrite Hprep. simpl.
    match goal with
    | |- context [body ?s] =>
        pose proof (Hbody s) as Hsame; destruct (body s) as [r st']
    end.
    unfold same_iterator in Hsame. simpl in Hsame |- *. exact Hsame.
Qed.
End IteratorObject.

(** ** [RunActor.run] without stop criteria *)

Section NoCriteria.
Context {W : Type} `{World W}.
Import AbstractRunActor.

(** X14: called with its default arguments (no time limit, [max_tasks]
    0, no stop function), the loop of [RunActor.run] is the loop of
    [AbstractRunActor.run]: no stop check reads the clock or ends the
    loop, every cycle is followed by [self.current_task = None], and the
    loop ends only with the iterator or an exception. *)
Theorem run_loop_without_criteria :
  forall fuel avg args (st : State W),
    RunActor.run_loop fuel None avg 0 None args st
    = AbstractRunActor.run_loop fuel st.
Proof.
  induction fuel as [|fuel IH]; intros avg args st; [reflexivity|].
  cbn [RunActor.run_loop AbstractRunActor.run_loop].
  unfold bind, modify_actor, ret.
  destruct (next_task st) as [[[task|]|e|] st0]; try reflexivity.
  destruct (_run (S fuel) task st0) as [[[]|e|] st1]; try reflexivity.
  rewrite stop_checks_none by reflexivity. apply IH.
Qed.
End NoCriteria.

(** ** The order of a cycle *)

Section CycleOrder.
Context {W : Type} `{World W}.
Import AbstractRunActor.

Ltac extends_ok :=
  first [ exact extends_refl | exact extends_trans
        | intros; apply extends_event
        | intros; apply extends_same_trace; reflexivity
        | intros; reflexivity | intros; exact I ].

Lemma extends_handler s : preserves extends (handler s).
Proof.
  apply preserves_handler
    with (okev := fun _ => true) (okact := fun _ _ => True); extends_ok.
Qed.

Lemma extends_next_task : preserves extends next_task.
Proof.
  apply preserves_next_task with (okev := fun _ => true);
    first [exact extends_handler | extends_ok].
Qed.

Lemma extends_stop_checks max_time avg max_tasks sf args :
  preserves extends (RunActor.stop_checks max_time avg max_tasks sf args).
Proof.
  apply preserves_stop_checks with (okev := fun _ => true); extends_ok.
Qed.

Lemma extends_run_ fuel task : preserves extends (_run fuel task).
Proof.
  apply preserves_run_
    with (okev := fun _ => true) (okact := fun _ _ => True);
    first [exact extends_handler | extends_ok].
Qed.

Lemma processing_trace task (st : State W) :
  exists evs,
    trace (snd (try_except (call_process_task task) is_Exception
                  (fun ex =>
                     update_task
                       (fun task' =>
                          Task_error task' (processing_message ex) ex) ;;
                     log_info (processing_message ex)) st))
    = trace st ++ [EvProcess task] ++ evs.
Proof.
  assert (Hrest : preserves extends
            (po <- ext (process_task task) ;;
             modify_actor (fun a =>
               set_subprocess (po_subprocess po)
                 (set_current_task (Some (po_task po)) a)) ;;
             match po_end po with
             | PReturn => ret tt
             | PRaise e => raise e
             | PSignal s => handler s
             end)).
  { apply (preserves_bind _ extends_trans).
    - apply preserves_ext. intros; apply extends_same_trace; reflexivity.
    - intros po. apply (preserves_bind _ extends_trans).
      + apply preserves_modify_actor with (okact := fun _ _ => True);
          [intros; apply extends_same_trace; reflexivity | intros; exact I].
      + intros _. destruct (po_end po);
          [ apply preserves_ret, extends_refl
          | apply preserves_raise, extends_refl
          | apply extends_handler ]. }
  assert (Hhandler : forall ex,
            preserves (extends (W := W))
              (update_task
                 (fun task' => Task_error task' (processing_message ex) ex) ;;
               log_info (processing_message ex))).
  { intros ex. apply (preserves_bind _ extends_trans).
    - apply preserves_update_task with (okact := fun _ _ => True);
        [intros; apply extends_same_trace; reflexivity | intros; exact I].
    - intros _. apply preserves_log_info.
      intros; apply extends_same_trace; reflexivity. }
  unfold try_except, call_process_task. unfold bind at 1. unfold emit.
  specialize (Hrest (add_event (EvProcess task) st)).
  match goal with
  | |- context [let (_, _) := ?m in _] =>
      change (snd (Ret tt, add_event (EvProcess task) st))
        with (add_event (EvProcess task) st) in *;
      destruct m as [[[]|e|] st1]
  end; simpl in Hrest |- *; destruct Hrest as (evs & Hevs);
    simpl in Hevs.
  - exists evs. rewrite Hevs, <- app_assoc. reflexivity.
  - destruct (is_Exception (exn_class e)).
    + destruct (Hhandler e st1) as (evs' & Hevs').
      exists (evs ++ evs'). rewrite Hevs', Hevs, <- !app_assoc. reflexivity.
    + exists evs. simpl. rewrite Hevs, <- app_assoc. reflexivity.
  - exists evs. rewrite Hevs, <- app_assoc. reflexivity.
Qed.

Lemma run_trace :
  forall fuel task (st st' : State W),
    _run fuel task st = (Ret tt, st') ->
    exists between saved,
      trace st'
      = trace st ++ [EvPrepareRun; EvProcess task] ++ between
          ++ [EvSave saved (Ok tt); EvCleanupRun].
Proof.
  intros fuel task st st'. unfold _run. unfold bind at 1.
  unfold call_hook at 1. unfold bind at 1. unfold emit, ext_result. simpl.
  destruct (prepare_run (world st)) as [[[]|e] w1]; try discriminate.
  unfold bind at 1. unfold modify_actor at 1. unfold bind at 1.
  match goal with
  | |- context [try_except _ _ _ ?s] =>
      destruct (processing_trace task s) as (evs1 & Hevs1)
  end.
  destruct (try_except _ _ _ _) as [[[]|e|] st3]; try discriminate.
  simpl in Hevs1. unfold bind at 1.
  destruct (save_loop fuel task st3) as [[[]|e|] st4] eqn:Hsave;
    try discriminate.
  apply save_loop_returns_after_save in Hsave.
  destruct Hsave as (evs2 & saved & Hevs2).
  unfold bind at 1. unfold call_hook. unfold bind at 1.
  unfold emit, ext_result. simpl.
  destruct (cleanup_run (world st4)) as [[[]|e] w5]; try discriminate.
  unfold modify_actor. intros [= <-]. simpl.
  exists (evs1 ++ evs2), saved.
  rewrite Hevs2, Hevs1, <- !app_assoc. reflexivity.
Qed.

Lemma save_loop_saves_held_task fuel :
  forall task (st st' : State W) held,
    current_task (actor st) = Some held ->
    save_loop fuel task st = (Ret tt, st') ->
    exists evs saved,
      trace st' = trace st ++ evs ++ [EvSave saved (Ok tt)]
      /\ current_task (actor st') = Some saved.
Proof.
  induction fuel as [|fuel IH]; intros task st st' held Hheld Hloop.
  - discriminate.
  - destruct (db_save (db (actor st)) held (world st)) as [[[]|e] w] eqn:Hsave.
    + rewrite (save_loop_ok fuel task st held w Hheld Hsave) in Hloop.
      injection Hloop as <-. exists [], held. split; [reflexivity|].
      exact Hheld.
    + destruct (is_ResourceConflict (exn_class e)) eqn:Hclass.
      * destruct (db_get (db (actor st)) (task_id held) w)
          as [[new_task|e'] w'] eqn:Hget.
        -- rewrite (save_loop_conflict fuel task st held e w new_task w'
                      Hheld Hsave Hclass Hget) in Hloop.
           apply (IH _ _ _ (set_rev (task_rev new_task) held)) in Hloop;
             [|reflexivity].
           destruct Hloop as (evs & saved & Htrace & Hsaved).
           exists ([EvSave held (Raise e); EvGet (task_id held)] ++ evs),
             saved.
           split; [|exact Hsaved]. rewrite Htrace. simpl.
           rewrite <- app_assoc. reflexivity.
        -- rewrite (save_loop_refetch_fails fuel task st held e w e' w'
                      Hheld Hsave Hclass Hget) in Hloop.
           discriminate.
      * rewrite (save_loop_error fuel task st held e w Hheld Hsave Hclass)
          in Hloop.
        discriminate.
Qed.

Lemma processing_holds_task task (st : State W) :
  exists held,
    current_task
      (actor (snd (try_except (call_process_task task) is_Exception
                     (fun ex =>
                        update_task
                          (fun task' =>
                             Task_error task' (processing_message ex) ex) ;;
                        log_info (processing_message ex)) st)))
    = Some held.
Proof.
  unfold try_except, call_process_task, update_task. unfold_monad. simpl.
  destruct (process_task task (world st)) as [[task1 sp [|ex|s]] w]; simpl.
  - eexists. reflexivity.
  - destruct (is_Exception (exn_class ex)); simpl; eexists; reflexivity.
  - match goal with
    | |- context [handler s ?st0] =>
        pose proof (handler_actor s st0) as Hactor;
        destruct (handler s st0) as [[[]|e|] st1]
    end; simpl in Hactor |- *.
    + rewrite Hactor. unfold handled. simpl.
      destruct (token_reset_values (actor st)) as [[lock done]|];
        eexists; reflexivity.
    + destruct (is_Exception (exn_class e)); simpl; rewrite Hactor;
        unfold handled; simpl;
        destruct (token_reset_values (actor st)) as [[lock done]|];
        eexists; reflexivity.
    + rewrite Hactor. unfold handled. simpl.
      destruct (token_reset_values (actor st)) as [[lock done]|];
        eexists; reflexivity.
Qed.

(** X15: the order of a cycle that returns.  The pre-task hook is called
    first and [process_task] right after it; the cycle ends with a save
    that the store accepted, followed at once by the post-task hook.
    Whatever lies in between (the handler's calls, conflicting saves and
    re-fetches) comes after the call of [process_task] and before the
    accepted save.  The document the store accepted is the task object the
    actor holds as its current task when the cycle ends. *)
Theorem cycle_order :
  forall fuel task (st st' : State W),
    _run fuel task st = (Ret tt, st') ->
    exists between saved,
      trace st'
      = trace st ++ [EvPrepareRun; EvProcess task] ++ between
          ++ [EvSave saved (Ok tt); EvCleanupRun]
      /\ current_task (actor st') = Some saved.
Proof.
  intros fuel task st st'. unfold _run. unfold bind at 1.
  unfold call_hook at 1. unfold bind at 1. unfold emit, ext_result. simpl.
  destruct (prepare_run (world st)) as [[[]|e] w1]; try discriminate.
  unfold bind at 1. unfold modify_actor at 1. unfold bind at 1.
  match goal with
  | |- context [try_except _ _ _ ?s] =>
      destruct (processing_trace task s) as (evs1 & Hevs1);
      destruct (processing_holds_task task s) as (held & Hheld)
  end.
  destruct (try_except _ _ _ _) as [[[]|e|] st3]; try discriminate.
  simpl in Hevs1, Hheld. unfold bind at 1.
  destruct (save_loop fuel task st3) as [[[]|e|] st4] eqn:Hsave;
    try discriminate.
  apply (save_loop_saves_held_task _ _ _ _ _ Hheld) in Hsave.
  destruct Hsave as (evs2 & saved & Hevs2 & Hsaved).
  unfold bind at 1. unfold call_hook. unfold bind at 1.
  unfold emit, ext_result. simpl.
  destruct (cleanup_run (world st4)) as [[[]|e] w5]; try discriminate.
  unfold modify_actor. intros [= <-]. simpl.
  exists (evs1 ++ evs2), saved. split; [|exact Hsaved].
  rewrite Hevs2, Hevs1, <- !app_assoc. reflexivity.
Qed.
End CycleOrder.

(** ** Counted implies saved *)

Section Persisted.
Context {W : Type} `{World W}.
Import AbstractRunActor.

Lemma sbc_refl (st : State W) : saved_before_counted st st.
Proof. unfold saved_before_counted. lia. Qed.

Lemma sbc_trans (st1 st2 st3 : State W) :
  saved_before_counted st1 st2 -> saved_before_counted st2 st3 ->
  saved_before_counted st1 st3.
Proof. unfold saved_before_counted. lia. Qed.

Lemma sbc_extends (st st' : State W) :
  same_tasks_processed st st' -> extends st st' ->
  saved_before_counted st st'.
Proof.
  unfold same_tasks_processed, saved_before_counted.
  intros -> (evs & ->). rewrite count_app. lia.
Qed.

Lemma sbc_run_ fuel task (st st' : State W) r :
  _run fuel task st = (r, st') -> saved_before_counted st st'.
Proof.
  intros Hrun. destruct r as [[]|e|].
  - pose proof (run_tasks_processed _ _ _ _ Hrun) as Htp.
    destruct (run_trace _ _ _ _ Hrun) as (between & saved & Htr).
    unfold saved_before_counted. rewrite Htp, Htr, !count_app.
    unfold count at 5. simpl. lia.
  - apply sbc_extends.
    + unfold same_tasks_processed.
      apply (run_failed_not_counted _ _ _ _ _ Hrun). discriminate.
    + pose proof (extends_run_ fuel task st) as Hext.
      rewrite Hrun in Hext. exact Hext.
  - apply sbc_extends.
    + unfold same_tasks_processed.
      apply (run_failed_not_counted _ _ _ _ _ Hrun). discriminate.
    + pose proof (extends_run_ fuel task st) as Hext.
      rewrite Hrun in Hext. exact Hext.
Qed.

Lemma sbc_next_task (st : State W) :
  saved_before_counted st (snd (next_task st)).
Proof.
  apply sbc_extends; [apply stp_next_task | apply extends_next_task].
Qed.

Lemma sbc_stop_checks max_time avg max_tasks sf args (st : State W) :
  saved_before_counted st
    (snd (RunActor.stop_checks max_time avg max_tasks sf args st)).
Proof.
  apply sbc_extends; [apply stp_stop_checks | apply extends_stop_checks].
Qed.

Lemma sbc_run_loop fuel max_time avg max_tasks sf args :
  forall (st : State W),
    saved_before_counted st
      (snd (RunActor.run_loop fuel max_time avg max_tasks sf args st)).
Proof.
  induction fuel as [|fuel IH]; intros st; [apply sbc_refl|].
  cbn [RunActor.run_loop]. unfold bind, modify_actor, ret.
  pose proof (sbc_next_task st) as Hnext.
  destruct (next_task st) as [[[task|]|e|] st0]; simpl in Hnext |- *;
    try exact Hnext.
  destruct (_run (S fuel) task st0) as [r st1] eqn:Hcycle.
  apply sbc_run_ in Hcycle.
  pose proof (sbc_trans _ _ _ Hnext Hcycle) as Hiter.
  destruct r as [[]|e|]; simpl; try exact Hiter.
  pose proof (sbc_stop_checks max_time avg max_tasks sf args st1) as Hstop.
  destruct (RunActor.stop_checks _ _ _ _ _ st1) as [[[|]|e|] st2];
    simpl in Hstop |- *;
    pose proof (sbc_trans _ _ _ Hiter Hstop) as Hchecked;
    try exact Hchecked.
  eapply sbc_trans; [|apply IH]. exact Hchecked.
Qed.

Lemma sbc_abstract_run_loop fuel :
  forall (st : State W),
    saved_before_counted st (snd (AbstractRunActor.run_loop fuel st)).
Proof.
  induction fuel as [|fuel IH]; intros st; [apply sbc_refl|].
  cbn [AbstractRunActor.run_loop]. unfold bind, modify_actor, ret.
  pose proof (sbc_next_task st) as Hnext.
  destruct (next_task st) as [[[task|]|e|] st0]; simpl in Hnext |- *;
    try exact Hnext.
  destruct (_run (S fuel) task st0) as [r st1] eqn:Hcycle.
  apply sbc_run_ in Hcycle.
  pose proof (sbc_trans _ _ _ Hnext Hcycle) as Hiter.
  destruct r as [[]|e|]; simpl; try exact Hiter.
  eapply sbc_trans; [|apply IH]. exact Hiter.
Qed.

(** X16: no task is counted that has not been saved.  Over the loop of
    either [run] method, however it ends, [tasks_processed] grows by
    no more than the number of saves the store accepted. *)
Theorem counted_tasks_were_saved :
  forall fuel max_time avg max_tasks sf args (st : State W),
    saved_before_counted st
      (snd (RunActor.run_loop fuel max_time avg max_tasks sf args st))
    /\ saved_before_counted st (snd (AbstractRunActor.run_loop fuel st)).
Proof.
  intros fuel max_time avg max_tasks sf args st.
  split; [apply sbc_run_loop | apply sbc_abstract_run_loop].
Qed.
End Persisted.

(** * picas/util.py: merge_dicts *)

Section MergeDicts.
Context {V : Type}.
Implicit Types (a b c d other : Dict V) (k : string) (v : V).

Lemma dict_contains_In k d :
  dict_contains k d = true <-> In k (dict_keys d).
Proof.
  unfold dict_contains. rewrite existsb_exists. split.
  - intros (k' & Hin & Heq). apply String.eqb_eq in Heq. subst. exact Hin.
  - intros Hin. exists k. split; [exact Hin | apply String.eqb_refl].
Qed.

Lemma dict_contains_not_In k d :
  dict_contains k d = false <-> ~ In k (dict_keys d).
Proof.
  rewrite <- dict_contains_In. destruct (dict_contains k d); split;
    congruence.
Qed.

Lemma dict_get_None k d : dict_get k d = None <-> ~ In k (dict_keys d).
Proof.
  induction d as [|[k' v'] d IH]; simpl.
  - tauto.
  - destruct (String.eqb_spec k' k) as [->|Hne].
    + split; [discriminate | intros Hn; exfalso; apply Hn; left; reflexivity].
    + rewrite IH. tauto.
Qed.

Lemma dict_get_setitem k k' v d :
  dict_get k' (dict_setitem k v d)
  = if String.eqb k k' then Some v else dict_get k' d.
Proof.
  induction d as [|[k0 v0] d IH]; simpl.
  - reflexivity.
  - destruct (String.eqb_spec k0 k) as [->|Hne]; simpl.
    + destruct (String.eqb_spec k k'); reflexivity.
    + rewrite IH. destruct (String.eqb_spec k0 k') as [->|Hne'];
        [|reflexivity].
      destruct (String.eqb_spec k k'); [congruence | reflexivity].
Qed.

Lemma dict_keys_setitem k v d :
  dict_keys (dict_setitem k v d)
  = if dict_contains k d then dict_keys d else dict_keys d ++ [k].
Proof.
  induction d as [|[k0 v0] d IH]; simpl.
  - reflexivity.
  - unfold dict_contains in *. simpl.
    rewrite (String.eqb_sym k k0).
    destruct (String.eqb_spec k0 k) as [->|Hne]; simpl.
    + reflexivity.
    + rewrite IH. destruct (existsb _ _); reflexivity.
Qed.

Lemma dict_update_cons d k v other :
  dict_update d ((k, v) :: other) = dict_update (dict_setitem k v d) other.
Proof. reflexivity. Qed.

Lemma dict_get_update other :
  forall d k,
    NoDup (dict_keys other) ->
    dict_get k (dict_update d other)
    = match dict_get k other with
      | Some v => Some v
      | None => dict_get k d
      end.
Proof.
  induction other as [|[k1 v1] other IH]; intros d k Hnd.
  - reflexivity.
  - rewrite dict_update_cons. simpl in Hnd. inversion Hnd as [|? ? Hnin Hnd'].
    subst. rewrite IH by exact Hnd'. simpl.
    rewrite dict_get_setitem.
    destruct (String.eqb_spec k1 k) as [->|Hne]; [|reflexivity].
    apply dict_get_None in Hnin. rewrite Hnin. reflexivity.
Qed.

Lemma filter_ext_In_keys (f g : string -> bool) (l : list string) :
  (forall k, In k l -> f k = g k) -> filter f l = filter g l.
Proof.
  induction l as [|k l IH]; intros Hfg; simpl; [reflexivity|].
  rewrite (Hfg k) by (left; reflexivity).
  rewrite IH by (intros; apply Hfg; right; assumption). reflexivity.
Qed.

Lemma dict_keys_update other :
  forall d,
    NoDup (dict_keys other) ->
    dict_keys (dict_update d other) = dict_keys d ++ new_keys d other.
Proof.
  induction other as [|[k1 v1] other IH]; intros d Hnd.
  - unfold new_keys. simpl. rewrite app_nil_r. reflexivity.
  - rewrite dict_update_cons. simpl in Hnd.
    inversion Hnd as [|? ? Hnin Hnd']. subst.
    rewrite IH by exact Hnd'. rewrite dict_keys_setitem.
    unfold new_keys. simpl.
    destruct (dict_contains k1 d) eqn:Hin; simpl.
    + f_equal. apply filter_ext_In_keys. intros k _.
      unfold dict_contains. rewrite dict_keys_setitem.
      rewrite Hin. reflexivity.
    + rewrite <- app_assoc. simpl. do 2 f_equal.
      apply filter_ext_In_keys. intros k Hk.
      unfold dict_contains at 1. rewrite dict_keys_setitem, Hin.
      rewrite existsb_app. simpl. fold (dict_contains k d).
      destruct (String.eqb_spec k k1) as [->|Hne]; [contradiction|].
      rewrite !orb_false_r. reflexivity.
Qed.

Lemma NoDup_keys_setitem k v d :
  NoDup (dict_keys d) -> NoDup (dict_keys (dict_setitem k v d)).
Proof.
  intros Hnd. rewrite dict_keys_setitem.
  destruct (dict_contains k d) eqn:Hin; [exact Hnd|].
  apply dict_contains_not_In in Hin.
  apply NoDup_rev in Hnd. rewrite <- (rev_involutive (_ ++ _)).
  apply NoDup_rev. rewrite rev_app_distr. simpl. constructor; [|exact Hnd].
  rewrite <- in_rev. exact Hin.
Qed.

Lemma NoDup_keys_update other :
  forall d, NoDup (dict_keys d) -> NoDup (dict_keys (dict_update d other)).
Proof.
  induction other as [|[k1 v1] other IH]; intros d Hnd; [exact Hnd|].
  rewrite dict_update_cons. apply IH, NoDup_keys_setitem, Hnd.
Qed.

Lemma dict_setitem_twice k v0 v d :
  dict_setitem k v (dict_setitem k v0 d) = dict_setitem k v d.
Proof.
  induction d as [|[k0 v1] d IH]; simpl.
  - rewrite String.eqb_refl. reflexivity.
  - destruct (String.eqb_spec k0 k) as [->|Hne]; simpl.
    + rewrite String.eqb_refl. reflexivity.
    + destruct (String.eqb_spec k0 k); [contradiction|]. rewrite IH.
      reflexivity.
Qed.

Lemma dict_setitem_swap k v k' v' d :
  In k (dict_keys d) -> k <> k' ->
  dict_setitem k v (dict_setitem k' v' d)
  = dict_setitem k' v' (dict_setitem k v d).
Proof.
  intros Hin Hne. induction d as [|[k0 v0] d IH]; simpl in *; [contradiction|].
  destruct (String.eqb_spec k0 k') as [->|Hne']; simpl.
  - destruct (String.eqb_spec k' k) as [->|_]; [contradiction Hne; reflexivity|].
    simpl. rewrite String.eqb_refl. reflexivity.
  - destruct (String.eqb_spec k0 k) as [->|Hne0]; simpl.
    + destruct (String.eqb_spec k k'); [contradiction|]. reflexivity.
    + destruct (String.eqb_spec k0 k'); [contradiction|].
      rewrite IH; [reflexivity|]. destruct Hin; [contradiction|assumption].
Qed.

Lemma In_keys_setitem k v d : In k (dict_keys (dict_setitem k v d)).
Proof.
  rewrite dict_keys_setitem. destruct (dict_contains k d) eqn:Hin.
  - apply dict_contains_In, Hin.
  - apply in_or_app. right. left. reflexivity.
Qed.

Lemma In_keys_setitem_other k k' v' d :
  In k (dict_keys d) -> In k (dict_keys (dict_setitem k' v' d)).
Proof.
  intros Hin. rewrite dict_keys_setitem. destruct (dict_contains k' d);
    [exact Hin | apply in_or_app; left; exact Hin].
Qed.

Lemma dict_update_setitem_present other :
  forall d k v,
    ~ In k (dict_keys other) -> In k (dict_keys d) ->
    dict_update (dict_setitem k v d) other
    = dict_setitem k v (dict_update d other).
Proof.
  induction other as [|[k1 v1] other IH]; intros d k v Hnin Hin.
  - reflexivity.
  - rewrite !dict_update_cons. simpl in Hnin.
    rewrite <- IH; [|tauto | apply In_keys_setitem_other, Hin].
    f_equal. symmetry. apply dict_setitem_swap; [exact Hin|].
    intros ->. apply Hnin. left. reflexivity.
Qed.

Lemma dict_update_setitem d :
  forall a k v,
    NoDup (dict_keys d) ->
    dict_update a (dict_setitem k v d)
    = dict_setitem k v (dict_update a d).
Proof.
  induction d as [|[k0 v0] d IH]; intros a k v Hnd.
  - reflexivity.
  - simpl in Hnd. inversion Hnd as [|? ? Hnin Hnd']. subst. simpl.
    destruct (String.eqb_spec k0 k) as [->|Hne].
    + rewrite !dict_update_cons.
      rewrite <- (dict_update_setitem_present d (dict_setitem k v0 a) k v);
        [|exact Hnin | apply In_keys_setitem].
      rewrite dict_setitem_twice. reflexivity.
    + rewrite !dict_update_cons. apply IH. exact Hnd'.
Qed.

Lemma dict_update_assoc c :
  forall a b,
    NoDup (dict_keys b) ->
    dict_update a (dict_update b c) = dict_update (dict_update a b) c.
Proof.
  induction c as [|[k v] c IH]; intros a b Hnd.
  - reflexivity.
  - rewrite !dict_update_cons.
    rewrite IH by (apply NoDup_keys_setitem, Hnd).
    rewrite dict_update_setitem by exact Hnd. reflexivity.
Qed.

Lemma dict_update_fresh other :
  forall d,
    NoDup (dict_keys (d ++ other)) -> dict_update d other = d ++ other.
Proof.
  induction other as [|[k v] other IH]; intros d Hnd.
  - rewrite app_nil_r. reflexivity.
  - rewrite dict_update_cons.
    assert (Hset : dict_setitem k v d = d ++ [(k, v)]).
    { assert (Hnin : ~ In k (dict_keys d)).
      { unfold dict_keys in *. rewrite map_app in Hnd. simpl in Hnd.
        apply NoDup_remove_2 in Hnd. intros Hin. apply Hnd.
        apply in_or_app. left. exact Hin. }
      clear -Hnin. induction d as [|[k0 v0] d IH]; simpl in *;
        [reflexivity|].
      destruct (String.eqb_spec k0 k) as [->|Hne]; [tauto|].
      rewrite IH by tauto. reflexivity. }
    rewrite Hset, IH; rewrite <- app_assoc; [reflexivity | exact Hnd].
Qed.

Lemma dict_setitem_same k v d :
  dict_get k d = Some v -> dict_setitem k v d = d.
Proof.
  induction d as [|[k0 v0] d IH]; simpl; [discriminate|].
  destruct (String.eqb_spec k0 k) as [->|Hne].
  - intros [= ->]. reflexivity.
  - intros Hget. rewrite IH by exact Hget. reflexivity.
Qed.

Lemma dict_update_agreeing other :
  forall d,
    (forall k v, In (k, v) other -> dict_get k d = Some v) ->
    dict_update d other = d.
Proof.
  induction other as [|[k v] other IH]; intros d Hagree; [reflexivity|].
  rewrite dict_update_cons.
  rewrite dict_setitem_same by (apply Hagree; left; reflexivity).
  apply IH. intros k' v' Hin. apply Hagree. right. exact Hin.
Qed.

Lemma dict_get_In k v d :
  NoDup (dict_keys d) -> In (k, v) d -> dict_get k d = Some v.
Proof.
  induction d as [|[k0 v0] d IH]; simpl; [tauto|].
  intros Hnd [Heq|Hin]; inversion Hnd as [|? ? Hnin Hnd']; subst.
  - injection Heq as -> ->. rewrite String.eqb_refl. reflexivity.
  - destruct (String.eqb_spec k0 k) as [->|Hne].
    + exfalso. apply Hnin. apply (in_map fst) in Hin. exact Hin.
    + apply IH; assumption.
Qed.

(** X9: a lookup in [merge_dicts(dict1, dict2)] gives the value of
    [dict2] for a key [dict2] has, and the value of [dict1] for any other
    key; a key of neither is not in the result. *)
Theorem merge_dicts_prefers_second :
  forall (dict1 dict2 : Dict V) k,
    NoDup (dict_keys dict2) ->
    dict_get k (merge_dicts dict1 dict2)
    = match dict_get k dict2 with
      | Some v => Some v
      | None => dict_get k dict1
      end.
Proof.
  intros dict1 dict2 k Hnd. unfold merge_dicts, deepcopy.
  apply dict_get_update, Hnd.
Qed.

(** X10: the result of [merge_dicts] keeps the keys of [dict1] in their
    order, also those whose value [dict2] replaces, and has the keys that
    only [dict2] has after them, in the order of [dict2]; its keys are
    pairwise different, and it has at least the items of [dict1] and at
    most those of both. *)
Theorem merge_dicts_key_order :
  forall (dict1 dict2 : Dict V),
    NoDup (dict_keys dict1) ->
    NoDup (dict_keys dict2) ->
    dict_keys (merge_dicts dict1 dict2)
    = dict_keys dict1 ++ new_keys dict1 dict2
    /\ NoDup (dict_keys (merge_dicts dict1 dict2))
    /\ (List.length dict1 <= List.length (merge_dicts dict1 dict2)
        <= List.length dict1 + List.length dict2)%nat.
Proof.
  intros dict1 dict2 Hnd1 Hnd2. unfold merge_dicts, deepcopy.
  pose proof (dict_keys_update dict2 dict1 Hnd2) as Hkeys.
  split; [exact Hkeys|]. split; [apply NoDup_keys_update, Hnd1|].
  apply (f_equal (@List.length string)) in Hkeys.
  unfold dict_keys in Hkeys. rewrite length_app, !length_map in Hkeys.
  rewrite Hkeys.
  assert (Hle : (List.length (new_keys dict1 dict2) <= List.length dict2)%nat).
  { unfold new_keys, dict_keys.
    rewrite <- (length_map fst dict2). apply filter_length_le. }
  lia.
Qed.

(** X11: merging composes.  The empty dict is neutral on both sides,
    merging a dict with itself changes nothing, and merging three dicts
    gives the same dict, items and order, however the two calls are
    nested. *)
Theorem merge_dicts_composes :
  forall (dict1 dict2 dict3 : Dict V),
    NoDup (dict_keys dict1) ->
    NoDup (dict_keys dict2) ->
    merge_dicts dict1 [] = dict1
    /\ merge_dicts [] dict1 = dict1
    /\ merge_dicts dict1 dict1 = dict1
    /\ merge_dicts (merge_dicts dict1 dict2) dict3
       = merge_dicts dict1 (merge_dicts dict2 dict3).
Proof.
  intros dict1 dict2 dict3 Hnd1 Hnd2. unfold merge_dicts, deepcopy.
  split; [reflexivity|]. split; [|split].
  - apply (dict_update_fresh dict1 []). exact Hnd1.
  - apply dict_update_agreeing. intros k v Hin.
    apply dict_get_In; assumption.
  - symmetry. apply dict_update_assoc. exact Hnd2.
Qed.
End MergeDicts.

(** * picas/srmclient.py: Downloader *)

Section DownloaderProperties.
Context {C : Type} `{SRM C}.
Import Downloader.

Lemma download_loop_once fuel f (d : DownloaderState C) :
  download_loop (S (S fuel)) f 0 false d
  = match call_download f d with
    | (Ok _, d') => (Ret 0, d')
    | (Raise _, d') => (Exc type_error, d')
    end.
Proof.
  cbn [download_loop]. change ((0 <? 10) && negb false) with true.
  cbv iota. destruct (call_download f d) as [[[]|e] d'].
  - change ((0 <? 10) && negb true) with false. reflexivity.
  - reflexivity.
Qed.

Lemma call_download_calls f (d : DownloaderState C) :
  q (snd (call_download f d)) = q d
  /\ unfinished_tasks (snd (call_download f d)) = unfinished_tasks d
  /\ calls (snd (call_download f d)) = calls d ++ [EvDownload f].
Proof.
  unfold call_download. destruct (srm_download f (srm d)). repeat split.
Qed.

Lemma downloaded_app evs1 evs2 :
  downloaded (evs1 ++ evs2) = downloaded evs1 ++ downloaded evs2.
Proof. unfold downloaded. apply flat_map_app. Qed.

Lemma run_outcomes fuel :
  forall (d : DownloaderState C),
    (fst (run fuel d) = Exc name_error
     \/ fst (run fuel d) = Exc type_error
     \/ fst (run fuel d) = Exc task_done_error
     \/ fst (run fuel d) = Diverge)
    /\ exists evs,
         calls (snd (run fuel d)) = calls d ++ evs
         /\ downloaded evs ++ q (snd (run fuel d)) = q d.
Proof.
  induction fuel as [|fuel IH]; intros d.
  - simpl. split; [tauto|]. exists []. rewrite app_nil_r. split; reflexivity.
  - cbn [run]. destruct (q d) as [|f rest] eqn:Hq.
    + simpl. split; [tauto|]. exists []. rewrite app_nil_r, Hq.
      split; reflexivity.
    + set (d1 := {| q := rest; unfinished_tasks := unfinished_tasks d;
                    srm := srm d; calls := calls d |}).
      destruct fuel as [|fuel].
      * (* the budget ends inside the inner loop *)
        cbn [download_loop]. change ((0 <? 10) && negb false) with true.
        cbv iota.
        destruct (call_download_calls f d1) as (Hq1 & _ & Hc1).
        destruct (call_download f d1) as [[[]|e] d2]; simpl in *.
        -- split; [tauto|]. exists [EvDownload f].
           rewrite Hc1, Hq1. split; reflexivity.
        -- split; [tauto|]. exists [EvDownload f].
           rewrite Hc1, Hq1. split; reflexivity.
      * rewrite download_loop_once.
        destruct (call_download_calls f d1) as (Hq1 & Hu1 & Hc1).
        destruct (call_download f d1) as [[[]|e] d2]; simpl in Hq1, Hu1, Hc1.
        -- change (0 >? 9) with false. cbv iota. unfold task_done.
           destruct (unfinished_tasks d2) as [|n] eqn:Hu.
           ++ simpl. split; [tauto|]. exists [EvDownload f].
              rewrite Hc1, Hq1. split; reflexivity.
           ++ match goal with
              | |- context [run (S fuel) ?d3] =>
                  destruct (IH d3) as (Hout & evs & Hcalls & Hfiles);
                  destruct (run (S fuel) d3) as [r d4]
              end.
              simpl in *. split; [exact Hout|].
              exists ([EvDownload f; EvTaskDone] ++ evs).
              rewrite Hcalls, Hc1, <- !app_assoc. split; [reflexivity|].
              rewrite downloaded_app. simpl. rewrite Hfiles, Hq1.
              reflexivity.
        -- simpl. split; [tauto|]. exists [EvDownload f].
           rewrite Hc1, Hq1. split; reflexivity.
Qed.

(** X12: [Downloader.run] never tries a download a second time.  The
    clause [except Exception():] names an instance, not a class, so the
    first download that raises ends the thread with a [TypeError]: the
    counter of attempts is never incremented and the
    ["Download failed."] error is never raised.  The thread never returns
    normally either, since the statement after the loop uses a name the
    module does not bind.  Whatever happens, the files it has tried,
    followed by what is left in the queue, are the queue it started with:
    each file is tried at most once, in queue order. *)
Theorem downloader_tries_each_file_once :
  forall fuel (d : DownloaderState C),
    fst (run fuel d) <> Ret tt
    /\ fst (run fuel d) <> Exc download_failed
    /\ (fst (run fuel d) = Exc name_error
        \/ fst (run fuel d) = Exc type_error
        \/ fst (run fuel d) = Exc task_done_error
        \/ fst (run fuel d) = Diverge)
    /\ exists evs,
         calls (snd (run fuel d)) = calls d ++ evs
         /\ downloaded evs ++ q (snd (run fuel d)) = q d.
Proof.
  intros fuel d. destruct (run_outcomes fuel d) as (Hout & Hevs).
  repeat split; try assumption;
    destruct Hout as [-> | [-> | [-> | ->]]]; discriminate.
Qed.

Lemma download_loop_first fuel f (d : DownloaderState C) :
  (2 <= fuel)%nat ->
  download_loop fuel f 0 false d
  = match call_download f d with
    | (Ok _, d') => (Ret 0, d')
    | (Raise _, d') => (Exc type_error, d')
    end.
Proof.
  intros Hfuel. destruct fuel as [|[|fuel]]; [lia | lia |].
  apply download_loop_once.
Qed.

Lemma run_fetches files :
  forall fuel (d : DownloaderState C) rest c,
    q d = files ++ rest ->
    fetched files (srm d) = Some c ->
    (List.length files <= unfinished_tasks d)%nat ->
    (2 <= fuel)%nat ->
    run (List.length files + fuel) d
    = run fuel
        {| q := rest;
           unfinished_tasks := unfinished_tasks d - List.length files;
           srm := c;
           calls := calls d ++ fetch_calls files |}.
Proof.
  induction files as [|f files IH]; intros fuel d rest c Hq Hfetch Hun Hfuel.
  - simpl in *. injection Hfetch as <-. rewrite Nat.sub_0_r, app_nil_r.
    destruct d; simpl in *; subst; reflexivity.
  - simpl in Hfetch, Hun, Hq.
    change (List.length (f :: files) + fuel)%nat
      with (S (List.length files + fuel)).
    cbn [run]. rewrite Hq.
    rewrite download_loop_first by lia. unfold call_download. simpl.
    destruct (srm_download f (srm d)) as [[[]|e] c1]; [|discriminate].
    change (0 >? 9) with false. cbv iota. unfold task_done. simpl.
    destruct (unfinished_tasks d) as [|n] eqn:Hu; [lia|].
    rewrite (IH fuel _ rest c); simpl;
      [|reflexivity | exact Hfetch | lia | exact Hfuel].
    rewrite <- !app_assoc. reflexivity.
Qed.

(** X13: a thread that is alone on the queue takes the files in queue
    order.  When every download succeeds it downloads each file once,
    reports each as done, leaves the queue empty and then ends with the
    [NameError] of the statement after the loop.  When the download of a
    file raises, the thread ends there with the [TypeError]: the files
    before it are downloaded and reported, the failing file has been taken
    from the queue but is not reported as done, and the files behind it
    stay in the queue. *)
Theorem downloader_takes_files_in_order :
  forall fuel (d : DownloaderState C) files c,
    fetched files (srm d) = Some c ->
    (List.length files <= unfinished_tasks d)%nat ->
    (2 <= fuel)%nat ->
    (q d = files ->
     run (List.length files + fuel) d
     = (Exc name_error,
        {| q := [];
           unfinished_tasks := unfinished_tasks d - List.length files;
           srm := c;
           calls := calls d ++ fetch_calls files |}))
    /\ (forall f rest e c',
           q d = files ++ f :: rest ->
           srm_download f c = (Raise e, c') ->
           run (List.length files + fuel) d
           = (Exc type_error,
              {| q := rest;
                 unfinished_tasks := unfinished_tasks d - List.length files;
                 srm := c';
                 calls := calls d ++ fetch_calls files ++ [EvDownload f] |})).
Proof.
  intros fuel d files c Hfetch Hun Hfuel. split.
  - intros Hq.
    rewrite (run_fetches files fuel d [] c);
      [|rewrite app_nil_r; exact Hq | exact Hfetch | exact Hun | exact Hfuel].
    destruct fuel as [|fuel]; [lia|]. reflexivity.
  - intros f rest e c' Hq Hfail.
    rewrite (run_fetches files fuel d (f :: rest) c Hq Hfetch Hun Hfuel).
    destruct fuel as [|fuel]; [lia|]. cbn [run q].
    rewrite download_loop_first by lia. unfold call_download. simpl.
    rewrite Hfail. rewrite <- app_assoc. reflexivity.
Qed.
End DownloaderProperties.

(** * Instances of the further properties *)

Lemma abstract_run_leaves_no_current_task_witness :
  AbstractRunActor.run 5 (start two_tasks) = two_tasks_abstract_run
  /\ tasks_processed (actor (snd two_tasks_abstract_run)) = 2
  /\ current_task (actor (snd two_tasks_abstract_run)) = None.
Proof.
  unshelve epose proof
    (abstract_run_leaves_no_current_task 5 (start two_tasks)
       (snd two_tasks_abstract_run) _ _) as Hnone;
    [vm_compute; reflexivity .. |].
  split; [vm_compute; reflexivity|]. split; [vm_compute; reflexivity|].
  exact Hnone.
Defined.

Lemma counter_counts_completed_cycles_witness :
  fst aborted_loop = Exc keyboard_interrupt
  /\ tasks_processed (actor (snd aborted_loop)) = 1
  /\ count is_process (trace (snd aborted_loop)) = 2%nat
  /\ all_but_one_counted (start aborted) (snd aborted_loop).
Proof.
  unshelve epose proof
    (counter_counts_completed_cycles 5 None 0%float 0 None []
       (start aborted) (snd aborted_loop) (fst aborted_loop) _) as Hcount;
    [left; vm_compute; reflexivity |].
  split; [vm_compute; reflexivity|]. split; [vm_compute; reflexivity|].
  split; [vm_compute; reflexivity|]. exact (proj1 Hcount).
Defined.

Lemma handler_failure_is_caught_by_cycle_witness :
  AbstractRunActor._run 1 (token "a") shutdown_conflict_cycle
  = persist_and_finish 1 (token "a")
      (annotated conflict
         (snd (AbstractRunActor.handler SIGTERM
                 (in_processing shutdown_conflict_cycle (token "a")
                    (token "a") None shutdown_conflict_world))))
  /\ fst shutdown_conflict_run = Ret tt
  /\ tasks_processed (actor (snd shutdown_conflict_run)) = 2
  /\ count is_exit (trace (snd shutdown_conflict_run)) = 0%nat
  /\ map (fun doc => (task_id doc, task_lock doc, task_done doc))
       (sc_stored (world (snd shutdown_conflict_run)))
     = [("a", 99, 99); ("b", 1, 0)].
Proof.
  unshelve epose proof
    (handler_failure_is_caught_by_cycle 1 (token "a")
       shutdown_conflict_cycle
       (snd (prepare_run (world shutdown_conflict_cycle)))
       (token "a") None SIGTERM shutdown_conflict_world conflict _ _ _)
    as Hcaught;
    [vm_compute; reflexivity .. |].
  destruct Hcaught as [_ Hcaught].
  unshelve epose proof (Hcaught _) as Hgoes_on; [vm_compute; reflexivity|].
  split; [exact (proj1 Hgoes_on)|].
  repeat split; vm_compute; reflexivity.
Defined.

Lemma cycle_cut_short_witness :
  AbstractRunActor._run 1 (token "b") aborted_cycle
  = (Exc keyboard_interrupt,
     in_processing aborted_cycle (token "b") (token "b") None
       (snd (process_task (token "b")
               (snd (prepare_run (world aborted_cycle))))))
  /\ map task_id (sc_stored (world (snd aborted_loop))) = ["a"].
Proof.
  pose proof (cycle_cut_short 1 (token "b") aborted_cycle) as [_ [Hbase _]].
  unshelve epose proof
    (Hbase (snd (prepare_run (world aborted_cycle))) (token "b") None
       keyboard_interrupt
       (snd (process_task (token "b")
               (snd (prepare_run (world aborted_cycle))))) _ _ _) as Hcut;
    [vm_compute; reflexivity .. |].
  split; [exact Hcut | vm_compute; reflexivity].
Defined.

Lemma prepare_env_failure_skips_teardown_witness :
  trace (snd (RunActor.run 5 None 0%float 0 None [] (start unprepared)))
  = [EvPrepareEnv]
  /\ trace (snd (AbstractRunActor.run 5 (start unprepared)))
     = [EvSignalHandler SIGTERM; EvSignalHandler SIGINT; EvPrepareEnv].
Proof.
  unshelve epose proof
    (prepare_env_failure_skips_teardown 5 None 0%float 0 None []
       (start unprepared) 0%float unprepared setup_error two_tasks _ _)
    as [Hrun Habstract];
    [vm_compute; reflexivity .. |].
  rewrite Hrun, Habstract. split; reflexivity.
Defined.

Lemma handlers_installed_before_loop_witness :
  exists rest,
    trace (snd two_tasks_run)
    = [EvPrepareEnv; EvSignalHandler SIGTERM; EvSignalHandler SIGINT] ++ rest
    /\ count is_install rest = 0%nat.
Proof.
  unshelve epose proof
    (handlers_installed_before_loop 5 None 0%float 0 None []
       (start two_tasks) 0%float two_tasks two_tasks _ _)
    as [(rest & Htrace & Hcount) _];
    [vm_compute; reflexivity .. |].
  exists rest. split; [|exact Hcount].
  assert (Hrun : RunActor.run 5 None 0%float 0 None [] (start two_tasks)
                 = two_tasks_run) by (vm_compute; reflexivity).
  rewrite Hrun in Htrace. exact Htrace.
Defined.

Lemma stop_function_reaches_endless_iterator_witness :
  stop_callback
    (iterator (actor (snd (RunActor.run 5 None 0%float 2 None [] endless))))
  = None
  /\ stop_callback
       (iterator (actor (snd (AbstractRunActor.run 5 endless))))
     = Some {| sf_name := "out_of_budget" |}.
Proof.
  unshelve epose proof
    (stop_function_reaches_endless_iterator 5 None 0%float 2 None []
       endless 0%float two_tasks two_tasks _ _) as [Hrun Habstract];
    [vm_compute; reflexivity .. |].
  rewrite Hrun, Habstract. split; reflexivity.
Defined.

Lemma merge_dicts_prefers_second_witness :
  dict_get "lock" (merge_dicts token_fields worker_fields)
  = Some "1700000000"
  /\ dict_get "input" (merge_dicts token_fields worker_fields) = Some "a"
  /\ dict_get "output" (merge_dicts token_fields worker_fields) = None.
Proof.
  assert (Hnd : NoDup (dict_keys worker_fields)).
  { repeat constructor; simpl; intuition discriminate. }
  split; [|split];
    rewrite (merge_dicts_prefers_second token_fields worker_fields _ Hnd);
    reflexivity.
Defined.

Lemma merge_dicts_key_order_witness :
  dict_keys (merge_dicts token_fields worker_fields)
  = ["lock"; "done"; "input"; "hostname"].
Proof.
  assert (Hnd1 : NoDup (dict_keys token_fields)).
  { repeat constructor; simpl; intuition discriminate. }
  assert (Hnd2 : NoDup (dict_keys worker_fields)).
  { repeat constructor; simpl; intuition discriminate. }
  destruct (merge_dicts_key_order token_fields worker_fields Hnd1 Hnd2)
    as [Hkeys _].
  rewrite Hkeys. reflexivity.
Defined.

Lemma merge_dicts_composes_witness :
  merge_dicts (merge_dicts token_fields worker_fields) result_fields
  = merge_dicts token_fields (merge_dicts worker_fields result_fields).
Proof.
  assert (Hnd1 : NoDup (dict_keys token_fields)).
  { repeat constructor; simpl; intuition discriminate. }
  assert (Hnd2 : NoDup (dict_keys worker_fields)).
  { repeat constructor; simpl; intuition discriminate. }
  exact (proj2 (proj2 (proj2
           (merge_dicts_composes token_fields worker_fields result_fields
              Hnd1 Hnd2)))).
Defined.

Lemma downloader_takes_files_in_order_witness :
  Downloader.run 3 three_files
  = (Exc type_error,
     {| q := ["srm://c"]; unfinished_tasks := 2; srm := [];
        calls := [EvDownload "srm://a"; EvTaskDone; EvDownload "srm://b"] |}).
Proof.
  unshelve epose proof
    (downloader_takes_files_in_order 2 three_files ["srm://a"]
       [Raise unreachable] _ _ _) as [_ Hfail];
    [reflexivity | simpl; lia | lia |].
  exact (Hfail "srm://b" ["srm://c"] unreachable [] eq_refl eq_refl).
Defined.

Lemma cycle_order_witness :
  exists between saved,
    trace contended_done
    = [EvNext; EvPrepareRun; EvProcess (token "a")] ++ between
        ++ [EvSave saved (Ok tt); EvCleanupRun]
    /\ current_task (actor contended_done) = Some saved.
Proof.
  unshelve epose proof
    (cycle_order 3 (token "a") contended_cycle contended_done _)
    as (between & saved & Htrace & Hheld);
    [vm_compute; reflexivity |].
  exists between, saved. split; [exact Htrace | exact Hheld].
Defined.
